(** * TP-TODO-List: the task manager of [src/node.js]

    A shallow embedding of the [Task] and [TaskManager] classes, and the
    properties of the written specification that hold, or fail, on them.

    Conventions of the embedding.
    - A JavaScript string is the list of its UTF-16 code units ([jsstring]);
      [js "abc"] is the string of an ASCII literal.
    - A [Date] is its time value, an integer number of milliseconds since
      the epoch; an invalid Date is not part of the model.  A Number that
      holds an integer is that integer: Number arithmetic agrees with [Z]
      arithmetic below 2^53, far above any duration the program measures.
    - An array is a list; an object whose fields are assigned in place is a
      record that the functions rebuild.
    - The environment (clock, random generator) is read through explicit
      arguments: every [new Date()], [Date.now()] and [Math.random()] takes
      its result from the caller of the model.
    - [localStorage] holds text.  [JSON.stringify], [JSON.parse],
      [Date.prototype.toISOString] and the reading of such a date by
      [new Date] are modelled on the text itself.
    - The page is reduced to what the manager reads and writes: the value
      of the input field, the list of items, the line about the fastest
      task.

    The definitions come first; the theorems follow, with the claim they
    settle named in the comment above each. *)

From Stdlib Require Import ZArith NArith List Bool Lia String Ascii.
From Stdlib Require Import Sorted Permutation.
Import ListNotations.
Open Scope Z_scope.

(** ** JavaScript strings *)

Definition jsstring := list N.

(** The code units of an ASCII literal. *)
Definition js (s : string) : jsstring :=
  map N_of_ascii (list_ascii_of_string s).

Fixpoint jsstring_eqb (a b : jsstring) : bool :=
  match a, b with
  | [], [] => true
  | x :: a', y :: b' => N.eqb x y && jsstring_eqb a' b'
  | _, _ => false
  end.

(** [Array.prototype.push] on the model of an array as a list. *)
Definition push {A} (arr : list A) (x : A) : list A := arr ++ [x].

(** [Array.prototype.join] for an array of strings. *)
Fixpoint Array_join (parts : list jsstring) (sep : jsstring) : jsstring :=
  match parts with
  | [] => []
  | [p] => p
  | p :: rest => p ++ sep ++ Array_join rest sep
  end.

(** ** Numbers to text *)

(** The digit characters [0-9a-z] of [Number.prototype.toString(radix)]. *)
Definition digit_char (d : Z) : N :=
  if d <? 10 then Z.to_N (48 + d) else Z.to_N (87 + d).

Fixpoint digits_of (radix : Z) (fuel : nat) (n : Z) (acc : jsstring) : jsstring :=
  match fuel with
  | O => acc
  | S fuel' =>
      let acc' := digit_char (n mod radix) :: acc in
      if n / radix =? 0 then acc' else digits_of radix fuel' (n / radix) acc'
  end.

(** [n.toString(radix)] for an integer [n]: an optional minus sign and the
    digits of [|n|], most significant first. *)
Definition Number_toString (radix : Z) (n : Z) : jsstring :=
  let m := Z.abs n in
  let ds := digits_of radix (S (Z.to_nat (Z.log2 m))) m [] in
  if n <? 0 then 45%N :: ds else ds.

(** ** formatDuration (lines 168-183) *)

(** The argument is [None] when the caller passes [undefined] or [null]. *)
Definition formatDuration (ms : option Z) : jsstring :=
  match ms with
  | None => []
  | Some ms =>
      if ms =? 0 then [] else
      let seconds := Z.rem (ms / 1000) 60 in
      let minutes := Z.rem (ms / (1000 * 60)) 60 in
      let hours := Z.rem (ms / (1000 * 60 * 60)) 24 in
      let days := ms / (1000 * 60 * 60 * 24) in
      let parts := [] in
      let parts := if 0 <? days then push parts (Number_toString 10 days ++ js "d") else parts in
      let parts := if 0 <? hours then push parts (Number_toString 10 hours ++ js "h") else parts in
      let parts := if 0 <? minutes then push parts (Number_toString 10 minutes ++ js "m") else parts in
      let parts := if 0 <? seconds then push parts (Number_toString 10 seconds ++ js "s") else parts in
      Array_join parts (js " ")
  end.

(** The written specification of the formatter: a unit is shown when its
    value is not zero, as the value followed by the unit letter. *)
Definition unit_text (value : Z) (letter : string) : list jsstring :=
  if value =? 0 then [] else [Number_toString 10 value ++ js letter].

Definition formatDuration_spec (d h m s : Z) : jsstring :=
  Array_join (unit_text d "d" ++ unit_text h "h" ++ unit_text m "m" ++ unit_text s "s")
             (js " ").


(** [String.prototype.trim]: the white space and line terminator code
    units of ECMAScript are removed at both ends. *)
Definition is_whitespace (c : N) : bool :=
  existsb (N.eqb c)
          [9; 10; 11; 12; 13; 32; 160; 5760; 8232; 8233; 8239; 8287; 12288; 65279]%N
  || ((8192 <=? c) && (c <=? 8202))%N.

Fixpoint trim_start (s : jsstring) : jsstring :=
  match s with
  | [] => []
  | c :: r => if is_whitespace c then trim_start r else s
  end.

Definition String_trim (s : jsstring) : jsstring :=
  rev (trim_start (rev (trim_start s))).

(** ** Dates as text: [Date.prototype.toISOString] and its reading back *)

(** The [width] lowest digits of [n] in base [radix], zero padded. *)
Fixpoint fixed_digits (radix : Z) (width : nat) (n : Z) (acc : jsstring) : jsstring :=
  match width with
  | O => acc
  | S w => fixed_digits radix w (n / radix) (digit_char (n mod radix) :: acc)
  end.

Definition is_digit (c : N) : bool := ((48 <=? c) && (c <=? 57))%N.

Fixpoint read_digits (width : nat) (s : jsstring) (acc : Z) : option (Z * jsstring) :=
  match width with
  | O => Some (acc, s)
  | S w =>
      match s with
      | c :: r => if is_digit c then read_digits w r (10 * acc + (Z.of_N c - 48)) else None
      | [] => None
      end
  end.

(** Strips [lit] from the front of [s]. *)
Fixpoint expect (lit s : jsstring) : option jsstring :=
  match lit with
  | [] => Some s
  | c :: lit' =>
      match s with
      | c' :: s' => if N.eqb c c' then expect lit' s' else None
      | [] => None
      end
  end.

(** Day number (days since the epoch) to proleptic Gregorian year, month and
    day of the month, through the 400-year era that starts on 1 March. *)
Definition civil_of_era_day (doe : Z) : Z * Z * Z :=
  let yoe := (doe - doe / 1460 + doe / 36524 - doe / 146096) / 365 in
  let doy := doe - (365 * yoe + yoe / 4 - yoe / 100) in
  let mp := (5 * doy + 2) / 153 in
  let d := doy - (153 * mp + 2) / 5 + 1 in
  let m := if mp <? 10 then mp + 3 else mp - 9 in
  (yoe, m, d).

Definition civil_from_days (z : Z) : Z * Z * Z :=
  let z := z + 719468 in
  let era := z / 146097 in
  let doe := z mod 146097 in
  let '(yoe, m, d) := civil_of_era_day doe in
  (yoe + era * 400 + (if m <=? 2 then 1 else 0), m, d).

Definition era_day_of_civil (yoe m d : Z) : Z :=
  let doy := (153 * (if 2 <? m then m - 3 else m + 9) + 2) / 5 + d - 1 in
  yoe * 365 + yoe / 4 - yoe / 100 + doy.

Definition days_from_civil (y m d : Z) : Z :=
  let y := y - (if m <=? 2 then 1 else 0) in
  let era := y / 400 in
  let yoe := y mod 400 in
  era * 146097 + era_day_of_civil yoe m d - 719468.

Definition msPerDay : Z := 86400000.

(** The largest time value of a Date: 100,000,000 days either side of the
    epoch. *)
Definition maxTime : Z := 8640000000000000.

Definition valid_time (t : Z) : Prop := - maxTime <= t <= maxTime.

Definition valid_timeb (t : Z) : bool := (- maxTime <=? t) && (t <=? maxTime).

(** [YYYY-MM-DDTHH:mm:ss.sssZ], the year with a sign and six digits when it
    is outside 0..9999. *)
Definition toISOString (t : Z) : jsstring :=
  let day := t / msPerDay in
  let tod := t mod msPerDay in
  let '(y, m, d) := civil_from_days day in
  let year :=
    if (0 <=? y) && (y <=? 9999) then fixed_digits 10 4 y []
    else (if y <? 0 then 45%N else 43%N) :: fixed_digits 10 6 (Z.abs y) [] in
  year ++ js "-" ++ fixed_digits 10 2 m [] ++ js "-" ++ fixed_digits 10 2 d [] ++ js "T"
       ++ fixed_digits 10 2 (tod / 3600000) [] ++ js ":"
       ++ fixed_digits 10 2 ((tod / 60000) mod 60) [] ++ js ":"
       ++ fixed_digits 10 2 ((tod / 1000) mod 60) [] ++ js "."
       ++ fixed_digits 10 3 (tod mod 1000) [] ++ js "Z".

Definition obind {A B} (o : option A) (f : A -> option B) : option B :=
  match o with
  | Some a => f a
  | None => None
  end.

Notation "x <- o ;; k" := (obind o (fun x => k))
  (at level 61, o at next level, right associativity).
Notation "' p <- o ;; k" := (obind o (fun x => let 'p := x in k))
  (at level 61, p pattern, o at next level, right associativity).

(** The year: four digits, or a sign and six digits. *)
Definition read_year (s : jsstring) : option (Z * jsstring) :=
  match s with
  | c :: r =>
      if (c =? 43)%N then read_digits 6 r 0
      else if (c =? 45)%N then '(y, r') <- read_digits 6 r 0;; Some (- y, r')
      else read_digits 4 s 0
  | [] => None
  end.

(** The time value written by a date-time string, before any validation. *)
Definition read_ISO (s : jsstring) : option Z :=
  '(y, s) <- read_year s;;
  s <- expect (js "-") s;;
  '(m, s) <- read_digits 2 s 0;;
  s <- expect (js "-") s;;
  '(d, s) <- read_digits 2 s 0;;
  s <- expect (js "T") s;;
  '(h, s) <- read_digits 2 s 0;;
  s <- expect (js ":") s;;
  '(mi, s) <- read_digits 2 s 0;;
  s <- expect (js ":") s;;
  '(sec, s) <- read_digits 2 s 0;;
  s <- expect (js ".") s;;
  '(ms, s) <- read_digits 3 s 0;;
  s <- expect (js "Z") s;;
  match s with
  | [] => Some (days_from_civil y m d * msPerDay + h * 3600000 + mi * 60000 + sec * 1000 + ms)
  | _ => None
  end.

(** [new Date(s)] for a string in the form that [toISOString] writes: the
    text must be the canonical text of a time value in range.  [None] for
    every other string: the other date formats that engines accept, and the
    strings that give an invalid Date, are outside this model. *)
Definition Date_parse (s : jsstring) : option Z :=
  match read_ISO s with
  | Some t => if valid_timeb t && jsstring_eqb (toISOString t) s then Some t else None
  | None => None
  end.

Arguments toISOString : simpl never.
Arguments Date_parse : simpl never.

(** ** JSON: [JSON.stringify] and [JSON.parse] *)

#[local] Set Warnings "-register-all".

(** A JSON value.  A number is kept as the text that writes it; the program
    never stores a number in a task. *)
Inductive JSON : Type :=
| JNull
| JBool (b : bool)
| JNumber (lexeme : jsstring)
| JString (s : jsstring)
| JArray (items : list JSON)
| JObject (members : list (jsstring * JSON)).

Definition is_high_surrogate (c : N) : bool := ((55296 <=? c) && (c <=? 56319))%N.
Definition is_low_surrogate (c : N) : bool := ((56320 <=? c) && (c <=? 57343))%N.

Definition unicode_escape (c : N) : jsstring :=
  js "\u" ++ fixed_digits 16 4 (Z.of_N c) [].

Definition escape_unit (c : N) : jsstring :=
  if (c =? 8)%N then js "\b"
  else if (c =? 9)%N then js "\t"
  else if (c =? 10)%N then js "\n"
  else if (c =? 12)%N then js "\f"
  else if (c =? 13)%N then js "\r"
  else if (c =? 34)%N then [92; 34]%N
  else if (c =? 92)%N then [92; 92]%N
  else if (c <? 32)%N then unicode_escape c
  else [c].

(** The inside of a quoted string: control characters, quotes, backslashes
    and unpaired surrogates are escaped, every other unit is itself. *)
Fixpoint quote_units (s : jsstring) : jsstring :=
  match s with
  | [] => []
  | c :: r =>
      if is_high_surrogate c then
        match r with
        | c2 :: r2 =>
            if is_low_surrogate c2 then c :: c2 :: quote_units r2
            else unicode_escape c ++ quote_units r
        | [] => unicode_escape c
        end
      else if is_low_surrogate c then unicode_escape c ++ quote_units r
      else escape_unit c ++ quote_units r
  end.

Definition QuoteJSONString (s : jsstring) : jsstring :=
  34%N :: quote_units s ++ [34%N].

(** The elements of an array or the properties of an object, separated by
    commas, and the closing bracket. *)
Fixpoint join_items {A} (write : A -> jsstring) (close : jsstring) (l : list A) : jsstring :=
  match l with
  | [] => close
  | x :: r =>
      write x ++
      match r with
      | [] => close
      | _ :: _ => js "," ++ join_items write close r
      end
  end.

(** [JSON.stringify] without indentation. *)
Fixpoint JSON_stringify (j : JSON) : jsstring :=
  match j with
  | JNull => js "null"
  | JBool true => js "true"
  | JBool false => js "false"
  | JNumber lexeme => lexeme
  | JString s => QuoteJSONString s
  | JArray items => js "[" ++ join_items JSON_stringify (js "]") items
  | JObject members =>
      js "{" ++
      join_items (fun member => QuoteJSONString (fst member) ++ js ":"
                                ++ JSON_stringify (snd member))
                 (js "}") members
  end.

(** *** Reading *)

Fixpoint skip_ws (s : jsstring) : jsstring :=
  match s with
  | c :: r => if existsb (N.eqb c) [9; 10; 13; 32]%N then skip_ws r else s
  | [] => []
  end.

Definition hex_value (c : N) : option N :=
  if is_digit c then Some (c - 48)%N
  else if ((97 <=? c) && (c <=? 102))%N then Some (c - 87)%N
  else if ((65 <=? c) && (c <=? 70))%N then Some (c - 55)%N
  else None.

Definition hex4 (a b c d : N) : option N :=
  a <- hex_value a;; b <- hex_value b;; c <- hex_value c;; d <- hex_value d;;
  Some (((a * 16 + b) * 16 + c) * 16 + d)%N.

Definition simple_escape (e : N) : option N :=
  if (e =? 34)%N then Some 34%N
  else if (e =? 92)%N then Some 92%N
  else if (e =? 47)%N then Some 47%N
  else if (e =? 98)%N then Some 8%N
  else if (e =? 102)%N then Some 12%N
  else if (e =? 110)%N then Some 10%N
  else if (e =? 114)%N then Some 13%N
  else if (e =? 116)%N then Some 9%N
  else None.

(** The units of a string up to its closing quote, and the text after it. *)
Fixpoint parse_chars (s : jsstring) : option (jsstring * jsstring) :=
  match s with
  | [] => None
  | c :: r =>
      if (c =? 34)%N then Some ([], r)
      else if (c =? 92)%N then
        match r with
        | [] => None
        | e :: r1 =>
            if (e =? 117)%N then
              match r1 with
              | a :: b :: c' :: d :: r2 =>
                  u <- hex4 a b c' d;;
                  '(str, rest) <- parse_chars r2;;
                  Some (u :: str, rest)
              | _ => None
              end
            else
              u <- simple_escape e;;
              '(str, rest) <- parse_chars r1;;
              Some (u :: str, rest)
        end
      else if (c <? 32)%N then None
      else
        '(str, rest) <- parse_chars r;;
        Some (c :: str, rest)
  end.

Fixpoint span_digits (s : jsstring) : jsstring * jsstring :=
  match s with
  | c :: r => if is_digit c then let '(ds, rest) := span_digits r in (c :: ds, rest)
              else ([], s)
  | [] => ([], [])
  end.

(** One or more digits. *)
Definition digits1 (s : jsstring) : option (jsstring * jsstring) :=
  match span_digits s with
  | ([], _) => None
  | (ds, rest) => Some (ds, rest)
  end.

Definition parse_int (s : jsstring) : option (jsstring * jsstring) :=
  match s with
  | c :: r => if (c =? 48)%N then Some ([48%N], r) else digits1 s
  | [] => None
  end.

Definition parse_frac (s : jsstring) : option (jsstring * jsstring) :=
  match s with
  | c :: r =>
      if (c =? 46)%N then '(ds, rest) <- digits1 r;; Some (c :: ds, rest)
      else Some ([], s)
  | [] => Some ([], s)
  end.

Definition parse_exp (s : jsstring) : option (jsstring * jsstring) :=
  match s with
  | c :: r =>
      if ((c =? 101) || (c =? 69))%N then
        match r with
        | sg :: r' =>
            if ((sg =? 43) || (sg =? 45))%N
            then '(ds, rest) <- digits1 r';; Some (c :: sg :: ds, rest)
            else '(ds, rest) <- digits1 r;; Some (c :: ds, rest)
        | [] => None
        end
      else Some ([], s)
  | [] => Some ([], s)
  end.

(** A JSON number: optional minus, integer part, optional fraction and
    exponent. *)
Definition parse_number (s : jsstring) : option (jsstring * jsstring) :=
  let '(sign, s) := match s with
                    | c :: r => if (c =? 45)%N then ([c], r) else ([], s)
                    | [] => ([], s)
                    end in
  '(i, s) <- parse_int s;;
  '(f, s) <- parse_frac s;;
  '(e, s) <- parse_exp s;;
  Some (sign ++ i ++ f ++ e, s).

Fixpoint parse_value (fuel : nat) (s : jsstring) : option (JSON * jsstring) :=
  match fuel with
  | O => None
  | S fuel =>
      match skip_ws s with
      | [] => None
      | c :: r =>
          if (c =? 34)%N then
            '(str, rest) <- parse_chars r;; Some (JString str, rest)
          else if (c =? 91)%N then
            match skip_ws r with
            | c' :: r' =>
                if (c' =? 93)%N then Some (JArray [], r')
                else '(items, rest) <- parse_elements fuel r;; Some (JArray items, rest)
            | [] => None
            end
          else if (c =? 123)%N then
            match skip_ws r with
            | c' :: r' =>
                if (c' =? 125)%N then Some (JObject [], r')
                else '(members, rest) <- parse_members fuel r;; Some (JObject members, rest)
            | [] => None
            end
          else
            match expect (js "null") (c :: r) with
            | Some rest => Some (JNull, rest)
            | None =>
            match expect (js "true") (c :: r) with
            | Some rest => Some (JBool true, rest)
            | None =>
            match expect (js "false") (c :: r) with
            | Some rest => Some (JBool false, rest)
            | None => '(lexeme, rest) <- parse_number (c :: r);; Some (JNumber lexeme, rest)
            end end end
      end
  end

(** The elements of an array after its opening bracket or a comma, up to
    the closing bracket. *)
with parse_elements (fuel : nat) (s : jsstring) : option (list JSON * jsstring) :=
  match fuel with
  | O => None
  | S fuel =>
      '(v, r) <- parse_value fuel s;;
      match skip_ws r with
      | c :: r' =>
          if (c =? 44)%N then
            '(vs, rest) <- parse_elements fuel r';; Some (v :: vs, rest)
          else if (c =? 93)%N then Some ([v], r')
          else None
      | [] => None
      end
  end

(** The members of an object after its opening brace or a comma, up to the
    closing brace. *)
with parse_members (fuel : nat) (s : jsstring) : option (list (jsstring * JSON) * jsstring) :=
  match fuel with
  | O => None
  | S fuel =>
      match skip_ws s with
      | q :: r0 =>
          if (q =? 34)%N then
            '(k, r) <- parse_chars r0;;
            match skip_ws r with
            | colon :: r1 =>
                if (colon =? 58)%N then
                  '(v, r2) <- parse_value fuel r1;;
                  match skip_ws r2 with
                  | c :: r' =>
                      if (c =? 44)%N then
                        '(ms, rest) <- parse_members fuel r';; Some ((k, v) :: ms, rest)
                      else if (c =? 125)%N then Some ([(k, v)], r')
                      else None
                  | [] => None
                  end
                else None
            | [] => None
            end
          else None
      | [] => None
      end
  end.

(** [JSON.parse]: [None] is a SyntaxError. *)
Definition JSON_parse (s : jsstring) : option JSON :=
  match parse_value (2 * List.length s + 2)%nat s with
  | Some (v, rest) =>
      match skip_ws rest with
      | [] => Some v
      | _ :: _ => None
      end
  | None => None
  end.

(** Reading a property of a parsed value, for a name that no prototype
    defines: the last member of that name of an object, [undefined] ([None])
    on every other value.  (Reading a property of [null] throws; the caller
    tests for it.) *)
Fixpoint lookup_last (key : jsstring) (members : list (jsstring * JSON)) : option JSON :=
  match members with
  | [] => None
  | (k, v) :: r =>
      match lookup_last key r with
      | Some v' => Some v'
      | None => if jsstring_eqb k key then Some v else None
      end
  end.

Definition get_property (v : JSON) (key : jsstring) : option JSON :=
  match v with
  | JObject members => lookup_last key members
  | _ => None
  end.

(** ** Arrays *)

(** [Array.prototype.sort] with a comparison function: a stable sort, which
    leaves [a] before [b] unless [compareFn a b] is positive.  The result of
    a stable sort is the same for every algorithm when the comparison is
    consistent, as a difference of time values is; insertion is the simplest
    one. *)
Fixpoint sort_insert {A} (compareFn : A -> A -> Z) (a : A) (sorted : list A) : list A :=
  match sorted with
  | [] => [a]
  | b :: rest =>
      if 0 <? compareFn a b then b :: sort_insert compareFn a rest
      else a :: sorted
  end.

Definition Array_sort {A} (compareFn : A -> A -> Z) (arr : list A) : list A :=
  fold_right (sort_insert compareFn) [] arr.

(** [Array.prototype.reduce] without an initial value, on a non-empty array
    ([None] on an empty one, where the program never calls it). *)
Definition Array_reduce {A} (callback : A -> A -> A) (arr : list A) : option A :=
  match arr with
  | [] => None
  | first :: rest => Some (fold_left callback rest first)
  end.

(** [String.prototype.substr(start)]. *)
Definition substr (start : nat) (s : jsstring) : jsstring := skipn start s.

(** ** The Task class (lines 2-15) *)

Record Task : Type := {
  id : jsstring;
  text : jsstring;
  completed : bool;
  createdAt : Z;
  completedAt : option Z
}.

(** What one run of the constructor reads from the environment: the value
    of [new Date()] for the default of [createdAt], the value of
    [Date.now()], and the text of [Math.random().toString(36)]. *)
Record Entropy : Type := {
  new_Date : Z;
  Date_now : Z;
  Math_random : jsstring
}.

(** The id of line 4:
    [Date.now().toString(36) + Math.random().toString(36).substr(2)]. *)
Definition new_id (e : Entropy) : jsstring :=
  Number_toString 36 (Date_now e) ++ substr 2 (Math_random e).

(** [new Task(text, completed = false, createdAt = new Date(), completedAt
    = null)]; an argument is [None] when it is left out or [undefined]
    ([null] too for [completedAt], whose default is [null]). *)
Definition Task_new (e : Entropy) (text : jsstring) (completed : option bool)
           (createdAt : option Z) (completedAt : option Z) : Task :=
  {| id := new_id e;
     text := text;
     completed := match completed with Some b => b | None => false end;
     createdAt := match createdAt with Some d => d | None => new_Date e end;
     completedAt := completedAt |}.

Definition is_some {A} (o : option A) : bool :=
  match o with Some _ => true | None => false end.

Definition getCompletionTime (t : Task) : option Z :=
  if negb (completed t) || negb (is_some (completedAt t)) then None
  else option_map (fun done => done - createdAt t) (completedAt t).

(** The object that [JSON.stringify] sees for a task: its own properties in
    the order of their creation, a Date through [toJSON]. *)
Definition Task_toJSON (t : Task) : JSON :=
  JObject [ (js "id", JString (id t));
            (js "text", JString (text t));
            (js "completed", JBool (completed t));
            (js "createdAt", JString (toISOString (createdAt t)));
            (js "completedAt", match completedAt t with
                               | Some d => JString (toISOString d)
                               | None => JNull
                               end) ].

(** ** The page: local storage and the elements the manager writes *)

(** The only key of [localStorage] that the program uses is ['tasks'];
    [setItem_calls] counts the writes. *)
Record Storage : Type := {
  item_tasks : option jsstring;
  setItem_calls : nat
}.

Definition getItem (st : Storage) : option jsstring := item_tasks st.

Definition setItem (value : jsstring) (st : Storage) : Storage :=
  {| item_tasks := Some value; setItem_calls := S (setItem_calls st) |}.

(** One [li] of the task list: the state of its checkbox, its text, and the
    id that its listeners pass to the manager.  (The time line of an item
    is written with [toLocaleString], which depends on the locale, and is
    left out.) *)
Record TaskItem : Type := {
  checkbox_checked : bool;
  taskText_textContent : jsstring;
  listeners_taskId : jsstring
}.

(** ** The TaskManager class (lines 18-222) *)

Record TaskManager : Type := {
  tasks : list Task;
  currentFilter : jsstring;
  taskInput : jsstring;
  taskList : list TaskItem;
  fastestTaskInfo : jsstring;
  localStorage : Storage
}.

Definition set_tasks (v : list Task) (m : TaskManager) : TaskManager :=
  {| tasks := v; currentFilter := currentFilter m; taskInput := taskInput m;
     taskList := taskList m; fastestTaskInfo := fastestTaskInfo m;
     localStorage := localStorage m |}.

Definition set_currentFilter (v : jsstring) (m : TaskManager) : TaskManager :=
  {| tasks := tasks m; currentFilter := v; taskInput := taskInput m;
     taskList := taskList m; fastestTaskInfo := fastestTaskInfo m;
     localStorage := localStorage m |}.

Definition set_taskInput (v : jsstring) (m : TaskManager) : TaskManager :=
  {| tasks := tasks m; currentFilter := currentFilter m; taskInput := v;
     taskList := taskList m; fastestTaskInfo := fastestTaskInfo m;
     localStorage := localStorage m |}.

Definition set_taskList (v : list TaskItem) (m : TaskManager) : TaskManager :=
  {| tasks := tasks m; currentFilter := currentFilter m; taskInput := taskInput m;
     taskList := v; fastestTaskInfo := fastestTaskInfo m;
     localStorage := localStorage m |}.

Definition set_fastestTaskInfo (v : jsstring) (m : TaskManager) : TaskManager :=
  {| tasks := tasks m; currentFilter := currentFilter m; taskInput := taskInput m;
     taskList := taskList m; fastestTaskInfo := v;
     localStorage := localStorage m |}.

Definition set_localStorage (v : Storage) (m : TaskManager) : TaskManager :=
  {| tasks := tasks m; currentFilter := currentFilter m; taskInput := taskInput m;
     taskList := taskList m; fastestTaskInfo := fastestTaskInfo m;
     localStorage := v |}.

(** saveTasks (lines 203-205) *)
Definition saveTasks (m : TaskManager) : TaskManager :=
  set_localStorage
    (setItem (JSON_stringify (JArray (map Task_toJSON (tasks m)))) (localStorage m)) m.

(** renderTasks (lines 102-152): the tasks to show, lines 105-119. *)
Definition tasksToShow (m : TaskManager) : list Task :=
  let tasksToShow :=
    if jsstring_eqb (currentFilter m) (js "completed")
    then filter (fun task => completed task) (tasks m)
    else if jsstring_eqb (currentFilter m) (js "pending")
    then filter (fun task => negb (completed task)) (tasks m)
    else tasks m in
  Array_sort (fun a b => createdAt b - createdAt a) tasksToShow.

Definition renderTasks (m : TaskManager) : TaskManager :=
  set_taskList
    (map (fun task => {| checkbox_checked := completed task;
                         taskText_textContent := text task;
                         listeners_taskId := id task |})
         (tasksToShow m)) m.

(** The comparison [a < b] of two results of [getCompletionTime]; [null] is
    the number 0 there. *)
Definition completionTime_lt (a b : option Z) : bool :=
  match a, b with
  | Some x, Some y => x <? y
  | Some x, None => x <? 0
  | None, Some y => 0 <? y
  | None, None => false
  end.

(** updateFastestTaskInfo (lines 186-200): the task that the message names,
    lines 187-196. *)
Definition fastestTask (ts : list Task) : option Task :=
  let completedTasks :=
    filter (fun task => completed task && is_some (getCompletionTime task)) ts in
  if (List.length completedTasks =? 0)%nat then None
  else Array_reduce
         (fun prev current =>
            if completionTime_lt (getCompletionTime prev) (getCompletionTime current)
            then prev else current)
         completedTasks.

Definition updateFastestTaskInfo (m : TaskManager) : TaskManager :=
  match fastestTask (tasks m) with
  | None =>
      set_fastestTaskInfo (js "No hay tareas completadas a" ++ [250%N] ++ js "n.") m
  | Some fastestTask =>
      let duration := formatDuration (getCompletionTime fastestTask) in
      set_fastestTaskInfo
        (js "Tarea m" ++ [225%N] ++ js "s r" ++ [225%N] ++ js "pida completada: "
            ++ [34%N] ++ text fastestTask ++ [34%N] ++ js " en " ++ duration) m
  end.

(** addTask (lines 50-60) *)
Definition addTask (e : Entropy) (m : TaskManager) : TaskManager :=
  let text := String_trim (taskInput m) in
  if jsstring_eqb text [] then m
  else
    let newTask := Task_new e text None None None in
    let m := set_tasks (push (tasks m) newTask) m in
    let m := set_taskInput [] m in
    let m := saveTasks m in
    renderTasks m.

(** The array after the completion of the first task of that id is
    flipped in place; [now] is the value of [new Date()]. *)
Fixpoint toggle_found (now : Z) (taskId : jsstring) (ts : list Task) : list Task :=
  match ts with
  | [] => []
  | task :: rest =>
      if jsstring_eqb (id task) taskId then
        let completed' := negb (completed task) in
        {| id := id task; text := text task; completed := completed';
           createdAt := createdAt task;
           completedAt := if completed' then Some now else None |} :: rest
      else task :: toggle_found now taskId rest
  end.

(** toggleTaskCompletion (lines 63-73) *)
Definition toggleTaskCompletion (now : Z) (taskId : jsstring) (m : TaskManager)
  : TaskManager :=
  match find (fun t => jsstring_eqb (id t) taskId) (tasks m) with
  | None => m
  | Some _ =>
      let m := set_tasks (toggle_found now taskId (tasks m)) m in
      let m := saveTasks m in
      let m := renderTasks m in
      updateFastestTaskInfo m
  end.

(** deleteTask (lines 76-81) *)
Definition deleteTask (taskId : jsstring) (m : TaskManager) : TaskManager :=
  let m := set_tasks (filter (fun task => negb (jsstring_eqb (id task) taskId)) (tasks m)) m in
  let m := saveTasks m in
  let m := renderTasks m in
  updateFastestTaskInfo m.

(** clearCompletedTasks (lines 84-88) *)
Definition clearCompletedTasks (m : TaskManager) : TaskManager :=
  let m := set_tasks (filter (fun task => negb (completed task)) (tasks m)) m in
  let m := saveTasks m in
  renderTasks m.

(** filterTasks (lines 91-99); the class of the filter buttons is not part
    of the model. *)
Definition filterTasks (filter : jsstring) (m : TaskManager) : TaskManager :=
  let m := set_currentFilter filter m in
  renderTasks m.

(** *** Loading *)

Inductive Exception : Type := SyntaxError | TypeError.

(** The result of a call: a normal return, an exception that reaches the
    caller, or [OutOfModel] when the call depends on a part of JavaScript
    that this model does not describe (a record of the snapshot whose
    fields are not of the types that [saveTasks] writes). *)
Inductive Outcome (A : Type) : Type :=
| Normal (a : A)
| Throw (e : Exception)
| OutOfModel.

Arguments Normal {A} a.
Arguments Throw {A} e.
Arguments OutOfModel {A}.

Definition bind {A B} (o : Outcome A) (f : A -> Outcome B) : Outcome B :=
  match o with
  | Normal a => f a
  | Throw e => Throw e
  | OutOfModel => OutOfModel
  end.

(** The arguments that the callback of lines 212-219 passes to the
    constructor, from the properties of one parsed record.  [None] outside
    the model. *)
Definition arg_text (v : option JSON) : option jsstring :=
  match v with
  | Some (JString s) => Some s
  | _ => None
  end.

Definition arg_completed (v : option JSON) : option (option bool) :=
  match v with
  | None => Some None
  | Some (JBool b) => Some (Some b)
  | _ => None
  end.

(** [new Date(task.createdAt)] *)
Definition arg_createdAt (v : option JSON) : option Z :=
  match v with
  | Some (JString s) => Date_parse s
  | _ => None
  end.

(** [task.completedAt ? new Date(task.completedAt) : null] *)
Definition arg_completedAt (v : option JSON) : option (option Z) :=
  match v with
  | None => Some None
  | Some JNull => Some None
  | Some (JBool false) => Some None
  | Some (JString s) =>
      match s with
      | [] => Some None
      | _ :: _ => match Date_parse s with
                  | Some d => Some (Some d)
                  | None => None
                  end
      end
  | _ => None
  end.

Definition load_record (e : Entropy) (task : JSON) : Outcome Task :=
  match task with
  | JNull => Throw TypeError
  | _ =>
      match arg_text (get_property task (js "text")),
            arg_completed (get_property task (js "completed")),
            arg_createdAt (get_property task (js "createdAt")),
            arg_completedAt (get_property task (js "completedAt")) with
      | Some text, Some completed, Some createdAt, Some completedAt =>
          Normal (Task_new e text completed (Some createdAt) completedAt)
      | _, _, _, _ => OutOfModel
      end
  end.

(** [parsedTasks.map(...)]: the records in order, the constructor for the
    record of index [i] reading [env i]. *)
Fixpoint load_records (env : nat -> Entropy) (i : nat) (records : list JSON)
  : Outcome (list Task) :=
  match records with
  | [] => Normal []
  | task :: rest =>
      bind (load_record (env i) task) (fun t =>
      bind (load_records env (S i) rest) (fun ts =>
      Normal (t :: ts)))
  end.

(** loadTasks (lines 208-221) *)
Definition loadTasks (env : nat -> Entropy) (m : TaskManager) : Outcome TaskManager :=
  match getItem (localStorage m) with
  | None => Normal m
  | Some savedTasks =>
      match savedTasks with
      | [] => Normal m
      | _ :: _ =>
          match JSON_parse savedTasks with
          | None => Throw SyntaxError
          | Some (JArray parsedTasks) =>
              bind (load_records env 0 parsedTasks) (fun ts =>
              Normal (set_tasks ts m))
          | Some _ => Throw TypeError
          end
      end
  end.

(** *** Loading any text *)

(** What [saveTasks] did not write is loaded without a test.  The fields of
    the tasks made from such records are not described here, but whether
    the call returns is: the one thing that can throw after [JSON.parse],
    besides reading a property of [null], is the conversion of an object to
    a primitive value inside [new Date(value)]. *)

(** [ToPrimitive] on a parsed value, and the [ToString] that joins the
    elements of an array: whether it throws.  A parsed object has no
    callable property of its own, so the conversion throws exactly when a
    property [toString] of its own hides [Object.prototype.toString]; an
    array is joined, and throws when one of its elements does. *)
Fixpoint ToPrimitive_throws (v : JSON) : bool :=
  match v with
  | JObject members => is_some (lookup_last (js "toString") members)
  | JArray items => existsb ToPrimitive_throws items
  | _ => false
  end.

(** [new Date(value)] for a property of a record ([None] is [undefined]):
    whether it throws. *)
Definition Date_throws (value : option JSON) : bool :=
  match value with
  | Some v => ToPrimitive_throws v
  | None => false
  end.

(** Whether the callback of lines 212-219 returns for a record.  The value
    of [task.completedAt] reaches [new Date] when it is truthy, as every
    object and array is. *)
Definition record_loads (task : JSON) : bool :=
  match task with
  | JNull => false
  | _ => negb (Date_throws (get_property task (js "createdAt")))
         && negb (Date_throws (get_property task (js "completedAt")))
  end.

(** How a call of [loadTasks] ends: it returns without an assignment, or
    it returns after it has assigned [n] new tasks to [this.tasks], or an
    exception leaves it, with the manager as [this] holds it then. *)
Inductive Ending : Type :=
| Unchanged
| Replaced (n : nat)
| Thrown (e : Exception) (this : TaskManager).

(** loadTasks (lines 208-221), for every text in local storage.  The
    assignment of line 212 comes after [map] has returned. *)
Definition loadTasks_any (m : TaskManager) : Ending :=
  match getItem (localStorage m) with
  | None => Unchanged
  | Some savedTasks =>
      match savedTasks with
      | [] => Unchanged
      | _ :: _ =>
          match JSON_parse savedTasks with
          | None => Thrown SyntaxError m
          | Some (JArray parsedTasks) =>
              if forallb record_loads parsedTasks
              then Replaced (List.length parsedTasks)
              else Thrown TypeError m
          | Some _ => Thrown TypeError m
          end
      end
  end.

(** The constructor (lines 19-47) on a page whose input field is empty. *)
Definition TaskManager_new (env : nat -> Entropy) (storage : Storage)
  : Outcome TaskManager :=
  let m := {| tasks := []; currentFilter := js "all"; taskInput := [];
              taskList := []; fastestTaskInfo := []; localStorage := storage |} in
  bind (loadTasks env m) (fun m =>
  let m := renderTasks m in
  Normal (updateFastestTaskInfo m)).

(** ** Runs of the program *)

(** What can happen to a manager: the user edits the input field, or one of
    the methods is called, or the page is loaded again, which constructs a
    new manager on the same storage. *)
Inductive Action : Type :=
| EditInput (value : jsstring)
| AddTask (e : Entropy)
| ToggleTaskCompletion (now : Z) (taskId : jsstring)
| DeleteTask (taskId : jsstring)
| ClearCompletedTasks
| FilterTasks (filter : jsstring)
| SaveTasks
| LoadTasks (env : nat -> Entropy)
| Reload (env : nat -> Entropy).

Definition perform (a : Action) (m : TaskManager) : Outcome TaskManager :=
  match a with
  | EditInput value => Normal (set_taskInput value m)
  | AddTask e => Normal (addTask e m)
  | ToggleTaskCompletion now taskId => Normal (toggleTaskCompletion now taskId m)
  | DeleteTask taskId => Normal (deleteTask taskId m)
  | ClearCompletedTasks => Normal (clearCompletedTasks m)
  | FilterTasks filter => Normal (filterTasks filter m)
  | SaveTasks => Normal (saveTasks m)
  | LoadTasks env => loadTasks env m
  | Reload env => TaskManager_new env (localStorage m)
  end.

Fixpoint run (actions : list Action) (m : TaskManager) : Outcome TaskManager :=
  match actions with
  | [] => Normal m
  | a :: rest => bind (perform a m) (run rest)
  end.

(** The empty store: no task, nothing in local storage. *)
Definition empty_store : TaskManager :=
  {| tasks := []; currentFilter := js "all"; taskInput := [];
     taskList := []; fastestTaskInfo := [];
     localStorage := {| item_tasks := None; setItem_calls := 0 |} |}.

(** The clock gives time values that a Date can hold. *)
Definition clock_ok (a : Action) : Prop :=
  match a with
  | AddTask e => valid_time (new_Date e)
  | ToggleTaskCompletion now _ => valid_time now
  | _ => True
  end.

Definition reachable (m : TaskManager) : Prop :=
  exists actions, Forall clock_ok actions /\ run actions empty_store = Normal m.

(** ** Definitions for the statements *)

(** The filters: [completed] keeps the completed tasks, [pending] the
    others, [all] (and every other name) keeps every task. *)
Definition matches_filter (filter : jsstring) (t : Task) : bool :=
  if jsstring_eqb filter (js "completed") then completed t
  else if jsstring_eqb filter (js "pending") then negb (completed t)
  else true.

(** The completion time as a number ([null] is 0), and the callback of
    the reduction of lines 194-196. *)
Definition time_value (t : Task) : Z :=
  match getCompletionTime t with
  | Some d => d
  | None => 0
  end.

Definition keep_faster (prev current : Task) : Task :=
  if completionTime_lt (getCompletionTime prev) (getCompletionTime current)
  then prev else current.

(** ** Measures on JSON values *)

(** No number anywhere in the value. *)
Fixpoint number_free (j : JSON) : bool :=
  match j with
  | JNumber _ => false
  | JArray items => forallb number_free items
  | JObject members => forallb (fun member => number_free (snd member)) members
  | _ => true
  end.

(** The fuel that reading the value takes. *)
Fixpoint json_size (j : JSON) : nat :=
  match j with
  | JArray items => S (list_sum (map (fun x => S (json_size x)) items))
  | JObject members =>
      S (list_sum (map (fun member => S (json_size (snd member))) members))
  | _ => 1
  end.

(** The first character of a value that is not a number. *)
Definition value_start (c : N) : bool :=
  existsb (N.eqb c) [34; 91; 123; 110; 116; 102]%N.

(** What reading back a value means: with enough fuel the parser returns
    the value and the text that follows it. *)
Definition read_back (j : JSON) : Prop :=
  forall fuel rest,
    (json_size j <= fuel)%nat ->
    parse_value fuel (JSON_stringify j ++ rest) = Some (j, rest).

(** ** Properties of tasks and stores *)

(** The dates of a task are time values that a Date can hold. *)
Definition valid_dates (t : Task) : Prop :=
  valid_time (createdAt t) /\ forall d, completedAt t = Some d -> valid_time d.

(** The data model's link between the completion flag and the completion
    date. *)
Definition consistent (t : Task) : Prop :=
  is_some (completedAt t) = completed t.

(** A task after it is saved and loaded: the constructor runs again, on the
    saved text, flag and dates. *)
Definition reloaded (e : Entropy) (t : Task) : Task :=
  Task_new e (text t) (Some (completed t)) (Some (createdAt t)) (completedAt t).

Fixpoint reload (env : nat -> Entropy) (i : nat) (ts : list Task) : list Task :=
  match ts with
  | [] => []
  | t :: rest => reloaded (env i) t :: reload env (S i) rest
  end.

(** Two tasks with the same text, flag and dates. *)
Definition same_fields (t t' : Task) : Prop :=
  text t' = text t /\ completed t' = completed t /\
  createdAt t' = createdAt t /\ completedAt t' = completedAt t.

(** A task of the data model: flag and date agree, dates are valid. *)
Definition task_ok (t : Task) : Prop := consistent t /\ valid_dates t.

(** What local storage holds is nothing, or the text of tasks of the data
    model. *)
Definition stored_ok (st : Storage) : Prop :=
  item_tasks st = None \/
  exists ts, item_tasks st = Some (JSON_stringify (JArray (map Task_toJSON ts))) /\
             Forall task_ok ts.

Definition store_ok (m : TaskManager) : Prop :=
  Forall task_ok (tasks m) /\ stored_ok (localStorage m).

(** *** Fresh ids *)

(** The number of records that [loadTasks] would construct. *)
Definition stored_count (m : TaskManager) : nat :=
  match getItem (localStorage m) with
  | Some (c :: s) =>
      match JSON_parse (c :: s) with
      | Some (JArray records) => List.length records
      | _ => O
      end
  | _ => O
  end.

(** What the id of line 4 is made from: the value of [Date.now()], and the
    text of [Math.random().toString(36)] after its first two characters. *)
Definition id_readings (e : Entropy) : Z * jsstring :=
  (Date_now e, substr 2 (Math_random e)).

(** [Date.now()] has eight digits in base 36: from 1972-06-25 to
    2059-05-25. *)
Definition eight_digits (e : Entropy) : Prop :=
  36 ^ 7 <= Date_now e < 36 ^ 8.

(** The readings of the constructor calls that an action makes when it
    returns: one for an [addTask] whose input is not blank, one for each
    record of the snapshot for a load. *)
Definition constructed (a : Action) (m : TaskManager) : list Entropy :=
  match a with
  | AddTask e => if jsstring_eqb (String_trim (taskInput m)) [] then [] else [e]
  | LoadTasks env | Reload env => map env (seq 0 (stored_count m))
  | _ => []
  end.

(** The readings of the constructor calls of a run, in order. *)
Fixpoint constructions (actions : list Action) (m : TaskManager) : list Entropy :=
  match actions with
  | [] => []
  | a :: rest =>
      constructed a m ++
      match perform a m with
      | Normal m' => constructions rest m'
      | _ => []
      end
  end.

(** ** Sample data for the examples *)

Definition morning : Entropy :=
  {| new_Date := 1793529296789; Date_now := 1793529296790;
     Math_random := js "0.4fzyo82mvyr" |}.

Definition evening : Entropy :=
  {| new_Date := 1793572496789; Date_now := 1793572496789;
     Math_random := js "0.9k2h1xq7c3" |}.

(** The store after the user has added one task in the morning. *)
Definition milk_store : TaskManager :=
  addTask morning (set_taskInput (js "  buy milk ") empty_store).

(** The empty manager on a storage that holds the text [savedTasks]. *)
Definition store_with (savedTasks : jsstring) : TaskManager :=
  set_localStorage (setItem savedTasks (localStorage empty_store)) empty_store.

(** A snapshot whose write was cut short after 40 characters. *)
Definition truncated_snapshot : jsstring :=
  firstn 40 (JSON_stringify (JArray (map Task_toJSON (tasks milk_store)))).

(** The morning's task, completed a few seconds later. *)
Definition milk_done : TaskManager :=
  toggleTaskCompletion 1793529300000 (js "mvxp1ac64fzyo82mvyr") milk_store.

Definition noon : Entropy :=
  {| new_Date := 1793536496789; Date_now := 1793536496789;
     Math_random := js "0.k3v9q2" |}.

(** The readings of a later load: one millisecond per constructed task. *)
Definition next_day (i : nat) : Entropy :=
  {| new_Date := 1793615696789; Date_now := 1793615696789 + Z.of_nat i;
     Math_random := js "0.7d1c" |}.

Definition result_of (o : Outcome TaskManager) : TaskManager :=
  match o with
  | Normal m => m
  | _ => empty_store
  end.

(** Two tasks, each completed five seconds after it was created. *)
Definition tie_actions : list Action :=
  [ EditInput (js "buy milk"); AddTask morning;
    ToggleTaskCompletion 1793529301789 (js "mvxp1ac64fzyo82mvyr");
    EditInput (js "call mum"); AddTask noon;
    ToggleTaskCompletion 1793536501789 (js "mvxtblw5k3v9q2") ].

Definition tie_store : TaskManager := result_of (run tie_actions empty_store).

(** Two tasks added within one millisecond, with the same random number. *)
Definition twin_actions : list Action :=
  [ EditInput (js "buy milk"); AddTask morning;
    EditInput (js "call mum"); AddTask morning ].

(** Two tasks added, saved, and loaded the next day. *)
Definition two_day_actions : list Action :=
  [ EditInput (js "buy milk"); AddTask morning;
    EditInput (js "call mum"); AddTask noon;
    Reload next_day ].

(** ** Definitions for the further properties *)

(** No white space at either end. *)
Definition no_edge_space (s : jsstring) : Prop :=
  (forall c r, s = c :: r -> is_whitespace c = false) /\
  (forall c r, s = r ++ [c] -> is_whitespace c = false).

(** The text of a task as [addTask] stores it. *)
Definition text_ok (t : Task) : Prop := text t <> [] /\ no_edge_space (text t).

(** The task of lines 67-68: the flag flipped, the date set or removed. *)
Definition toggled (now : Z) (task : Task) : Task :=
  {| id := id task; text := text task; completed := negb (completed task);
     createdAt := createdAt task;
     completedAt := if negb (completed task) then Some now else None |}.

(** The item that [renderTasks] makes for a task (lines 121-151). *)
Definition TaskItem_of (task : Task) : TaskItem :=
  {| checkbox_checked := completed task;
     taskText_textContent := text task;
     listeners_taskId := id task |}.

(** The page shows the store. *)
Definition rendered (m : TaskManager) : Prop :=
  taskList m = map TaskItem_of (tasksToShow m).

(** Every action but a call of [loadTasks] outside the constructor, which
    the page never makes. *)
Definition from_page (a : Action) : Prop :=
  match a with
  | LoadTasks _ => False
  | _ => True
  end.

(** Local storage holds the tasks of the store, up to their ids. *)
Definition agrees (m : TaskManager) : Prop :=
  (item_tasks (localStorage m) = None /\ tasks m = []) \/
  exists ts,
    item_tasks (localStorage m) = Some (JSON_stringify (JArray (map Task_toJSON ts))) /\
    Forall2 same_fields ts (tasks m).

(** Local storage holds exactly the tasks of the store. *)
Definition saved (m : TaskManager) : Prop :=
  item_tasks (localStorage m)
  = Some (JSON_stringify (JArray (map Task_toJSON (tasks m)))).

(** The dates of a task are in order and not after the reading [clock]. *)
Definition dates_in_order (clock : Z) (t : Task) : Prop :=
  createdAt t <= clock /\
  forall d, completedAt t = Some d -> createdAt t <= d <= clock.

(** The last reading of the clock after an action.  (An [addTask] on a
    blank input reads no clock; its reading counts all the same.) *)
Definition reading (clock : Z) (a : Action) : Z :=
  match a with
  | AddTask e => new_Date e
  | ToggleTaskCompletion now _ => now
  | _ => clock
  end.

(** Every action of a run meets [guard] at the reading before it. *)
Fixpoint along (guard : Z -> Action -> Prop) (clock : Z) (actions : list Action) : Prop :=
  match actions with
  | [] => True
  | a :: rest => guard clock a /\ along guard (reading clock a) rest
  end.

(** The readings of the clock along a run never go back. *)
Definition not_before (clock : Z) (a : Action) : Prop := clock <= reading clock a.

Definition clock_in_order (clock : Z) (actions : list Action) : Prop :=
  along not_before clock actions.

(** The last reading of a run. *)
Definition last_reading (clock : Z) (actions : list Action) : Z :=
  fold_left reading actions clock.

(** The two lines that [updateFastestTaskInfo] writes. *)
Definition no_completed_line : jsstring :=
  js "No hay tareas completadas a" ++ [250%N] ++ js "n.".

Definition fastest_line (text duration : jsstring) : jsstring :=
  js "Tarea m" ++ [225%N] ++ js "s r" ++ [225%N] ++ js "pida completada: "
     ++ [34%N] ++ text ++ [34%N] ++ js " en " ++ duration.

(** The line that [updateFastestTaskInfo] writes for a list of tasks. *)
Definition line_of (ts : list Task) : jsstring :=
  match fastestTask ts with
  | None => no_completed_line
  | Some t => fastest_line (text t) (formatDuration (getCompletionTime t))
  end.

(** The line about the fastest task is the line of the store. *)
Definition line_up_to_date (m : TaskManager) : Prop :=
  fastestTaskInfo m = line_of (tasks m).

(** The actions of the page other than the button that clears the completed
    tasks. *)
Definition keeps_line (a : Action) : Prop :=
  match a with
  | LoadTasks _ | ClearCompletedTasks => False
  | _ => True
  end.

(** The task that [milk_store] holds. *)
Definition milk_task : Task :=
  {| id := js "mvxp1ac64fzyo82mvyr"; text := js "buy milk"; completed := false;
     createdAt := 1793529296789; completedAt := None |}.

(** The clock moves on before every [addTask], and never goes back. *)
Definition after_last_reading (clock : Z) (a : Action) : Prop :=
  match a with
  | AddTask e => clock < new_Date e
  | _ => clock <= reading clock a
  end.

(** Every task was created before the tasks that follow it. *)
Definition ascending (ts : list Task) : Prop :=
  StronglySorted Z.lt (map createdAt ts).

(** A snapshot with a [null] among its records. *)
Definition null_snapshot (ts : list Task) (rest : list JSON) : jsstring :=
  JSON_stringify (JArray (map Task_toJSON ts ++ JNull :: rest)).

(** A manager on a storage whose snapshot has a [null] after the task of
    [milk_done]. *)
Definition null_store : TaskManager :=
  {| tasks := []; currentFilter := js "all"; taskInput := [];
     taskList := []; fastestTaskInfo := [];
     localStorage := {| item_tasks := Some (null_snapshot (tasks milk_done) [JBool true]);
                        setItem_calls := 1 |} |}.

(** * Strings *)

Lemma jsstring_eqb_eq (a b : jsstring) : jsstring_eqb a b = true <-> a = b.
Proof.
  revert b. induction a as [|x a IH]; intros [|y b]; simpl; split;
    try congruence; try discriminate.
  - intros H. apply andb_prop in H. destruct H as [Hx Ha].
    apply N.eqb_eq in Hx. apply IH in Ha. congruence.
  - intros H. injection H as -> ->. rewrite N.eqb_refl. apply IH. reflexivity.
Qed.

Lemma jsstring_eqb_refl (a : jsstring) : jsstring_eqb a a = true.
Proof. apply jsstring_eqb_eq. reflexivity. Qed.

Lemma jsstring_eqb_neq (a b : jsstring) : jsstring_eqb a b = false <-> a <> b.
Proof.
  pose proof (jsstring_eqb_eq a b) as H.
  destruct (jsstring_eqb a b); split; intros H1; try congruence.
  - destruct H as [H _]. specialize (H eq_refl). congruence.
  - intros Heq. apply H in Heq. discriminate.
Qed.

Example String_trim_spaces : String_trim (js "  buy milk ") = js "buy milk".
Proof. reflexivity. Qed.

Example String_trim_blank : String_trim ([9; 32; 160; 8195; 10]%N) = [].
Proof. reflexivity. Qed.

Example Number_toString_36 : Number_toString 36 1793529296790 = js "mvxp1ac6".
Proof. reflexivity. Qed.


(** * The duration formatter *)

Example formatDuration_2d3h5m :
  formatDuration (Some (2 * 86400000 + 3 * 3600000 + 5 * 60000)) = js "2d 3h 5m".
Proof. reflexivity. Qed.

Example formatDuration_negative : formatDuration (Some (-5000)) = [].
Proof. reflexivity. Qed.

Lemma formatDuration_unfold (ms : Z) (H : 0 <= ms) :
  formatDuration (Some ms) =
  formatDuration_spec (ms / 86400000) ((ms / 3600000) mod 24)
                      ((ms / 60000) mod 60) ((ms / 1000) mod 60).
Proof.
  unfold formatDuration, formatDuration_spec, unit_text, push.
  change (1000 * 60 * 60 * 24) with 86400000.
  change (1000 * 60 * 60) with 3600000.
  change (1000 * 60) with 60000.
  pose proof (Z.div_pos ms 86400000 H ltac:(lia)) as Hd.
  pose proof (Z.div_pos ms 3600000 H ltac:(lia)) as Hh.
  pose proof (Z.div_pos ms 60000 H ltac:(lia)) as Hm.
  pose proof (Z.div_pos ms 1000 H ltac:(lia)) as Hs.
  rewrite !Z.rem_mod_nonneg by lia.
  pose proof (Z.mod_pos_bound (ms / 3600000) 24 ltac:(lia)) as Bh.
  pose proof (Z.mod_pos_bound (ms / 60000) 60 ltac:(lia)) as Bm.
  pose proof (Z.mod_pos_bound (ms / 1000) 60 ltac:(lia)) as Bs.
  destruct (Z.eqb_spec ms 0) as [->|Hnz]; [reflexivity|].
  set (d := ms / 86400000) in *.
  set (h := (ms / 3600000) mod 24) in *.
  set (m := (ms / 60000) mod 60) in *.
  set (s := (ms / 1000) mod 60) in *.
  destruct (Z.ltb_spec 0 d), (Z.eqb_spec d 0); try lia;
  destruct (Z.ltb_spec 0 h), (Z.eqb_spec h 0); try lia;
  destruct (Z.ltb_spec 0 m), (Z.eqb_spec m 0); try lia;
  destruct (Z.ltb_spec 0 s), (Z.eqb_spec s 0); try lia;
  cbn [app]; rewrite <- ?app_assoc; reflexivity.
Qed.

(** C5. For a non-negative number of milliseconds the formatter splits the
    input into days, hours (below 24), minutes (below 60) and seconds (below
    60), drops the sub-second remainder, leaves out every unit that is zero
    and joins the others, largest first, with one space; 90061000 gives
    "1d 1h 1m 1s", and zero or an undefined input gives the empty string. *)
Theorem formatDuration_decomposes (ms : Z) (H : 0 <= ms) :
  (exists d h m s r,
      ms = 86400000 * d + 3600000 * h + 60000 * m + 1000 * s + r /\
      0 <= d /\ 0 <= h < 24 /\ 0 <= m < 60 /\ 0 <= s < 60 /\ 0 <= r < 1000 /\
      formatDuration (Some ms) = formatDuration_spec d h m s) /\
  formatDuration (Some 90061000) = js "1d 1h 1m 1s" /\
  formatDuration (Some 0) = [] /\
  formatDuration None = [].
Proof.
  split; [|repeat split; reflexivity].
  exists (ms / 86400000), ((ms / 3600000) mod 24), ((ms / 60000) mod 60),
         ((ms / 1000) mod 60), (ms mod 1000).
  rewrite formatDuration_unfold by assumption.
  repeat split; try (apply Z.mod_pos_bound; lia); try (apply Z.div_pos; lia).
  pose proof (Z.div_mod ms 1000 ltac:(lia)).
  pose proof (Z.div_mod (ms / 1000) 60 ltac:(lia)).
  pose proof (Z.div_mod (ms / 60000) 60 ltac:(lia)).
  pose proof (Z.div_mod (ms / 3600000) 24 ltac:(lia)).
  replace (ms / 60000) with (ms / 1000 / 60) in * by (rewrite Z.div_div; lia || reflexivity).
  replace (ms / 3600000) with (ms / 1000 / 60 / 60) in * by (rewrite !Z.div_div; lia || reflexivity).
  replace (ms / 86400000) with (ms / 1000 / 60 / 60 / 24) in * by (rewrite !Z.div_div; lia || reflexivity).
  lia.
Qed.

Lemma formatDuration_decomposes_witness :
  exists d h m s r,
    93784005 = 86400000 * d + 3600000 * h + 60000 * m + 1000 * s + r /\
    0 <= d /\ 0 <= h < 24 /\ 0 <= m < 60 /\ 0 <= s < 60 /\ 0 <= r < 1000 /\
    formatDuration (Some 93784005) = formatDuration_spec d h m s.
Proof.
  apply (formatDuration_decomposes 93784005). lia.
Defined.

(** C10. A strictly positive duration below one second formats to the empty
    string. *)
Theorem formatDuration_subsecond (ms : Z) (H : 0 < ms < 1000) :
  formatDuration (Some ms) = [].
Proof.
  rewrite formatDuration_unfold by lia.
  assert (ms / 1000 = 0) as Hs by (apply Z.div_small; lia).
  assert (ms / 60000 = 0) as Hm by (apply Z.div_small; lia).
  assert (ms / 3600000 = 0) as Hh by (apply Z.div_small; lia).
  assert (ms / 86400000 = 0) as Hd by (apply Z.div_small; lia).
  rewrite Hs, Hm, Hh, Hd. reflexivity.
Qed.

Lemma formatDuration_subsecond_witness : formatDuration (Some 999) = [].
Proof.
  apply (formatDuration_subsecond 999). lia.
Defined.

(** * The visible tasks *)

(** Sorting with the comparison [key b - key a]: larger keys first. *)
Section SortByKeyDescending.

Context {A : Type}.
Variable key : A -> Z.

Local Abbreviation compareFn := (fun a b : A => key b - key a).
Local Abbreviation newer_first := (fun a b : A => key a >= key b).

Lemma sort_insert_perm (a : A) (l : list A) :
  Permutation (sort_insert compareFn a l) (a :: l).
Proof.
  induction l as [|b l IH]; simpl; [reflexivity|].
  destruct (0 <? compareFn a b); [|reflexivity].
  rewrite IH. apply perm_swap.
Qed.

Lemma Array_sort_perm (l : list A) : Permutation (Array_sort compareFn l) l.
Proof.
  induction l as [|a l IH]; simpl; [constructor|].
  rewrite sort_insert_perm. constructor. exact IH.
Qed.

Lemma sort_insert_sorted (a : A) (l : list A) :
  StronglySorted newer_first l -> StronglySorted newer_first (sort_insert compareFn a l).
Proof.
  induction 1 as [|b l Hl IH Hb]; simpl.
  - repeat constructor.
  - simpl in *.
    destruct (Z.ltb_spec 0 (key b - key a)) as [Hlt|Hge].
    + constructor; [exact IH|].
      rewrite Forall_forall in *. intros x Hx.
      apply (Permutation_in _ (sort_insert_perm a l)) in Hx.
      destruct Hx as [<-|Hx]; [lia|auto].
    + constructor; [constructor; assumption|].
      constructor; [lia|].
      rewrite Forall_forall in *. intros x Hx. specialize (Hb x Hx). lia.
Qed.

Lemma Array_sort_sorted (l : list A) : StronglySorted newer_first (Array_sort compareFn l).
Proof.
  induction l as [|a l IH]; simpl; [constructor|].
  apply sort_insert_sorted. exact IH.
Qed.

(** Stability: the elements of one key keep their order. *)
Lemma sort_insert_stable (k : Z) (a : A) (l : list A) :
  filter (fun x => key x =? k) (sort_insert compareFn a l)
  = filter (fun x => key x =? k) (a :: l).
Proof.
  induction l as [|b l IH]; [reflexivity|].
  simpl sort_insert.
  destruct (Z.ltb_spec 0 (key b - key a)) as [Hlt|Hge]; [|reflexivity].
  simpl. rewrite IH. simpl.
  destruct (Z.eqb_spec (key a) k), (Z.eqb_spec (key b) k); try reflexivity; lia.
Qed.

Lemma Array_sort_stable (k : Z) (l : list A) :
  filter (fun x => key x =? k) (Array_sort compareFn l) = filter (fun x => key x =? k) l.
Proof.
  induction l as [|a l IH]; [reflexivity|].
  simpl Array_sort. rewrite sort_insert_stable. simpl. rewrite IH. reflexivity.
Qed.

End SortByKeyDescending.

Lemma filter_true {A} (l : list A) : filter (fun _ => true) l = l.
Proof.
  induction l as [|a l IH]; simpl; congruence.
Qed.

Lemma tasksToShow_unfold (m : TaskManager) :
  tasksToShow m
  = Array_sort (fun a b => createdAt b - createdAt a)
               (filter (matches_filter (currentFilter m)) (tasks m)).
Proof.
  unfold tasksToShow, matches_filter.
  destruct (jsstring_eqb (currentFilter m) (js "completed")); [reflexivity|].
  destruct (jsstring_eqb (currentFilter m) (js "pending")); [reflexivity|].
  rewrite filter_true. reflexivity.
Qed.

(** C3. The tasks shown are exactly the tasks that match the current
    filter (the completed ones for [completed], the others for [pending],
    all of them for [all]), in decreasing order of [createdAt], and tasks
    with the same [createdAt] keep the order they have in the store. *)
Theorem tasksToShow_filtered_newest_first_stable (m : TaskManager) :
  Permutation (tasksToShow m) (filter (matches_filter (currentFilter m)) (tasks m)) /\
  (forall t, In t (tasksToShow (set_currentFilter (js "completed") m))
             <-> In t (tasks m) /\ completed t = true) /\
  (forall t, In t (tasksToShow (set_currentFilter (js "pending") m))
             <-> In t (tasks m) /\ completed t = false) /\
  Permutation (tasksToShow (set_currentFilter (js "all") m)) (tasks m) /\
  StronglySorted (fun a b => createdAt a >= createdAt b) (tasksToShow m) /\
  (forall when,
      filter (fun t => createdAt t =? when) (tasksToShow m)
      = filter (fun t => createdAt t =? when)
               (filter (matches_filter (currentFilter m)) (tasks m))).
Proof.
  assert (forall f t, In t (tasksToShow (set_currentFilter f m))
                      <-> In t (tasks m) /\ matches_filter f t = true) as Hin.
  { intros f t. rewrite tasksToShow_unfold. cbn [currentFilter tasks set_currentFilter].
    rewrite <- filter_In. split; apply Permutation_in.
    - apply (Array_sort_perm createdAt).
    - apply Permutation_sym, (Array_sort_perm createdAt). }
  split; [rewrite tasksToShow_unfold; apply (Array_sort_perm createdAt)|].
  split; [intros t; apply (Hin (js "completed"))|].
  split.
  { intros t. rewrite (Hin (js "pending")). cbn.
    rewrite negb_true_iff. reflexivity. }
  split.
  { rewrite tasksToShow_unfold. cbn. rewrite filter_true.
    apply (Array_sort_perm createdAt). }
  split; [rewrite tasksToShow_unfold; apply (Array_sort_sorted createdAt)|].
  intros when. rewrite tasksToShow_unfold. apply (Array_sort_stable createdAt).
Qed.

(** * The fastest task *)

Lemma keep_faster_cases (prev current : Task) :
  getCompletionTime prev <> None -> getCompletionTime current <> None ->
  (time_value prev < time_value current /\ keep_faster prev current = prev) \/
  (time_value current <= time_value prev /\ keep_faster prev current = current).
Proof.
  unfold keep_faster, time_value, completionTime_lt.
  destruct (getCompletionTime prev) as [x|], (getCompletionTime current) as [y|];
    try congruence.
  intros _ _. destruct (Z.ltb_spec x y); [left|right]; split; auto; lia.
Qed.

(** The reduction keeps the last of the tasks with the least time. *)
Lemma reduce_keeps_last_minimum (rest : list Task) (first : Task) :
  Forall (fun t => getCompletionTime t <> None) (first :: rest) ->
  exists before after,
    first :: rest = before ++ fold_left keep_faster rest first :: after /\
    (forall u, In u before -> time_value (fold_left keep_faster rest first) <= time_value u) /\
    (forall u, In u after -> time_value (fold_left keep_faster rest first) < time_value u).
Proof.
  revert first. induction rest as [|y rest IH]; intros x Hall.
  - exists [], []. simpl. repeat split; intros u [].
  - pose proof (Forall_inv Hall) as Hx. pose proof (Forall_inv_tail Hall) as Hrest.
    pose proof (Forall_inv Hrest) as Hy. pose proof (Forall_inv_tail Hrest) as Hrest'.
    simpl fold_left.
    destruct (keep_faster_cases x y Hx Hy) as [[Hlt ->]|[Hle ->]].
    + destruct (IH x) as (before & after & Heq & Hb & Ha).
      { constructor; assumption. }
      remember (fold_left keep_faster rest x) as res eqn:Hres. clear Hres.
      destruct before as [|x' before]; simpl in Heq; injection Heq as Hhd Htl.
      * exists [], (y :: rest). simpl. repeat split.
        -- rewrite <- Hhd. reflexivity.
        -- intros u [].
        -- intros u [<-|Hu]; [rewrite <- Hhd; lia|].
           apply Ha. rewrite <- Htl. exact Hu.
      * exists (x :: y :: before), after. simpl. repeat split.
        -- rewrite Htl. reflexivity.
        -- intros u [<-|[<-|Hu]].
           ++ apply Hb. left. symmetry. exact Hhd.
           ++ specialize (Hb x' (or_introl eq_refl)). rewrite <- Hhd in Hb. lia.
           ++ apply Hb. right. exact Hu.
        -- exact Ha.
    + destruct (IH y Hrest) as (before & after & Heq & Hb & Ha).
      remember (fold_left keep_faster rest y) as res eqn:Hres. clear Hres.
      assert (time_value res <= time_value y) as Hmin.
      { destruct before as [|y' before]; simpl in Heq; injection Heq as Hhd Htl.
        - rewrite <- Hhd. lia.
        - apply Hb. left. symmetry. exact Hhd. }
      exists (x :: before), after. simpl. rewrite <- Heq. repeat split.
      * intros u [<-|Hu]; [lia|apply Hb; exact Hu].
      * exact Ha.
Qed.

Lemma filter_split {A} (p : A -> bool) (l l1 l2 : list A) (b : A) :
  filter p l = l1 ++ b :: l2 ->
  exists t1 t2, l = t1 ++ b :: t2 /\ filter p t1 = l1 /\ filter p t2 = l2.
Proof.
  revert l1. induction l as [|a l IH]; intros l1 H; simpl in H.
  - destruct l1; discriminate.
  - destruct (p a) eqn:Hp.
    + destruct l1 as [|a1 l1]; simpl in H; inversion H; subst.
      * exists [], l. repeat split.
      * destruct (IH l1 H2) as (t1 & t2 & -> & <- & <-).
        exists (a1 :: t1), t2. simpl. rewrite Hp. repeat split.
    + destruct (IH l1 H) as (t1 & t2 & -> & <- & <-).
      exists (a :: t1), t2. simpl. rewrite Hp. repeat split.
Qed.

Lemma timed_is_completed (t : Task) :
  completed t && is_some (getCompletionTime t) = is_some (getCompletionTime t).
Proof.
  unfold getCompletionTime. destruct (completed t); reflexivity.
Qed.

Lemma fastestTask_unfold (ts : list Task) :
  fastestTask ts
  = Array_reduce keep_faster (filter (fun t => is_some (getCompletionTime t)) ts).
Proof.
  unfold fastestTask.
  rewrite (filter_ext _ _ timed_is_completed).
  destruct (filter _ ts); reflexivity.
Qed.

(** C4, as the code has it.  The query returns none exactly when no task
    has a completion time; otherwise it returns a task whose completion
    time is the least one, and among the tasks with that least time the
    one that comes last in the store: every task before it is no faster,
    every task after it is strictly slower. *)
Theorem fastestTask_last_minimum (ts : list Task) :
  (fastestTask ts = None <-> forall t, In t ts -> getCompletionTime t = None) /\
  (forall best, fastestTask ts = Some best ->
     exists d before after,
       ts = before ++ best :: after /\
       getCompletionTime best = Some d /\
       (forall u d', In u before -> getCompletionTime u = Some d' -> d <= d') /\
       (forall u d', In u after -> getCompletionTime u = Some d' -> d < d')).
Proof.
  rewrite fastestTask_unfold.
  set (timed := fun t => is_some (getCompletionTime t)).
  split.
  - split.
    + intros Hnone t Hin.
      destruct (getCompletionTime t) as [d|] eqn:Ht; [|reflexivity].
      assert (In t (filter timed ts)) as Hf.
      { apply filter_In. split; [assumption|]. unfold timed. rewrite Ht. reflexivity. }
      destruct (filter timed ts); [destruct Hf|discriminate].
    + intros Hall.
      destruct (filter timed ts) as [|x rest] eqn:Hf; [reflexivity|].
      assert (In x (filter timed ts)) as Hx by (rewrite Hf; left; reflexivity).
      apply filter_In in Hx. destruct Hx as [Hin Ht].
      unfold timed in Ht. rewrite (Hall x Hin) in Ht. discriminate.
  - intros best Hbest.
    destruct (filter timed ts) as [|x rest] eqn:Hf; [discriminate|].
    simpl in Hbest. injection Hbest as Hbest.
    assert (Forall (fun t => getCompletionTime t <> None) (x :: rest)) as Hall.
    { rewrite <- Hf. apply Forall_forall. intros t Ht.
      apply filter_In in Ht. destruct Ht as [_ Ht]. unfold timed in Ht.
      destruct (getCompletionTime t); [discriminate|discriminate Ht]. }
    destruct (reduce_keeps_last_minimum rest x Hall) as (l1 & l2 & Heq & Hb & Ha).
    rewrite Hbest in *. rewrite Heq in Hf.
    destruct (filter_split _ _ _ _ _ Hf) as (t1 & t2 & -> & H1 & H2).
    assert (In best (x :: rest)) as Hin by (rewrite Heq; apply in_elt).
    rewrite Forall_forall in Hall. specialize (Hall best Hin).
    destruct (getCompletionTime best) as [d|] eqn:Hd; [|congruence].
    exists d, t1, t2. repeat split.
    + intros u d' Hu Hud.
      assert (In u l1) as Hl.
      { rewrite <- H1. apply filter_In. split; [assumption|].
        unfold timed. rewrite Hud. reflexivity. }
      specialize (Hb u Hl). unfold time_value in Hb. rewrite Hd, Hud in Hb. exact Hb.
    + intros u d' Hu Hud.
      assert (In u l2) as Hl.
      { rewrite <- H2. apply filter_In. split; [assumption|].
        unfold timed. rewrite Hud. reflexivity. }
      specialize (Ha u Hl). unfold time_value in Ha. rewrite Hd, Hud in Ha. exact Ha.
Qed.

(** C4 as it is written fails: of two tasks with the same completion time
    the query returns the second one, not the first. *)
Lemma fastest_of_a_tie_is_the_later_task :
  reachable tie_store /\
  map text (tasks tie_store) = [js "buy milk"; js "call mum"] /\
  map getCompletionTime (tasks tie_store) = [Some 5000; Some 5000] /\
  option_map text (fastestTask (tasks tie_store)) = Some (js "call mum") /\
  fastestTask (tasks tie_store) <> hd_error (tasks tie_store).
Proof.
  split.
  - exists tie_actions. split; [|vm_compute; reflexivity].
    repeat constructor; vm_compute; discriminate.
  - repeat split; try (vm_compute; reflexivity).
    vm_compute. discriminate.
Qed.

Example fastest_of_10s_5s_20s :
  option_map getCompletionTime
    (fastestTask
       [ {| id := js "a"; text := js "ten"; completed := true;
            createdAt := 0; completedAt := Some 10000 |};
         {| id := js "b"; text := js "five"; completed := true;
            createdAt := 0; completedAt := Some 5000 |};
         {| id := js "c"; text := js "twenty"; completed := true;
            createdAt := 0; completedAt := Some 20000 |} ])
  = Some (Some 5000).
Proof. reflexivity. Qed.

(** * Dates: [toISOString] is read back by [Date_parse] *)

Lemma era_day_roundtrip (doe : Z) :
  0 <= doe < 146097 ->
  exists yoe m d,
    civil_of_era_day doe = (yoe, m, d) /\ era_day_of_civil yoe m d = doe /\
    0 <= yoe <= 399 /\ 1 <= m <= 12 /\ 1 <= d <= 31.
Proof.
  intros H. unfold civil_of_era_day, era_day_of_civil.
  set (yoe := (doe - doe / 1460 + doe / 36524 - doe / 146096) / 365).
  set (doy := doe - (365 * yoe + yoe / 4 - yoe / 100)).
  set (mp := (5 * doy + 2) / 153).
  assert (0 <= yoe <= 399 /\ 0 <= doy <= 365) as [Hy Hdoy].
  { subst doy yoe. Z.div_mod_to_equations. lia. }
  assert (0 <= mp <= 11) as Hmp by (subst mp; Z.div_mod_to_equations; lia).
  eexists _, _, _. split; [reflexivity|].
  repeat split; try lia.
  - destruct (Z.ltb_spec mp 10).
    + destruct (Z.ltb_spec 2 (mp + 3)); [|lia].
      replace (mp + 3 - 3) with mp by lia. subst doy. lia.
    + destruct (Z.ltb_spec 2 (mp - 9)); [lia|].
      replace (mp - 9 + 9) with mp by lia. subst doy. lia.
  - destruct (Z.ltb_spec mp 10); lia.
  - destruct (Z.ltb_spec mp 10); lia.
  - subst mp. Z.div_mod_to_equations. lia.
  - subst mp. Z.div_mod_to_equations. lia.
Qed.

Lemma civil_roundtrip (z : Z) :
  exists y m d,
    civil_from_days z = (y, m, d) /\ days_from_civil y m d = z /\
    1 <= m <= 12 /\ 1 <= d <= 31 /\
    400 * ((z + 719468) / 146097) <= y <= 400 * ((z + 719468) / 146097) + 400.
Proof.
  unfold civil_from_days.
  pose proof (Z.mod_pos_bound (z + 719468) 146097 ltac:(lia)) as Hdoe.
  destruct (era_day_roundtrip _ Hdoe) as (yoe & m & d & Hc & Hr & Hy & Hm & Hd).
  rewrite Hc.
  eexists _, m, d. split; [reflexivity|].
  repeat split; try lia.
  - unfold days_from_civil.
    set (era := (z + 719468) / 146097).
    replace (yoe + era * 400 + (if m <=? 2 then 1 else 0) - (if m <=? 2 then 1 else 0))
      with (yoe + era * 400) by lia.
    rewrite Z.div_add by lia. rewrite Z.mod_add by lia.
    rewrite Z.div_small by lia. rewrite Z.mod_small by lia.
    rewrite Hr. simpl.
    pose proof (Z.div_mod (z + 719468) 146097 ltac:(lia)). subst era. lia.
  - destruct (m <=? 2); lia.
  - destruct (m <=? 2); lia.
Qed.

(** Fixed-width digits are read back. *)
Lemma fixed_digits_app (radix : Z) (w : nat) (n : Z) (acc : jsstring) :
  fixed_digits radix w n acc = fixed_digits radix w n [] ++ acc.
Proof.
  revert n acc. induction w as [|w IH]; intros n acc; [reflexivity|].
  simpl. rewrite IH. rewrite (IH _ [_]). rewrite <- app_assoc. reflexivity.
Qed.

Lemma read_digits_last (w : nat) (s : jsstring) (acc : Z) :
  read_digits (S w) s acc
  = match read_digits w s acc with
    | Some (v, c :: r) =>
        if is_digit c then Some (10 * v + (Z.of_N c - 48), r) else None
    | _ => None
    end.
Proof.
  revert s acc. induction w as [|w IH]; intros s acc.
  - simpl. destruct s as [|c r]; [reflexivity|]. destruct (is_digit c); reflexivity.
  - change (read_digits (S (S w)) s acc)
      with (match s with
            | c :: r => if is_digit c then read_digits (S w) r (10 * acc + (Z.of_N c - 48))
                        else None
            | [] => None
            end).
    destruct s as [|c r]; [reflexivity|].
    simpl. destruct (is_digit c); [|reflexivity]. apply IH.
Qed.

Lemma digit_char_decimal (d : Z) :
  0 <= d < 10 -> is_digit (digit_char d) = true /\ Z.of_N (digit_char d) - 48 = d.
Proof.
  intros H. unfold digit_char, is_digit.
  destruct (Z.ltb_spec d 10); [|lia].
  rewrite Z2N.id by lia. split; [|lia].
  apply andb_true_intro. split; apply N.leb_le; lia.
Qed.

Lemma read_fixed_digits (w : nat) (n acc : Z) (rest : jsstring) :
  0 <= n < 10 ^ Z.of_nat w ->
  read_digits w (fixed_digits 10 w n [] ++ rest) acc
  = Some (acc * 10 ^ Z.of_nat w + n, rest).
Proof.
  revert n acc rest. induction w as [|w IH]; intros n acc rest Hn.
  - simpl in *. f_equal. f_equal. lia.
  - rewrite Nat2Z.inj_succ, Z.pow_succ_r in * by lia.
    rewrite read_digits_last. simpl fixed_digits.
    rewrite fixed_digits_app, <- app_assoc.
    rewrite IH.
    2:{ split; [apply Z.div_pos; lia|]. apply Z.div_lt_upper_bound; lia. }
    simpl app.
    destruct (digit_char_decimal (n mod 10)) as [-> ->].
    { apply Z.mod_pos_bound. lia. }
    f_equal. f_equal. pose proof (Z.div_mod n 10 ltac:(lia)). lia.
Qed.

Lemma read_fixed_digits_0 (w : nat) (n : Z) (rest : jsstring) :
  0 <= n < 10 ^ Z.of_nat w ->
  read_digits w (fixed_digits 10 w n [] ++ rest) 0 = Some (n, rest).
Proof.
  intros H. rewrite read_fixed_digits by exact H. reflexivity.
Qed.

Lemma read_digits_first (w : nat) (c : N) (r : jsstring) (acc : Z) :
  read_digits (S w) (c :: r) acc <> None -> is_digit c = true.
Proof.
  simpl. destruct (is_digit c); congruence.
Qed.

Lemma read_year_four_digits (s : jsstring) (r : option (Z * jsstring)) :
  read_digits 4 s 0 = r -> r <> None -> read_year s = r.
Proof.
  intros H Hr. unfold read_year. destruct s as [|c s']; [subst; simpl in Hr; congruence|].
  assert (is_digit c = true) as Hc by (apply (read_digits_first 3 c s' 0); congruence).
  unfold is_digit in Hc. apply andb_prop in Hc. destruct Hc as [H1 H2].
  apply N.leb_le in H1, H2.
  destruct (N.eqb_spec c 43); [lia|]. destruct (N.eqb_spec c 45); [lia|]. exact H.
Qed.

Lemma expect_unit (c : N) (r : jsstring) : expect [c] (c :: r) = Some r.
Proof. simpl. rewrite N.eqb_refl. reflexivity. Qed.

(** The text of the year is read back, for a year of at most six digits. *)
Lemma read_year_text (y : Z) (rest : jsstring) :
  - 999999 <= y <= 999999 ->
  read_year ((if (0 <=? y) && (y <=? 9999) then fixed_digits 10 4 y []
              else (if y <? 0 then 45%N else 43%N) :: fixed_digits 10 6 (Z.abs y) [])
             ++ rest)
  = Some (y, rest).
Proof.
  intros Hy.
  destruct (Z.leb_spec 0 y) as [H0|H0]; simpl andb.
  - destruct (Z.leb_spec y 9999) as [H1|H1].
    + apply read_year_four_digits; [|discriminate].
      rewrite read_fixed_digits by (simpl; lia). reflexivity.
    + destruct (Z.ltb_spec y 0); [lia|].
      unfold read_year. cbn [app]. cbn [N.eqb Pos.eqb].
      rewrite read_fixed_digits by (simpl; lia).
      f_equal. f_equal. lia.
  - destruct (Z.ltb_spec y 0); [|lia].
    unfold read_year. cbn [app]. cbn [N.eqb Pos.eqb].
    rewrite read_fixed_digits by (simpl; lia).
    cbn [obind]. f_equal. f_equal. lia.
Qed.

(** One separator and the digits after it. *)
Ltac read_field :=
  rewrite expect_unit; cbn [obind];
  rewrite read_fixed_digits_0 by (simpl; Z.div_mod_to_equations; lia);
  cbn [obind app].

Lemma read_ISO_toISOString (t : Z) : valid_time t -> read_ISO (toISOString t) = Some t.
Proof.
  unfold valid_time, maxTime, toISOString, msPerDay. intros Ht.
  destruct (civil_roundtrip (t / 86400000)) as (y & m & d & -> & Hr & Hm & Hd & Hy).
  assert (- 100000000 <= t / 86400000 <= 100000000) as Hday
      by (Z.div_mod_to_equations; lia).
  assert (- 999999 <= y <= 999999) as Hy6 by (Z.div_mod_to_equations; lia).
  pose proof (Z.mod_pos_bound t 86400000 ltac:(lia)) as Htod.
  set (tod := t mod 86400000) in *.
  unfold read_ISO.
  change (js "-") with [45%N]. change (js "T") with [84%N].
  change (js ":") with [58%N]. change (js ".") with [46%N]. change (js "Z") with [90%N].
  rewrite read_year_text by exact Hy6. cbn [obind app].
  do 6 read_field.
  rewrite expect_unit. cbn [obind].
  f_equal. rewrite Hr. unfold msPerDay. subst tod.
  Z.div_mod_to_equations. lia.
Qed.

(** A valid time value, written by [toISOString], is read back by [new
    Date]. *)
Lemma Date_parse_toISOString (t : Z) : valid_time t -> Date_parse (toISOString t) = Some t.
Proof.
  intros Ht. unfold Date_parse. rewrite read_ISO_toISOString by exact Ht.
  rewrite jsstring_eqb_refl.
  unfold valid_timeb, valid_time in *.
  destruct (Z.leb_spec (- maxTime) t), (Z.leb_spec t maxTime); try lia. reflexivity.
Qed.

Lemma toISOString_not_empty (t : Z) : toISOString t <> [].
Proof.
  unfold toISOString. destruct (civil_from_days _) as [[y m] d].
  intros H. apply (f_equal (@List.length N)) in H.
  rewrite !length_app in H. simpl in H. lia.
Qed.

Example toISOString_epoch : toISOString 0 = js "1970-01-01T00:00:00.000Z".
Proof. reflexivity. Qed.

Example toISOString_2026 : toISOString 1793529296789 = js "2026-11-01T10:34:56.789Z".
Proof. reflexivity. Qed.

Example Date_parse_2026 : Date_parse (js "2026-11-01T10:34:56.789Z") = Some 1793529296789.
Proof. reflexivity. Qed.

Example toISOString_leap : toISOString 951782400000 = js "2000-02-29T00:00:00.000Z".
Proof. reflexivity. Qed.

Example toISOString_before_epoch : toISOString (-1) = js "1969-12-31T23:59:59.999Z".
Proof. reflexivity. Qed.

Example toISOString_max : toISOString maxTime = js "+275760-09-13T00:00:00.000Z".
Proof. reflexivity. Qed.

Example toISOString_min : toISOString (- maxTime) = js "-271821-04-20T00:00:00.000Z".
Proof. reflexivity. Qed.

Example Date_parse_min : Date_parse (js "-271821-04-20T00:00:00.000Z") = Some (- maxTime).
Proof. reflexivity. Qed.

Example Date_parse_bad_day : Date_parse (js "2026-02-30T00:00:00.000Z") = None.
Proof. reflexivity. Qed.

(** * JSON: what [JSON.stringify] writes, [JSON.parse] reads back *)

Lemma hex_value_digit_char (x : Z) :
  0 <= x < 16 -> hex_value (digit_char x) = Some (Z.to_N x).
Proof.
  intros Hx. unfold hex_value, digit_char, is_digit.
  destruct (Z.ltb_spec x 10).
  - destruct (N.leb_spec 48 (Z.to_N (48 + x))); [|lia].
    destruct (N.leb_spec (Z.to_N (48 + x)) 57); [|lia].
    cbn [andb]. f_equal. lia.
  - destruct (N.leb_spec 48 (Z.to_N (87 + x))); [|lia].
    destruct (N.leb_spec (Z.to_N (87 + x)) 57); [lia|].
    destruct (N.leb_spec 97 (Z.to_N (87 + x))); [|lia].
    destruct (N.leb_spec (Z.to_N (87 + x)) 102); [|lia].
    cbn [andb]. f_equal. lia.
Qed.

Lemma parse_chars_literal (c : N) (x s rest : jsstring) :
  c <> 34%N -> c <> 92%N -> (32 <= c)%N ->
  parse_chars x = Some (s, rest) ->
  parse_chars (c :: x) = Some (c :: s, rest).
Proof.
  intros H1 H2 H3 Hx. simpl.
  destruct (N.eqb_spec c 34); [contradiction|].
  destruct (N.eqb_spec c 92); [contradiction|].
  destruct (N.ltb_spec c 32); [lia|].
  rewrite Hx. reflexivity.
Qed.

Lemma parse_chars_unicode_escape (c : N) (x s rest : jsstring) :
  (c < 65536)%N ->
  parse_chars x = Some (s, rest) ->
  parse_chars (unicode_escape c ++ x) = Some (c :: s, rest).
Proof.
  intros Hc Hx. unfold unicode_escape.
  change (js "\u") with [92%N; 117%N].
  cbn [fixed_digits app parse_chars N.eqb Pos.eqb].
  assert (0 <= Z.of_N c < 65536) as Hz by lia.
  unfold hex4.
  rewrite !hex_value_digit_char by (apply Z.mod_pos_bound; lia).
  cbn [obind]. rewrite Hx. cbn [obind].
  f_equal. f_equal. f_equal.
  apply N2Z.inj. rewrite !N2Z.inj_add, !N2Z.inj_mul, !Z2N.id
    by (apply Z.mod_pos_bound; lia).
  change (Z.of_N 16) with 16.
  Z.div_mod_to_equations. lia.
Qed.

Lemma parse_chars_escape_unit (c : N) (x s rest : jsstring) :
  parse_chars x = Some (s, rest) ->
  parse_chars (escape_unit c ++ x) = Some (c :: s, rest).
Proof.
  intros Hx. unfold escape_unit.
  destruct (N.eqb_spec c 8) as [->|]; [simpl; rewrite Hx; reflexivity|].
  destruct (N.eqb_spec c 9) as [->|]; [simpl; rewrite Hx; reflexivity|].
  destruct (N.eqb_spec c 10) as [->|]; [simpl; rewrite Hx; reflexivity|].
  destruct (N.eqb_spec c 12) as [->|]; [simpl; rewrite Hx; reflexivity|].
  destruct (N.eqb_spec c 13) as [->|]; [simpl; rewrite Hx; reflexivity|].
  destruct (N.eqb_spec c 34) as [->|]; [simpl; rewrite Hx; reflexivity|].
  destruct (N.eqb_spec c 92) as [->|]; [simpl; rewrite Hx; reflexivity|].
  destruct (N.ltb_spec c 32).
  - apply parse_chars_unicode_escape; [lia|exact Hx].
  - apply parse_chars_literal; assumption.
Qed.

Lemma surrogate_is_literal (c : N) :
  is_high_surrogate c = true \/ is_low_surrogate c = true ->
  c <> 34%N /\ c <> 92%N /\ (32 <= c)%N /\ (c < 65536)%N.
Proof.
  unfold is_high_surrogate, is_low_surrogate.
  intros [H|H]; apply andb_prop in H; destruct H as [H1 H2];
    apply N.leb_le in H1, H2; lia.
Qed.

Lemma parse_chars_quote_units_bounded (n : nat) (s rest : jsstring) :
  (List.length s <= n)%nat ->
  parse_chars (quote_units s ++ 34%N :: rest) = Some (s, rest).
Proof.
  revert s. induction n as [|n IH]; intros s Hlen.
  - destruct s; [reflexivity|simpl in Hlen; lia].
  - destruct s as [|c r]; [reflexivity|]. simpl in Hlen.
    cbn [quote_units].
    destruct (is_high_surrogate c) eqn:Hh.
    + destruct (surrogate_is_literal c (or_introl Hh)) as (H1 & H2 & H3 & H4).
      destruct r as [|c2 r2].
      * apply parse_chars_unicode_escape; [exact H4|reflexivity].
      * destruct (is_low_surrogate c2) eqn:Hl.
        -- destruct (surrogate_is_literal c2 (or_intror Hl)) as (G1 & G2 & G3 & G4).
           cbn [app].
           apply parse_chars_literal; try assumption.
           apply parse_chars_literal; try assumption.
           apply IH. simpl in Hlen. lia.
        -- rewrite <- app_assoc.
           apply parse_chars_unicode_escape; [exact H4|].
           apply IH. lia.
    + destruct (is_low_surrogate c) eqn:Hl.
      * destruct (surrogate_is_literal c (or_intror Hl)) as (H1 & H2 & H3 & H4).
        rewrite <- app_assoc.
        apply parse_chars_unicode_escape; [exact H4|].
        apply IH. lia.
      * rewrite <- app_assoc. apply parse_chars_escape_unit. apply IH. lia.
Qed.

(** A quoted string is read back, whatever its units. *)
Lemma parse_chars_quote_units (s rest : jsstring) :
  parse_chars (quote_units s ++ 34%N :: rest) = Some (s, rest).
Proof.
  apply (parse_chars_quote_units_bounded (List.length s)). apply Nat.le_refl.
Qed.

Lemma JSON_induction (P : JSON -> Prop) :
  P JNull -> (forall b, P (JBool b)) -> (forall l, P (JNumber l)) ->
  (forall s, P (JString s)) ->
  (forall items, Forall P items -> P (JArray items)) ->
  (forall members, Forall (fun member => P (snd member)) members -> P (JObject members)) ->
  forall j, P j.
Proof.
  intros Hnull Hbool Hnum Hstr Harr Hobj.
  fix IH 1. intros [| b | l | s | items | members].
  - exact Hnull.
  - apply Hbool.
  - apply Hnum.
  - apply Hstr.
  - apply Harr. induction items as [|x items IHitems]; constructor; [apply IH|exact IHitems].
  - apply Hobj. induction members as [|[k x] members IHm]; constructor;
      [apply IH|exact IHm].
Qed.

Lemma value_start_cases (c : N) :
  value_start c = true ->
  c = 34%N \/ c = 91%N \/ c = 123%N \/ c = 110%N \/ c = 116%N \/ c = 102%N.
Proof.
  unfold value_start. cbn [existsb]. rewrite !orb_true_iff, !N.eqb_eq.
  intuition discriminate.
Qed.

Lemma skip_ws_value_start (c : N) (r : jsstring) :
  value_start c = true -> skip_ws (c :: r) = c :: r.
Proof.
  intros H. apply value_start_cases in H.
  destruct H as [->|[->|[->|[->|[->| ->]]]]]; reflexivity.
Qed.

Lemma stringify_starts (j : JSON) :
  number_free j = true ->
  exists c tl, JSON_stringify j = c :: tl /\ value_start c = true.
Proof.
  destruct j as [| [|] | l | s | items | members]; simpl; intros H;
    try discriminate; eexists _, _; split; try reflexivity; reflexivity.
Qed.

Lemma parse_elements_join (items : list JSON) :
  items <> [] ->
  Forall read_back items ->
  forall fuel rest,
    (list_sum (map (fun x => S (json_size x)) items) <= fuel)%nat ->
    parse_elements fuel (join_items JSON_stringify (js "]") items ++ rest)
    = Some (items, rest).
Proof.
  induction items as [|x items IH]; [congruence|].
  intros _ Hall fuel rest Hfuel.
  pose proof (Forall_inv Hall) as Hx. pose proof (Forall_inv_tail Hall) as Hitems.
  cbn [map list_sum] in Hfuel.
  destruct fuel as [|fuel]; [simpl in Hfuel; lia|].
  cbn [join_items parse_elements]. rewrite <- app_assoc.
  rewrite Hx by (simpl in Hfuel; lia). cbn [obind].
  destruct items as [|y items].
  - reflexivity.
  - rewrite <- app_assoc. change (js ",") with [44%N].
    cbn [app skip_ws existsb N.eqb Pos.eqb orb].
    rewrite IH; [reflexivity|discriminate|exact Hitems|simpl in Hfuel |- *; lia].
Qed.

Lemma QuoteJSONString_app (k x : jsstring) :
  QuoteJSONString k ++ x = 34%N :: quote_units k ++ 34%N :: x.
Proof.
  unfold QuoteJSONString. cbn [app]. rewrite <- app_assoc. reflexivity.
Qed.

Lemma parse_members_join (members : list (jsstring * JSON)) :
  members <> [] ->
  Forall (fun member => read_back (snd member)) members ->
  forall fuel rest,
    (list_sum (map (fun member => S (json_size (snd member))) members) <= fuel)%nat ->
    parse_members fuel
      (join_items (fun member => QuoteJSONString (fst member) ++ js ":"
                                 ++ JSON_stringify (snd member))
                  (js "}") members ++ rest)
    = Some (members, rest).
Proof.
  induction members as [|[k x] members IH]; [congruence|].
  intros _ Hall fuel rest Hfuel.
  pose proof (Forall_inv Hall) as Hx. pose proof (Forall_inv_tail Hall) as Hmembers.
  cbn [map list_sum snd] in Hfuel. cbn [snd] in Hx.
  destruct fuel as [|fuel]; [simpl in Hfuel; lia|].
  cbn [join_items parse_members fst snd].
  change (js ":") with [58%N].
  rewrite <- !app_assoc. rewrite QuoteJSONString_app.
  cbn [app skip_ws existsb N.eqb Pos.eqb orb].
  rewrite parse_chars_quote_units. cbn [obind skip_ws existsb N.eqb Pos.eqb orb].
  rewrite Hx by (simpl in Hfuel; lia). cbn [obind].
  destruct members as [|y members].
  - reflexivity.
  - change (js ",") with [44%N].
    cbn [app skip_ws existsb N.eqb Pos.eqb orb].
    rewrite IH; [reflexivity|discriminate|exact Hmembers|simpl in Hfuel |- *; lia].
Qed.

(** Every value without a number is read back from its text. *)
Lemma stringify_read_back (j : JSON) : number_free j = true -> read_back j.
Proof.
  induction j as [| b | l | s | items IH | members IH] using JSON_induction;
    intros Hnf fuel rest Hfuel.
  - destruct fuel as [|fuel]; [simpl in Hfuel; lia|]. reflexivity.
  - destruct fuel as [|fuel]; [simpl in Hfuel; lia|]. destruct b; reflexivity.
  - discriminate.
  - destruct fuel as [|fuel]; [simpl in Hfuel; lia|].
    cbn [JSON_stringify parse_value]. rewrite QuoteJSONString_app.
    cbn [app skip_ws existsb N.eqb Pos.eqb orb].
    rewrite parse_chars_quote_units. reflexivity.
  - destruct fuel as [|fuel]; [simpl in Hfuel; lia|].
    cbn [json_size] in Hfuel. cbn [number_free] in Hnf.
    assert (Forall read_back items) as Hall.
    { rewrite forallb_forall in Hnf. rewrite Forall_forall in *.
      intros x Hx. apply (IH x Hx). apply Hnf. exact Hx. }
    cbn [JSON_stringify parse_value]. change (js "[") with [91%N].
    cbn [app skip_ws existsb N.eqb Pos.eqb orb].
    destruct items as [|x items]; [reflexivity|].
    destruct (stringify_starts x) as (c & tl & Hc & Hstart).
    { rewrite forallb_forall in Hnf. apply Hnf. left. reflexivity. }
    pose proof (parse_elements_join (x :: items) ltac:(discriminate) Hall fuel rest
                  ltac:(lia)) as Hparse.
    revert Hparse. cbn [join_items]. rewrite Hc. cbn [app].
    rewrite (skip_ws_value_start c _ Hstart).
    intros ->.
    apply value_start_cases in Hstart.
    destruct Hstart as [->|[->|[->|[->|[->| ->]]]]]; reflexivity.
  - destruct fuel as [|fuel]; [simpl in Hfuel; lia|].
    cbn [json_size] in Hfuel. cbn [number_free] in Hnf.
    assert (Forall (fun member => read_back (snd member)) members) as Hall.
    { rewrite forallb_forall in Hnf. rewrite Forall_forall in *.
      intros x Hx. apply (IH x Hx). apply Hnf. exact Hx. }
    cbn [JSON_stringify parse_value]. change (js "{") with [123%N].
    cbn [app skip_ws existsb N.eqb Pos.eqb orb].
    destruct members as [|[k x] members]; [reflexivity|].
    pose proof (parse_members_join ((k, x) :: members) ltac:(discriminate) Hall fuel rest
                  ltac:(lia)) as Hparse.
    revert Hparse. cbn [join_items fst snd].
    rewrite <- !app_assoc. rewrite QuoteJSONString_app.
    cbn [app skip_ws existsb N.eqb Pos.eqb orb].
    intros ->. reflexivity.
Qed.

Lemma join_items_length {A} (write : A -> jsstring) (size : A -> nat)
      (close : jsstring) (items : list A) :
  (1 <= List.length close)%nat ->
  Forall (fun x => (size x <= 2 * List.length (write x))%nat) items ->
  (list_sum (map (fun x => S (size x)) items)
   <= 2 * List.length (join_items write close items))%nat.
Proof.
  intros Hclose. induction 1 as [|x items Hx Hitems IH]; [simpl; lia|].
  cbn [map join_items]. rewrite length_app.
  change (list_sum (S (size x) :: map (fun x => S (size x)) items))
    with (S (size x) + list_sum (map (fun x => S (size x)) items))%nat.
  destruct items as [|y items].
  - simpl list_sum. lia.
  - change (js ",") with [44%N]. cbn [app List.length]. lia.
Qed.

Lemma json_size_le_text (j : JSON) :
  number_free j = true -> (json_size j <= 2 * List.length (JSON_stringify j))%nat.
Proof.
  induction j as [| b | l | s | items IH | members IH] using JSON_induction;
    intros Hnf.
  - simpl. lia.
  - destruct b; simpl; lia.
  - discriminate.
  - simpl. lia.
  - cbn [json_size JSON_stringify]. cbn [number_free] in Hnf.
    change (js "[") with [91%N]. cbn [app List.length].
    enough (list_sum (map (fun x => S (json_size x)) items)
            <= 2 * List.length (join_items JSON_stringify (js "]") items))%nat by lia.
    apply join_items_length; [simpl; lia|].
    rewrite forallb_forall in Hnf. rewrite Forall_forall in *.
    intros x Hx. apply (IH x Hx). apply Hnf. exact Hx.
  - cbn [json_size JSON_stringify]. cbn [number_free] in Hnf.
    change (js "{") with [123%N]. cbn [app List.length].
    enough (list_sum (map (fun member => S (json_size (snd member))) members)
            <= 2 * List.length
                     (join_items (fun member => QuoteJSONString (fst member) ++ js ":"
                                                ++ JSON_stringify (snd member))
                                 (js "}") members))%nat by lia.
    apply (join_items_length _ (fun member => json_size (snd member))); [simpl; lia|].
    rewrite forallb_forall in Hnf. rewrite Forall_forall in *.
    intros x Hx. rewrite !length_app.
    specialize (IH x Hx (Hnf x Hx)). lia.
Qed.

(** [JSON.parse (JSON.stringify j)] is [j] for a value without numbers. *)
Lemma JSON_parse_stringify (j : JSON) :
  number_free j = true -> JSON_parse (JSON_stringify j) = Some j.
Proof.
  intros Hnf. unfold JSON_parse.
  pose proof (stringify_read_back j Hnf (2 * List.length (JSON_stringify j) + 2)%nat []) as H.
  rewrite app_nil_r in H. rewrite H; [reflexivity|].
  pose proof (json_size_le_text j Hnf). lia.
Qed.

Example JSON_parse_nested :
  JSON_parse (js " [ 1.5e3 , {  } , { " ++ QuoteJSONString (js "a") ++ js " : [ ] , "
              ++ QuoteJSONString (js "b") ++ js ":" ++ [34%N] ++ js "xA\n\u00e9" ++ [34%N]
              ++ js " } , true , null ] ")
  = Some (JArray [JNumber (js "1.5e3"); JObject [];
                  JObject [(js "a", JArray []); (js "b", JString (js "xA" ++ [10; 233]%N))];
                  JBool true; JNull]).
Proof. reflexivity. Qed.

Example JSON_parse_unclosed : JSON_parse (js "{") = None.
Proof. reflexivity. Qed.

Example JSON_parse_leading_zero : JSON_parse (js "[01]") = None.
Proof. reflexivity. Qed.

Example QuoteJSONString_escapes :
  QuoteJSONString (js "say " ++ [34%N] ++ js "hi" ++ [34; 10; 233; 1]%N)
  = [34%N] ++ js "say \" ++ [34%N] ++ js "hi\" ++ [34%N] ++ js "\n" ++ [233%N]
      ++ js "\u0001" ++ [34%N].
Proof. reflexivity. Qed.

Example JSON_parse_not_an_array : JSON_parse (js "{}") = Some (JObject []).
Proof. reflexivity. Qed.


(** * Saving and loading *)

Lemma Task_toJSON_number_free (t : Task) : number_free (Task_toJSON t) = true.
Proof.
  unfold Task_toJSON. destruct (completedAt t); reflexivity.
Qed.

Lemma tasks_number_free (ts : list Task) :
  number_free (JArray (map Task_toJSON ts)) = true.
Proof.
  cbn [number_free]. apply forallb_forall. intros j Hj.
  apply in_map_iff in Hj. destruct Hj as (t & <- & _). apply Task_toJSON_number_free.
Qed.

Lemma load_record_Task_toJSON (e : Entropy) (t : Task) :
  valid_dates t -> load_record e (Task_toJSON t) = Normal (reloaded e t).
Proof.
  intros [Hcreated Hdone].
  unfold load_record, Task_toJSON, get_property. cbn.
  cbn [arg_text arg_completed arg_createdAt].
  rewrite Date_parse_toISOString by exact Hcreated.
  unfold reloaded.
  destruct (completedAt t) as [d|] eqn:Hd; cbn [arg_completedAt]; [|reflexivity].
  destruct (toISOString d) as [|c r] eqn:Hiso; [destruct (toISOString_not_empty d Hiso)|].
  rewrite <- Hiso. rewrite Date_parse_toISOString by (apply Hdone; reflexivity).
  reflexivity.
Qed.

Lemma load_records_Task_toJSON (env : nat -> Entropy) (ts : list Task) (i : nat) :
  Forall valid_dates ts ->
  load_records env i (map Task_toJSON ts) = Normal (reload env i ts).
Proof.
  intros H. revert i. induction H as [|t ts Ht Hts IH]; intros i; [reflexivity|].
  cbn [map load_records reload].
  rewrite load_record_Task_toJSON by exact Ht. cbn [bind].
  rewrite IH. reflexivity.
Qed.

Lemma stringify_array_not_empty (items : list JSON) :
  exists r, JSON_stringify (JArray items) = 91%N :: r.
Proof.
  eexists. reflexivity.
Qed.

(** Loading what was just saved runs the constructor again on every task. *)
Lemma loadTasks_saveTasks (env : nat -> Entropy) (m : TaskManager) :
  Forall valid_dates (tasks m) ->
  loadTasks env (saveTasks m)
  = Normal (set_tasks (reload env 0 (tasks m)) (saveTasks m)).
Proof.
  intros Hvalid. unfold loadTasks.
  cbn [saveTasks set_localStorage localStorage getItem setItem item_tasks].
  destruct (stringify_array_not_empty (map Task_toJSON (tasks m))) as [r Hr].
  rewrite Hr. rewrite <- Hr.
  rewrite JSON_parse_stringify by apply tasks_number_free.
  rewrite load_records_Task_toJSON by exact Hvalid.
  reflexivity.
Qed.

Lemma reload_same_fields (env : nat -> Entropy) (ts : list Task) (i : nat) :
  Forall2 same_fields ts (reload env i ts).
Proof.
  revert i. induction ts as [|t ts IH]; intros i; constructor; [|apply IH].
  repeat split.
Qed.

Lemma reload_ids (env : nat -> Entropy) (ts : list Task) (i : nat) :
  map id (reload env i ts) = map (fun k => new_id (env k)) (seq i (List.length ts)).
Proof.
  revert i. induction ts as [|t ts IH]; intros i; [reflexivity|].
  cbn [reload map List.length seq]. rewrite IH. reflexivity.
Qed.

Lemma Forall2_length_eq {A B} (R : A -> B -> Prop) (l : list A) (l' : list B) :
  Forall2 R l l' -> List.length l = List.length l'.
Proof.
  induction 1; simpl; congruence.
Qed.

(** C1, as the code has it.  After [saveTasks] and [loadTasks] the store
    holds as many tasks as before, in the same order, each with the text,
    completion flag, creation date and completion date it had; an empty
    store gives an empty store.  The ids are not those of before: the
    constructor runs again for every task and gives it a new id, made from
    the clock and the random generator at the time of loading. *)
Theorem save_load_keeps_fields_renews_ids (m : TaskManager) (env : nat -> Entropy)
        (Hvalid : Forall valid_dates (tasks m)) :
  exists m',
    loadTasks env (saveTasks m) = Normal m' /\
    Forall2 same_fields (tasks m) (tasks m') /\
    List.length (tasks m') = List.length (tasks m) /\
    map id (tasks m') = map (fun i => new_id (env i)) (seq 0 (List.length (tasks m))) /\
    (tasks m = [] -> tasks m' = []).
Proof.
  eexists. split; [apply loadTasks_saveTasks; exact Hvalid|].
  cbn [set_tasks tasks].
  repeat split.
  - apply reload_same_fields.
  - symmetry. apply (Forall2_length_eq _ _ _ (reload_same_fields env (tasks m) 0)).
  - apply reload_ids.
  - intros ->. reflexivity.
Qed.

Lemma milk_store_valid_dates : Forall valid_dates (tasks milk_store).
Proof.
  constructor; [|constructor].
  split.
  - vm_compute. split; discriminate.
  - intros done H. vm_compute in H. discriminate H.
Qed.

Lemma save_load_keeps_fields_renews_ids_witness :
  exists m',
    loadTasks (fun _ => evening) (saveTasks milk_store) = Normal m' /\
    Forall2 same_fields (tasks milk_store) (tasks m') /\
    List.length (tasks m') = List.length (tasks milk_store) /\
    map id (tasks m')
    = map (fun i => new_id ((fun _ => evening) i)) (seq 0 (List.length (tasks milk_store))) /\
    (tasks milk_store = [] -> tasks m' = []).
Proof.
  apply (save_load_keeps_fields_renews_ids milk_store (fun _ => evening)).
  apply milk_store_valid_dates.
Defined.

(** C1 as it is written fails: the task added in the morning has another id
    after the store is saved and loaded in the evening. *)
Lemma saved_id_is_not_loaded :
  exists m',
    loadTasks (fun _ => evening) (saveTasks milk_store) = Normal m' /\
    map id (tasks milk_store) = [js "mvxp1ac64fzyo82mvyr"] /\
    map id (tasks m') = [js "mvyer7o59k2h1xq7c3"] /\
    map id (tasks m') <> map id (tasks milk_store).
Proof.
  eexists. split; [vm_compute; reflexivity|].
  split; [vm_compute; reflexivity|].
  split; [vm_compute; reflexivity|].
  vm_compute. discriminate.
Qed.

(** * Loading a missing or malformed snapshot *)

Lemma arg_createdAt_converts (v : option JSON) (d : Z) :
  arg_createdAt v = Some d -> Date_throws v = false.
Proof.
  destruct v as [[| | | | |]|]; try discriminate; reflexivity.
Qed.

Lemma arg_completedAt_converts (v : option JSON) (d : option Z) :
  arg_completedAt v = Some d -> Date_throws v = false.
Proof.
  destruct v as [[|[|]| | | |]|]; try discriminate; reflexivity.
Qed.

(** The two descriptions of the callback agree: a record that the model of
    tasks loads does not throw. *)
Lemma load_record_loads (e : Entropy) (task : JSON) :
  match load_record e task with
  | Normal _ => record_loads task = true
  | Throw x => x = TypeError /\ record_loads task = false
  | OutOfModel => True
  end.
Proof.
  unfold load_record, record_loads.
  destruct task; try (split; reflexivity); cbv beta iota;
    destruct (arg_text _); trivial;
    destruct (arg_completed _); trivial;
    destruct (arg_createdAt _) eqn:Hcreated; trivial;
    destruct (arg_completedAt _) eqn:Hdone; trivial;
    rewrite (arg_createdAt_converts _ _ Hcreated), (arg_completedAt_converts _ _ Hdone);
    reflexivity.
Qed.

Lemma load_records_load (env : nat -> Entropy) (records : list JSON) (i : nat) :
  match load_records env i records with
  | Normal ts => forallb record_loads records = true /\
                 List.length ts = List.length records
  | Throw x => x = TypeError /\ forallb record_loads records = false
  | OutOfModel => True
  end.
Proof.
  revert i. induction records as [|task records IH]; intros i; [split; reflexivity|].
  cbn [load_records forallb].
  pose proof (load_record_loads (env i) task) as Htask.
  destruct (load_record (env i) task) as [t|x|]; cbn [bind]; trivial.
  - specialize (IH (S i)). rewrite Htask.
    destruct (load_records env (S i) records) as [ts|x|]; cbn [bind]; trivial.
    + destruct IH as [Hall Hlen]. split; [exact Hall|]. cbn. rewrite Hlen. reflexivity.
  - destruct Htask as [-> ->]. split; reflexivity.
Qed.

(** C2, as the code has it.  With no snapshot in local storage (or an empty
    text there) [loadTasks] returns normally and changes nothing, so a new
    manager starts with no task.  A text that is not JSON makes
    [JSON.parse] throw a SyntaxError, and a JSON text that is not an array
    gives a TypeError.  An array is loaded without a test of its records:
    when the callback returns for each of them the tasks of the manager
    are replaced by as many new tasks as there are records, whatever the
    records hold; a record that is [null], or that has for [createdAt] or
    [completedAt] an object without a primitive value, gives a TypeError.
    Nothing catches an exception: it leaves [loadTasks], and the
    constructor that called it, and the manager is then as it was before
    the call. *)
Theorem loadTasks_absent_or_malformed (env : nat -> Entropy) (m : TaskManager) :
  (getItem (localStorage m) = None \/ getItem (localStorage m) = Some [] ->
   loadTasks env m = Normal m /\
   loadTasks_any m = Unchanged /\
   exists m', TaskManager_new env (localStorage m) = Normal m' /\ tasks m' = []) /\
  (forall savedTasks,
      getItem (localStorage m) = Some savedTasks -> savedTasks <> [] ->
      JSON_parse savedTasks = None ->
      loadTasks env m = Throw SyntaxError /\
      loadTasks_any m = Thrown SyntaxError m /\
      TaskManager_new env (localStorage m) = Throw SyntaxError) /\
  (forall savedTasks j,
      getItem (localStorage m) = Some savedTasks -> savedTasks <> [] ->
      JSON_parse savedTasks = Some j -> (forall items, j <> JArray items) ->
      loadTasks env m = Throw TypeError /\
      loadTasks_any m = Thrown TypeError m /\
      TaskManager_new env (localStorage m) = Throw TypeError) /\
  (forall savedTasks records,
      getItem (localStorage m) = Some savedTasks -> savedTasks <> [] ->
      JSON_parse savedTasks = Some (JArray records) ->
      ((forall task, In task records -> record_loads task = true) ->
       loadTasks_any m = Replaced (List.length records)) /\
      (forall task, In task records -> record_loads task = false ->
       loadTasks_any m = Thrown TypeError m /\
       forall m', loadTasks env m <> Normal m')) /\
  (forall e this, loadTasks_any m = Thrown e this -> this = m) /\
  (forall m', loadTasks env m = Normal m' ->
              (loadTasks_any m = Unchanged /\ m' = m) \/
              (loadTasks_any m = Replaced (List.length (tasks m')) /\
               localStorage m' = localStorage m)) /\
  (forall e, loadTasks env m = Throw e -> loadTasks_any m = Thrown e m).
Proof.
  assert (forall savedTasks records,
             getItem (localStorage m) = Some savedTasks -> savedTasks <> [] ->
             JSON_parse savedTasks = Some (JArray records) ->
             loadTasks_any m
             = (if forallb record_loads records then Replaced (List.length records)
                else Thrown TypeError m) /\
             loadTasks env m
             = bind (load_records env 0 records) (fun ts => Normal (set_tasks ts m)))
    as Harray.
  { intros savedTasks records Hitem Hnonempty Hparse.
    unfold loadTasks_any, loadTasks. rewrite Hitem.
    destruct savedTasks; [congruence|]. rewrite Hparse. split; reflexivity. }
  split; [|split; [|split; [|split; [|split; [|split]]]]].
  - unfold TaskManager_new, loadTasks_any, loadTasks. cbn [localStorage].
    intros [-> | ->]; (split; [reflexivity|split; [reflexivity|eexists; split; reflexivity]]).
  - unfold TaskManager_new, loadTasks_any, loadTasks. cbn [localStorage].
    intros savedTasks -> Hnonempty Hparse.
    destruct savedTasks; [congruence|]. rewrite Hparse. repeat split.
  - unfold TaskManager_new, loadTasks_any, loadTasks. cbn [localStorage].
    intros savedTasks j -> Hnonempty Hparse Hnot_array.
    destruct savedTasks; [congruence|]. rewrite Hparse.
    destruct j; try (repeat split; reflexivity). destruct (Hnot_array items eq_refl).
  - intros savedTasks records Hitem Hnonempty Hparse.
    destruct (Harray savedTasks records Hitem Hnonempty Hparse) as [Hany Hload].
    split.
    + intros Hall. rewrite Hany.
      rewrite (proj2 (forallb_forall record_loads records) Hall). reflexivity.
    + intros task Hin Htask.
      assert (forallb record_loads records = false) as Hnot.
      { destruct (forallb record_loads records) eqn:Hall; [|reflexivity].
        rewrite (proj1 (forallb_forall record_loads records) Hall task Hin) in Htask.
        discriminate. }
      split; [rewrite Hany, Hnot; reflexivity|].
      intros m' Hnormal. rewrite Hload in Hnormal.
      pose proof (load_records_load env records 0) as Hrecords.
      destruct (load_records env 0 records) as [ts|x|]; try discriminate.
      destruct Hrecords as [Hall _]. congruence.
  - intros e this. unfold loadTasks_any.
    destruct (getItem (localStorage m)) as [[|c s]|]; try discriminate.
    destruct (JSON_parse (c :: s)) as [[| | | | records |]|];
      try (intros H; injection H as _ <-; reflexivity).
    destruct (forallb record_loads records); [discriminate|].
    intros H; injection H as _ <-; reflexivity.
  - intros m'.
    destruct (getItem (localStorage m)) as [[|c s]|] eqn:Hitem.
    + unfold loadTasks_any, loadTasks. rewrite Hitem.
      intros H. injection H as <-. left. split; reflexivity.
    + destruct (JSON_parse (c :: s)) as [[| | | | records |]|] eqn:Hparse;
        try (unfold loadTasks; rewrite Hitem, Hparse; discriminate).
      destruct (Harray (c :: s) records eq_refl) as [Hany Hload]; [discriminate|exact Hparse|].
      rewrite Hload, Hany.
      pose proof (load_records_load env records 0) as Hrecords.
      destruct (load_records env 0 records) as [ts|x|]; try discriminate.
      destruct Hrecords as [Hall Hlen]. cbn [bind].
      intros H. injection H as <-. right. rewrite Hall.
      cbn [tasks set_tasks]. rewrite Hlen. split; reflexivity.
    + unfold loadTasks_any, loadTasks. rewrite Hitem.
      intros H. injection H as <-. left. split; reflexivity.
  - intros e.
    destruct (getItem (localStorage m)) as [[|c s]|] eqn:Hitem;
      try (unfold loadTasks; rewrite Hitem; discriminate).
    destruct (JSON_parse (c :: s)) as [[| | | | records |]|] eqn:Hparse;
      try (unfold loadTasks_any, loadTasks; rewrite Hitem, Hparse;
           intros H; injection H as <-; reflexivity).
    destruct (Harray (c :: s) records eq_refl) as [Hany Hload]; [discriminate|exact Hparse|].
    rewrite Hload, Hany.
    pose proof (load_records_load env records 0) as Hrecords.
    destruct (load_records env 0 records) as [ts|x|]; try discriminate.
    destruct Hrecords as [-> ->]. cbn [bind].
    intros H. injection H as <-. reflexivity.
Qed.

Lemma loadTasks_absent_or_malformed_witness :
  (loadTasks (fun _ => morning) empty_store = Normal empty_store /\
   loadTasks_any empty_store = Unchanged /\
   exists m', TaskManager_new (fun _ => morning) (localStorage empty_store) = Normal m'
              /\ tasks m' = []) /\
  (loadTasks_any (store_with (js "{oops")) = Thrown SyntaxError (store_with (js "{oops")) /\
   TaskManager_new (fun _ => morning) (localStorage (store_with (js "{oops")))
   = Throw SyntaxError) /\
  (loadTasks_any (store_with (js "{}")) = Thrown TypeError (store_with (js "{}")) /\
   TaskManager_new (fun _ => morning) (localStorage (store_with (js "{}")))
   = Throw TypeError) /\
  loadTasks_any (store_with (js "[7,{}]")) = Replaced 2 /\
  loadTasks_any (store_with (js "[{},null]"))
  = Thrown TypeError (store_with (js "[{},null]")).
Proof.
  split; [|split; [|split; [|split]]].
  - destruct (loadTasks_absent_or_malformed (fun _ => morning) empty_store) as [H _].
    apply H. left. reflexivity.
  - destruct (loadTasks_absent_or_malformed (fun _ => morning) (store_with (js "{oops")))
      as (_ & H & _).
    destruct (H (js "{oops")) as (_ & Hany & Hnew);
      [reflexivity|discriminate|reflexivity|].
    split; [exact Hany|exact Hnew].
  - destruct (loadTasks_absent_or_malformed (fun _ => morning) (store_with (js "{}")))
      as (_ & _ & H & _).
    destruct (H (js "{}") (JObject [])) as (_ & Hany & Hnew);
      [reflexivity|discriminate|reflexivity|discriminate|].
    split; [exact Hany|exact Hnew].
  - destruct (loadTasks_absent_or_malformed (fun _ => morning) (store_with (js "[7,{}]")))
      as (_ & _ & _ & H & _).
    destruct (H (js "[7,{}]") [JNumber (js "7"); JObject []]) as [Hall _];
      [reflexivity|discriminate|reflexivity|].
    apply Hall. intros task [<-|[<-|[]]]; reflexivity.
  - destruct (loadTasks_absent_or_malformed (fun _ => morning)
                (store_with (js "[{},null]")))
      as (_ & _ & _ & H & _).
    destruct (H (js "[{},null]") [JObject []; JNull]) as [_ Hnull];
      [reflexivity|discriminate|reflexivity|].
    apply (Hnull JNull); [right; left; reflexivity|reflexivity].
Defined.

(** A record whose [createdAt] is an object with a property [toString] of
    its own cannot be made a Date; an array there is joined. *)
Example record_loads_dates :
  record_loads (JObject [(js "createdAt", JObject [(js "toString", JNull)])]) = false /\
  record_loads (JObject [(js "completedAt",
                          JArray [JBool true; JObject [(js "toString", JBool true)]])])
  = false /\
  record_loads (JObject [(js "createdAt", JArray [JNull; JObject [(js "valueOf", JNull)]])])
  = true /\
  record_loads (JString (js "buy milk")) = true.
Proof. repeat split. Qed.

(** C2 as it is written fails: with a snapshot cut short in local storage
    the constructor ends in a SyntaxError instead of an empty store. *)
Lemma truncated_snapshot_throws :
  JSON_parse truncated_snapshot = None /\
  loadTasks (fun _ => evening)
    (set_localStorage {| item_tasks := Some truncated_snapshot; setItem_calls := 0 |}
                      empty_store)
  = Throw SyntaxError /\
  TaskManager_new (fun _ => evening)
    {| item_tasks := Some truncated_snapshot; setItem_calls := 0 |}
  = Throw SyntaxError.
Proof.
  repeat split; vm_compute; reflexivity.
Qed.

(** * The store along a run *)

Lemma tasks_updateFastestTaskInfo (m : TaskManager) :
  tasks (updateFastestTaskInfo m) = tasks m /\
  localStorage (updateFastestTaskInfo m) = localStorage m /\
  taskInput (updateFastestTaskInfo m) = taskInput m.
Proof.
  unfold updateFastestTaskInfo. destruct (fastestTask (tasks m)); repeat split.
Qed.

Lemma toggle_found_absent (now : Z) (taskId : jsstring) (ts : list Task) :
  find (fun t => jsstring_eqb (id t) taskId) ts = None ->
  toggle_found now taskId ts = ts.
Proof.
  induction ts as [|t ts IH]; [reflexivity|].
  simpl. destruct (jsstring_eqb (id t) taskId); [discriminate|].
  intros H. rewrite (IH H). reflexivity.
Qed.

(** The tasks after a toggle, whether the id is found or not. *)
Lemma tasks_toggleTaskCompletion (now : Z) (taskId : jsstring) (m : TaskManager) :
  tasks (toggleTaskCompletion now taskId m) = toggle_found now taskId (tasks m).
Proof.
  unfold toggleTaskCompletion.
  destruct (find _ (tasks m)) eqn:Hfind.
  - rewrite (proj1 (tasks_updateFastestTaskInfo _)). reflexivity.
  - symmetry. apply toggle_found_absent. exact Hfind.
Qed.

Lemma toggle_found_ids (now : Z) (taskId : jsstring) (ts : list Task) :
  map id (toggle_found now taskId ts) = map id ts.
Proof.
  induction ts as [|t ts IH]; [reflexivity|].
  simpl. destruct (jsstring_eqb (id t) taskId); simpl; [reflexivity|].
  rewrite IH. reflexivity.
Qed.

Lemma toggle_found_consistent (now : Z) (taskId : jsstring) (ts : list Task) :
  Forall consistent ts -> Forall consistent (toggle_found now taskId ts).
Proof.
  induction 1 as [|t ts Ht Hts IH]; [constructor|].
  simpl. destruct (jsstring_eqb (id t) taskId).
  - constructor; [|exact Hts]. unfold consistent. simpl.
    destruct (completed t); reflexivity.
  - constructor; assumption.
Qed.

Lemma toggle_found_ok (now : Z) (taskId : jsstring) (ts : list Task) :
  valid_time now -> Forall task_ok ts -> Forall task_ok (toggle_found now taskId ts).
Proof.
  intros Hnow. induction 1 as [|t ts Ht Hts IH]; [constructor|].
  simpl. destruct (jsstring_eqb (id t) taskId).
  - constructor; [|exact Hts].
    destruct Ht as [Hc [Hcreated Hdone]].
    split; [|split].
    + unfold consistent. simpl. destruct (completed t); reflexivity.
    + exact Hcreated.
    + simpl. intros d. destruct (negb (completed t)); intros H; [|discriminate].
      injection H as <-. exact Hnow.
  - constructor; assumption.
Qed.

Lemma Forall_filter {A} (P : A -> Prop) (p : A -> bool) (l : list A) :
  Forall P l -> Forall P (filter p l).
Proof.
  rewrite !Forall_forall. intros H x Hx. apply filter_In in Hx. apply H, Hx.
Qed.

Lemma reload_ok (env : nat -> Entropy) (ts : list Task) (i : nat) :
  Forall task_ok ts -> Forall task_ok (reload env i ts).
Proof.
  intros H. revert i. induction H as [|t ts Ht Hts IH]; intros i; constructor;
    [exact Ht|apply IH].
Qed.

Lemma task_ok_valid (ts : list Task) : Forall task_ok ts -> Forall valid_dates ts.
Proof.
  apply Forall_impl. intros t [_ H]. exact H.
Qed.

(** Loading the text of tasks of the data model. *)
Lemma loadTasks_stored (env : nat -> Entropy) (m : TaskManager) (ts : list Task) :
  item_tasks (localStorage m) = Some (JSON_stringify (JArray (map Task_toJSON ts))) ->
  Forall valid_dates ts ->
  loadTasks env m = Normal (set_tasks (reload env 0 ts) m).
Proof.
  intros Hstored Hvalid. unfold loadTasks, getItem. rewrite Hstored.
  destruct (stringify_array_not_empty (map Task_toJSON ts)) as [r Hr].
  rewrite Hr. rewrite <- Hr.
  rewrite JSON_parse_stringify by apply tasks_number_free.
  rewrite load_records_Task_toJSON by exact Hvalid.
  reflexivity.
Qed.

Lemma loadTasks_ok (env : nat -> Entropy) (m m' : TaskManager) :
  store_ok m -> loadTasks env m = Normal m' -> store_ok m'.
Proof.
  intros [Htasks Hstored] Hload.
  destruct Hstored as [Hnone|(ts & Hsome & Hts)].
  - unfold loadTasks, getItem in Hload. rewrite Hnone in Hload.
    injection Hload as <-. split; [exact Htasks|left; exact Hnone].
  - rewrite (loadTasks_stored env m ts Hsome (task_ok_valid ts Hts)) in Hload.
    injection Hload as <-. split.
    + apply reload_ok. exact Hts.
    + right. exists ts. split; assumption.
Qed.

Lemma saveTasks_ok (m : TaskManager) :
  Forall task_ok (tasks m) -> store_ok (saveTasks m).
Proof.
  intros H. split; [exact H|]. right. exists (tasks m). split; [reflexivity|exact H].
Qed.

Lemma store_ok_same (m m' : TaskManager) :
  tasks m' = tasks m -> localStorage m' = localStorage m -> store_ok m -> store_ok m'.
Proof.
  unfold store_ok. intros -> ->. trivial.
Qed.

Lemma perform_ok (a : Action) (m m' : TaskManager) :
  clock_ok a -> store_ok m -> perform a m = Normal m' -> store_ok m'.
Proof.
  intros Hclock Hok Hperform. pose proof Hok as [Htasks Hstored].
  destruct a as [value | e | now taskId | taskId | | filter | | env | env];
    cbn [perform clock_ok] in *.
  - injection Hperform as <-. exact Hok.
  - injection Hperform as <-. unfold addTask.
    destruct (jsstring_eqb (String_trim (taskInput m)) []); [exact Hok|].
    apply (store_ok_same (saveTasks (set_taskInput []
             (set_tasks (push (tasks m) (Task_new e (String_trim (taskInput m)) None None None)) m))));
      [reflexivity|reflexivity|].
    apply saveTasks_ok. cbn [tasks set_taskInput set_tasks]. unfold push.
    apply Forall_app. split; [exact Htasks|].
    constructor; [|constructor].
    split; [reflexivity|]. split; [exact Hclock|]. intros d H. discriminate H.
  - injection Hperform as <-. unfold toggleTaskCompletion.
    destruct (find _ (tasks m)); [|exact Hok].
    eapply store_ok_same;
      [apply (proj1 (tasks_updateFastestTaskInfo _))
      |apply (proj1 (proj2 (tasks_updateFastestTaskInfo _)))|].
    + apply (store_ok_same (saveTasks (set_tasks (toggle_found now taskId (tasks m)) m)));
        [reflexivity|reflexivity|].
      apply saveTasks_ok. apply toggle_found_ok; assumption.
  - injection Hperform as <-. unfold deleteTask.
    eapply store_ok_same;
      [apply (proj1 (tasks_updateFastestTaskInfo _))
      |apply (proj1 (proj2 (tasks_updateFastestTaskInfo _)))|].
    + apply (store_ok_same (saveTasks (set_tasks
               (filter (fun task => negb (jsstring_eqb (id task) taskId)) (tasks m)) m)));
        [reflexivity|reflexivity|].
      apply saveTasks_ok. apply Forall_filter. exact Htasks.
  - injection Hperform as <-. unfold clearCompletedTasks.
    apply (store_ok_same (saveTasks (set_tasks
             (filter (fun task => negb (completed task)) (tasks m)) m)));
      [reflexivity|reflexivity|].
    apply saveTasks_ok. apply Forall_filter. exact Htasks.
  - injection Hperform as <-. exact Hok.
  - injection Hperform as <-. apply saveTasks_ok. exact Htasks.
  - apply (loadTasks_ok env m m' Hok Hperform).
  - unfold TaskManager_new in Hperform.
    destruct (loadTasks env _) as [m1| |] eqn:Hload; try discriminate.
    cbn [bind] in Hperform. injection Hperform as <-.
    eapply store_ok_same;
      [apply (proj1 (tasks_updateFastestTaskInfo _))
      |apply (proj1 (proj2 (tasks_updateFastestTaskInfo _)))|].
    + apply (store_ok_same m1); [reflexivity|reflexivity|].
      refine (loadTasks_ok env _ m1 _ Hload).
      split; [constructor|exact Hstored].
Qed.

Lemma run_ok (actions : list Action) (m m' : TaskManager) :
  Forall clock_ok actions -> store_ok m -> run actions m = Normal m' -> store_ok m'.
Proof.
  intros Hclock. revert m. induction Hclock as [|a actions Ha Hactions IH]; intros m Hok Hrun.
  - injection Hrun as <-. exact Hok.
  - cbn [run] in Hrun. destruct (perform a m) as [m1| |] eqn:Hperform; try discriminate.
    apply (IH m1); [|exact Hrun]. apply (perform_ok a m m1); assumption.
Qed.

(** On a store of the data model every action returns normally: what is
    in local storage was written by [saveTasks], and is read back. *)
Lemma perform_returns (a : Action) (m : TaskManager) :
  store_ok m -> exists m', perform a m = Normal m'.
Proof.
  intros [Htasks Hstored].
  destruct a as [value | e | now taskId | taskId | | filter | | env | env];
    cbn [perform]; try (eexists; reflexivity).
  - destruct Hstored as [Hnone|(ts & Hsome & Hts)].
    + exists m. unfold loadTasks, getItem. rewrite Hnone. reflexivity.
    + eexists. apply (loadTasks_stored env m ts Hsome (task_ok_valid ts Hts)).
  - unfold TaskManager_new.
    destruct Hstored as [Hnone|(ts & Hsome & Hts)].
    + unfold loadTasks, getItem. cbn [localStorage]. rewrite Hnone.
      eexists. reflexivity.
    + pose proof (loadTasks_stored env
                    (Build_TaskManager [] (js "all") [] [] [] (localStorage m))
                    ts Hsome (task_ok_valid ts Hts)) as Hload.
      rewrite Hload. eexists. reflexivity.
Qed.

Lemma run_returns (actions : list Action) (m : TaskManager) :
  Forall clock_ok actions -> store_ok m -> exists m', run actions m = Normal m'.
Proof.
  intros Hclock. revert m. induction Hclock as [|a actions Ha Hactions IH]; intros m Hok.
  - exists m. reflexivity.
  - destruct (perform_returns a m Hok) as [m1 Hperform].
    cbn [run]. rewrite Hperform. cbn [bind].
    apply IH. apply (perform_ok a m m1); assumption.
Qed.

(** Every run from the empty store ends in a store: no exception, nothing
    outside the model. *)
Lemma run_from_empty_store_returns (actions : list Action) :
  Forall clock_ok actions -> exists m, run actions empty_store = Normal m /\ reachable m.
Proof.
  intros Hclock.
  destruct (run_returns actions empty_store Hclock) as [m Hrun].
  - split; [constructor|left; reflexivity].
  - exists m. split; [exact Hrun|]. exists actions. split; assumption.
Qed.

(** Every store that a run reaches from the empty store is a store of the
    data model. *)
Lemma reachable_ok (m : TaskManager) : reachable m -> store_ok m.
Proof.
  intros (actions & Hclock & Hrun).
  apply (run_ok actions empty_store m Hclock); [|exact Hrun].
  split; [constructor|left; reflexivity].
Qed.

Lemma consistent_completionTime (t : Task) :
  consistent t ->
  (getCompletionTime t <> None <-> completed t = true) /\
  (completedAt t <> None <-> completed t = true).
Proof.
  unfold consistent, getCompletionTime.
  destruct (completed t), (completedAt t); simpl; intros H; try discriminate;
    split; split; congruence.
Qed.

(** C8. In every store reached from the empty store, a task has a
    completion time exactly when it is completed, and a completion date
    exactly when it is completed; this still holds after any toggle, so the
    date is gone when the flag is back to false. *)
Theorem reachable_completion_iff_completed (m : TaskManager) (Hreach : reachable m) :
  (forall t, In t (tasks m) ->
     (getCompletionTime t <> None <-> completed t = true) /\
     (completedAt t <> None <-> completed t = true)) /\
  (forall now taskId t, In t (tasks (toggleTaskCompletion now taskId m)) ->
     (completedAt t <> None <-> completed t = true) /\
     (completed t = false -> completedAt t = None)).
Proof.
  destruct (reachable_ok m Hreach) as [Htasks _].
  assert (Forall consistent (tasks m)) as Hc.
  { revert Htasks. apply Forall_impl. intros t [H _]. exact H. }
  split.
  - intros t Hin. apply consistent_completionTime.
    rewrite Forall_forall in Hc. apply Hc. exact Hin.
  - intros now taskId t Hin. rewrite tasks_toggleTaskCompletion in Hin.
    pose proof (toggle_found_consistent now taskId _ Hc) as Hc'.
    rewrite Forall_forall in Hc'. specialize (Hc' t Hin).
    destruct (consistent_completionTime t Hc') as [_ H]. split; [exact H|].
    intros Hfalse. destruct (completedAt t) eqn:Hd; [|reflexivity].
    destruct H as [H _]. rewrite H in Hfalse; [discriminate|discriminate].
Qed.

Lemma milk_done_reachable : reachable milk_done.
Proof.
  exists [EditInput (js "  buy milk "); AddTask morning;
          ToggleTaskCompletion 1793529300000 (js "mvxp1ac64fzyo82mvyr")].
  split.
  - repeat constructor; vm_compute; discriminate.
  - vm_compute. reflexivity.
Qed.

Lemma reachable_completion_iff_completed_witness :
  reachable milk_done /\
  Forall (fun t => (getCompletionTime t <> None <-> completed t = true) /\
                   (completedAt t <> None <-> completed t = true))
         (tasks milk_done).
Proof.
  split; [exact milk_done_reachable|].
  apply Forall_forall.
  exact (proj1 (reachable_completion_iff_completed milk_done milk_done_reachable)).
Defined.

(** * Toggling twice *)

(** The task of that id after two toggles: as before, but for a completed
    task the completion date is the time of the second toggle. *)
Lemma toggle_found_twice (now1 now2 : Z) (taskId : jsstring) (ts : list Task) :
  Forall consistent ts ->
  Forall2 (fun t t2 =>
             id t2 = id t /\ text t2 = text t /\ createdAt t2 = createdAt t /\
             completed t2 = completed t /\
             (completedAt t = None -> completedAt t2 = None))
          ts (toggle_found now2 taskId (toggle_found now1 taskId ts)).
Proof.
  induction 1 as [|t ts Ht Hts IH]; [constructor|].
  cbn [toggle_found]. destruct (jsstring_eqb (id t) taskId) eqn:Hid.
  - cbn [toggle_found id]. rewrite Hid. constructor.
    + cbn. repeat split.
      * apply negb_involutive.
      * unfold consistent in Ht. intros Hnone. rewrite Hnone in Ht. simpl in Ht.
        rewrite <- Ht. reflexivity.
    + clear. induction ts; constructor; [repeat split; trivial|assumption].
  - cbn [toggle_found]. rewrite Hid. constructor; [repeat split; trivial|exact IH].
Qed.

Lemma toggle_found_twice_completed (now1 now2 : Z) (taskId : jsstring) (ts : list Task)
      (t : Task) :
  find (fun t => jsstring_eqb (id t) taskId) ts = Some t ->
  completed t = true ->
  exists t2,
    find (fun t => jsstring_eqb (id t) taskId)
         (toggle_found now2 taskId (toggle_found now1 taskId ts)) = Some t2 /\
    completed t2 = true /\ completedAt t2 = Some now2.
Proof.
  induction ts as [|u ts IH]; [discriminate|].
  cbn [find toggle_found]. destruct (jsstring_eqb (id u) taskId) eqn:Hid.
  - intros H Hc. injection H as ->.
    cbn [toggle_found id find]. rewrite Hid. cbn [find id]. rewrite Hid.
    eexists. split; [reflexivity|]. cbn. rewrite Hc. split; reflexivity.
  - intros H Hc. cbn [toggle_found find]. rewrite Hid. cbn [find]. rewrite Hid.
    apply IH; assumption.
Qed.

(** C6. Two toggles of the same id in succession give every task of a
    reachable store its completion flag back, and leave a task without
    completion date without one.  A task that was completed gets the time
    of the second toggle as its completion date, whatever the date was
    before. *)
Theorem toggle_twice (m : TaskManager) (now1 now2 : Z) (taskId : jsstring)
        (Hreach : reachable m) :
  Forall2 (fun t t2 =>
             id t2 = id t /\ text t2 = text t /\ createdAt t2 = createdAt t /\
             completed t2 = completed t /\
             (completedAt t = None -> completedAt t2 = None))
          (tasks m)
          (tasks (toggleTaskCompletion now2 taskId (toggleTaskCompletion now1 taskId m))) /\
  (forall t, find (fun t => jsstring_eqb (id t) taskId) (tasks m) = Some t ->
             completed t = true ->
             exists t2,
               find (fun t => jsstring_eqb (id t) taskId)
                    (tasks (toggleTaskCompletion now2 taskId
                              (toggleTaskCompletion now1 taskId m))) = Some t2 /\
               completed t2 = true /\ completedAt t2 = Some now2).
Proof.
  rewrite !tasks_toggleTaskCompletion.
  destruct (reachable_ok m Hreach) as [Htasks _].
  split.
  - apply toggle_found_twice. revert Htasks. apply Forall_impl. intros t [H _]. exact H.
  - intros t. apply toggle_found_twice_completed.
Qed.

Lemma toggle_twice_witness :
  Forall2 (fun t t2 =>
             id t2 = id t /\ text t2 = text t /\ createdAt t2 = createdAt t /\
             completed t2 = completed t /\
             (completedAt t = None -> completedAt t2 = None))
          (tasks milk_done)
          (tasks (toggleTaskCompletion 1793529400000 (js "mvxp1ac64fzyo82mvyr")
                    (toggleTaskCompletion 1793529350000 (js "mvxp1ac64fzyo82mvyr")
                                          milk_done))) /\
  map completedAt (tasks milk_done) = [Some 1793529300000] /\
  map completedAt
      (tasks (toggleTaskCompletion 1793529400000 (js "mvxp1ac64fzyo82mvyr")
                (toggleTaskCompletion 1793529350000 (js "mvxp1ac64fzyo82mvyr")
                                      milk_done)))
  = [Some 1793529400000].
Proof.
  split; [|split; vm_compute; reflexivity].
  apply (toggle_twice milk_done 1793529350000 1793529400000
                      (js "mvxp1ac64fzyo82mvyr") milk_done_reachable).
Defined.

(** * Calls that change nothing *)

Lemma find_absent (taskId : jsstring) (ts : list Task) :
  (forall t, In t ts -> id t <> taskId) ->
  find (fun t => jsstring_eqb (id t) taskId) ts = None.
Proof.
  induction ts as [|t ts IH]; [reflexivity|].
  intros H. simpl.
  destruct (jsstring_eqb (id t) taskId) eqn:Hid.
  - apply jsstring_eqb_eq in Hid. destruct (H t (or_introl eq_refl) Hid).
  - apply IH. intros u Hu. apply H. right. exact Hu.
Qed.

(** C7. [addTask] on an input that is empty once trimmed, and
    [toggleTaskCompletion] on an id that no task has, return normally and
    leave the whole manager as it was: the tasks, and local storage with
    its count of writes. *)
Theorem rejected_calls_change_nothing (m : TaskManager) :
  (forall e, String_trim (taskInput m) = [] ->
     perform (AddTask e) m = Normal m /\
     tasks (addTask e m) = tasks m /\
     localStorage (addTask e m) = localStorage m) /\
  (forall now taskId, (forall t, In t (tasks m) -> id t <> taskId) ->
     perform (ToggleTaskCompletion now taskId) m = Normal m /\
     tasks (toggleTaskCompletion now taskId m) = tasks m /\
     localStorage (toggleTaskCompletion now taskId m) = localStorage m).
Proof.
  split.
  - intros e Hempty. cbn [perform]. unfold addTask. rewrite Hempty.
    repeat split.
  - intros now taskId Habsent. cbn [perform]. unfold toggleTaskCompletion.
    rewrite (find_absent taskId (tasks m) Habsent). repeat split.
Qed.

Lemma rejected_calls_change_nothing_witness :
  perform (AddTask evening) (set_taskInput (js "   ") milk_store)
  = Normal (set_taskInput (js "   ") milk_store) /\
  perform (ToggleTaskCompletion 1793529300000 (js "nosuchid")) milk_store
  = Normal milk_store.
Proof.
  split.
  - apply (rejected_calls_change_nothing (set_taskInput (js "   ") milk_store)).
    reflexivity.
  - apply (rejected_calls_change_nothing milk_store).
    intros t [<-|[]]. vm_compute. discriminate.
Defined.

(** * Ids *)

Lemma NoDup_ids_filter (p : Task -> bool) (ts : list Task) :
  NoDup (map id ts) -> NoDup (map id (filter p ts)).
Proof.
  induction ts as [|t ts IH]; [trivial|].
  simpl. intros H. inversion H as [|? ? Hnotin Hrest]; subst.
  destruct (p t); [|apply IH; exact Hrest].
  simpl. constructor; [|apply IH; exact Hrest].
  intros Hin. apply Hnotin.
  apply in_map_iff in Hin. destruct Hin as (u & Hu & Hin).
  apply filter_In in Hin. apply in_map_iff. exists u. tauto.
Qed.

Lemma load_record_id (e : Entropy) (task : JSON) (t : Task) :
  load_record e task = Normal t -> id t = new_id e.
Proof.
  unfold load_record.
  destruct task; try discriminate;
    destruct (arg_text _); try discriminate;
    destruct (arg_completed _); try discriminate;
    destruct (arg_createdAt _); try discriminate;
    destruct (arg_completedAt _); try discriminate;
    intros H; injection H as <-; reflexivity.
Qed.

(** The ids of loaded tasks come from the environment alone. *)
Lemma load_records_ids (env : nat -> Entropy) (records : list JSON) (i : nat)
      (ts : list Task) :
  load_records env i records = Normal ts ->
  map id ts = map (fun k => new_id (env k)) (seq i (List.length records)).
Proof.
  revert i ts. induction records as [|task records IH]; intros i ts.
  - intros H. injection H as <-. reflexivity.
  - cbn [load_records].
    destruct (load_record (env i) task) as [t| |] eqn:Ht; try discriminate.
    cbn [bind].
    destruct (load_records env (S i) records) as [ts'| |] eqn:Hts; try discriminate.
    cbn [bind]. intros H. injection H as <-.
    cbn [map List.length seq]. rewrite (load_record_id _ _ _ Ht), (IH _ _ Hts).
    reflexivity.
Qed.

Lemma loadTasks_ids (env : nat -> Entropy) (m m' : TaskManager) :
  loadTasks env m = Normal m' ->
  tasks m' = tasks m \/
  map id (tasks m') = map (fun k => new_id (env k)) (seq 0 (stored_count m)).
Proof.
  unfold loadTasks, stored_count.
  destruct (getItem (localStorage m)) as [[|c s]|].
  - intros H. injection H as <-. left. reflexivity.
  - destruct (JSON_parse (c :: s)) as [[| | | | records |]|]; try discriminate.
    destruct (load_records env 0 records) as [ts| |] eqn:Hts; try discriminate.
    cbn [bind]. intros H. injection H as <-. right.
    apply (load_records_ids env records 0 ts Hts).
  - intros H. injection H as <-. left. reflexivity.
Qed.

Lemma stored_count_same (m m' : TaskManager) :
  localStorage m' = localStorage m -> stored_count m' = stored_count m.
Proof.
  unfold stored_count. intros ->. reflexivity.
Qed.

(** ** The id of line 4 *)

Lemma digit_char_36_inj (d d' : Z) :
  0 <= d < 36 -> 0 <= d' < 36 -> digit_char d = digit_char d' -> d = d'.
Proof.
  unfold digit_char. intros Hd Hd'.
  destruct (Z.ltb_spec d 10), (Z.ltb_spec d' 10); intros Heq;
    apply Z2N.inj in Heq; lia.
Qed.

Lemma fixed_digits_36_inj (w : nat) (n n' : Z) :
  0 <= n < 36 ^ Z.of_nat w -> 0 <= n' < 36 ^ Z.of_nat w ->
  fixed_digits 36 w n [] = fixed_digits 36 w n' [] -> n = n'.
Proof.
  revert n n'. induction w as [|w IH]; intros n n' Hn Hn'.
  - cbn in Hn, Hn'. lia.
  - rewrite Nat2Z.inj_succ, Z.pow_succ_r in Hn, Hn' by lia.
    cbn [fixed_digits].
    rewrite (fixed_digits_app 36 w (n / 36)), (fixed_digits_app 36 w (n' / 36)).
    intros H. apply app_inj_tail in H. destruct H as [Hhigh Hlow].
    apply IH in Hhigh.
    + apply digit_char_36_inj in Hlow; try (apply Z.mod_pos_bound; lia).
      rewrite (Z.div_mod n 36), (Z.div_mod n' 36) by lia. congruence.
    + split; [apply Z.div_pos; lia|apply Z.div_lt_upper_bound; lia].
    + split; [apply Z.div_pos; lia|apply Z.div_lt_upper_bound; lia].
Qed.

Lemma fixed_digits_length (radix : Z) (w : nat) (n : Z) (acc : jsstring) :
  List.length (fixed_digits radix w n acc) = (w + List.length acc)%nat.
Proof.
  revert n acc. induction w as [|w IH]; intros n acc; [reflexivity|].
  cbn [fixed_digits]. rewrite IH. cbn [List.length]. lia.
Qed.

(** A number of [k + 1] digits in base 36 is written with these digits. *)
Lemma digits_of_fixed (k : nat) (fuel : nat) (n : Z) (acc : jsstring) :
  (k < fuel)%nat -> 36 ^ Z.of_nat k <= n < 36 ^ Z.of_nat (S k) ->
  digits_of 36 fuel n acc = fixed_digits 36 (S k) n acc.
Proof.
  revert fuel n acc. induction k as [|k IH]; intros fuel n acc Hfuel Hn;
    (destruct fuel as [|fuel]; [lia|]); cbn [digits_of fixed_digits].
  - change (36 ^ Z.of_nat 0) with 1 in Hn. change (36 ^ Z.of_nat 1) with 36 in Hn.
    rewrite Z.div_small by lia. reflexivity.
  - rewrite !Nat2Z.inj_succ in Hn. rewrite !Z.pow_succ_r in Hn by lia.
    assert (0 < 36 ^ Z.of_nat k) by (apply Z.pow_pos_nonneg; lia).
    assert (36 ^ Z.of_nat k <= n / 36 < 36 ^ Z.of_nat (S k)) as Hq.
    { rewrite Nat2Z.inj_succ, Z.pow_succ_r by lia.
      split; [apply Z.div_le_lower_bound; lia|apply Z.div_lt_upper_bound; lia]. }
    destruct (Z.eqb_spec (n / 36) 0) as [Hzero|_]; [lia|].
    rewrite (IH fuel (n / 36)) by (lia || exact Hq). reflexivity.
Qed.

Lemma Number_toString_eight_digits (n : Z) :
  36 ^ 7 <= n < 36 ^ 8 -> Number_toString 36 n = fixed_digits 36 8 n [].
Proof.
  intros Hn. unfold Number_toString.
  assert (0 < 36 ^ 7) by reflexivity.
  destruct (Z.ltb_spec n 0); [lia|].
  rewrite Z.abs_eq by lia.
  apply (digits_of_fixed 7); [|exact Hn].
  pose proof (Z.log2_le_mono (36 ^ 7) n (proj1 Hn)) as Hlog.
  change (Z.log2 (36 ^ 7)) with 36 in Hlog. lia.
Qed.

Lemma app_same_length {A} (a a' b b' : list A) :
  List.length a = List.length a' -> a ++ b = a' ++ b' -> a = a' /\ b = b'.
Proof.
  revert a'. induction a as [|x a IH]; intros [|x' a'] Hlen H; try discriminate.
  - split; [reflexivity|exact H].
  - injection H as -> H. injection Hlen as Hlen.
    destruct (IH a' Hlen H) as [-> ->]. split; reflexivity.
Qed.

(** While [Date.now()] has eight digits, two ids are the same only when
    both readings are. *)
Lemma new_id_readings (e1 e2 : Entropy) :
  eight_digits e1 -> eight_digits e2 -> new_id e1 = new_id e2 ->
  id_readings e1 = id_readings e2.
Proof.
  unfold eight_digits, new_id, id_readings. intros H1 H2.
  rewrite !Number_toString_eight_digits by assumption.
  intros H. apply app_same_length in H; [|rewrite !fixed_digits_length; reflexivity].
  destruct H as [Hnow Hrandom].
  apply (fixed_digits_36_inj 8) in Hnow; [|change (36 ^ Z.of_nat 8) with (36 ^ 8);
                                           assert (0 < 36 ^ 7) by reflexivity; lia..].
  rewrite Hnow, Hrandom. reflexivity.
Qed.

Lemma distinct_readings_ids (cs : list Entropy) :
  Forall eight_digits cs -> NoDup (map id_readings cs) -> NoDup (map new_id cs).
Proof.
  induction 1 as [|e cs He Hcs IH]; cbn [map]; intros Hdistinct; [constructor|].
  apply NoDup_cons_iff in Hdistinct. destruct Hdistinct as [Hnew Hrest].
  constructor; [|apply IH; exact Hrest].
  intros Hin. apply Hnew.
  apply in_map_iff in Hin. destruct Hin as (e' & Hid & He').
  apply in_map_iff. exists e'. split; [|exact He'].
  rewrite Forall_forall in Hcs. apply new_id_readings; auto.
Qed.

(** ** The ids of a run *)

Lemma ids_filter_incl (p : Task -> bool) (ts : list Task) :
  incl (map id (filter p ts)) (map id ts).
Proof.
  intros x Hx. apply in_map_iff in Hx. destruct Hx as (t & <- & Ht).
  apply filter_In in Ht. apply in_map, Ht.
Qed.

(** One action: the ids of the store stay different from each other, and
    they are ids that the constructor has made since the run began, when
    the constructor has made no id twice. *)
Lemma perform_constructed_ids (a : Action) (m m' : TaskManager) (before : list Entropy) :
  perform a m = Normal m' ->
  NoDup (map new_id (before ++ constructed a m)) ->
  NoDup (map id (tasks m)) -> incl (map id (tasks m)) (map new_id before) ->
  NoDup (map id (tasks m')) /\
  incl (map id (tasks m')) (map new_id (before ++ constructed a m)).
Proof.
  intros Hperform Hmade Hnodup Hincl.
  assert (incl (map id (tasks m)) (map new_id (before ++ constructed a m))) as Hincl'.
  { rewrite map_app. apply incl_appl. exact Hincl. }
  assert (NoDup (map new_id (constructed a m))) as Hnew.
  { rewrite map_app in Hmade. apply NoDup_app_remove_l in Hmade. exact Hmade. }
  destruct a as [value | e | now taskId | taskId | | filter | | env | env];
    cbn [perform] in Hperform.
  - injection Hperform as <-. split; assumption.
  - injection Hperform as <-. revert Hmade Hincl'. unfold addTask. cbn [constructed].
    destruct (jsstring_eqb (String_trim (taskInput m)) []); [split; assumption|].
    intros Hmade _.
    change (tasks (renderTasks _))
      with (push (tasks m) (Task_new e (String_trim (taskInput m)) None None None)).
    unfold push. rewrite !map_app in *. cbn [map Task_new id] in *.
    split.
    + apply NoDup_app; [exact Hnodup|repeat constructor; intros []|].
      intros x Hx [<-|[]].
      apply NoDup_remove_2 in Hmade. rewrite app_nil_r in Hmade.
      apply Hmade, Hincl, Hx.
    + apply incl_app; [apply incl_appl; exact Hincl|apply incl_appr, incl_refl].
  - injection Hperform as <-.
    rewrite tasks_toggleTaskCompletion, toggle_found_ids. split; assumption.
  - injection Hperform as <-. unfold deleteTask.
    rewrite (proj1 (tasks_updateFastestTaskInfo _)).
    split; [apply NoDup_ids_filter; exact Hnodup|].
    intros x Hx. apply Hincl'. apply (ids_filter_incl _ _ x Hx).
  - injection Hperform as <-.
    split; [apply NoDup_ids_filter; exact Hnodup|].
    intros x Hx. apply Hincl'. apply (ids_filter_incl _ _ x Hx).
  - injection Hperform as <-. split; assumption.
  - injection Hperform as <-. split; assumption.
  - cbn [constructed] in *. rewrite map_map in Hnew.
    destruct (loadTasks_ids env m m' Hperform) as [-> | ->]; [split; assumption|].
    split; [exact Hnew|].
    rewrite map_app, map_map. apply incl_appr, incl_refl.
  - cbn [constructed] in *. rewrite map_map in Hnew.
    unfold TaskManager_new in Hperform.
    destruct (loadTasks env _) as [m1| |] eqn:Hload; try discriminate.
    cbn [bind] in Hperform. injection Hperform as <-.
    rewrite (proj1 (tasks_updateFastestTaskInfo _)).
    change (tasks (renderTasks m1)) with (tasks m1).
    destruct (loadTasks_ids env _ m1 Hload) as [-> | ->].
    + split; [constructor|intros x []].
    + split; [exact Hnew|].
      rewrite map_app, map_map. apply incl_appr, incl_refl.
Qed.

Lemma run_constructed_ids (actions : list Action) (m m' : TaskManager)
      (before : list Entropy) :
  run actions m = Normal m' ->
  NoDup (map new_id (before ++ constructions actions m)) ->
  NoDup (map id (tasks m)) -> incl (map id (tasks m)) (map new_id before) ->
  NoDup (map id (tasks m')) /\
  incl (map id (tasks m')) (map new_id (before ++ constructions actions m)).
Proof.
  revert m before. induction actions as [|a actions IH]; intros m before Hrun Hmade Hnodup Hincl.
  - injection Hrun as <-. cbn [constructions]. rewrite app_nil_r. split; assumption.
  - cbn [run constructions] in *.
    destruct (perform a m) as [m1| |] eqn:Hperform; try discriminate.
    cbn [bind] in Hrun. rewrite app_assoc in *.
    destruct (perform_constructed_ids a m m1 before Hperform) as [Hnodup1 Hincl1]; trivial.
    { rewrite map_app in Hmade. apply NoDup_app_remove_r in Hmade. exact Hmade. }
    apply (IH m1 (before ++ constructed a m)); assumption.
Qed.

(** C9, as the code has it.  The id of a task is the value of [Date.now()]
    in base 36 followed by the digits of [Math.random()] in base 36.  While
    [Date.now()] has eight digits in base 36, two ids are the same exactly
    when both readings are.  So in a run from the empty store in which no
    two calls of the constructor read the same pair, the constructor makes
    no id twice, every id of the store is one of the ids it has made, and
    no two tasks of the store share an id.  A toggle changes no id. *)
Theorem distinct_readings_unique_ids (actions : list Action) (m : TaskManager)
        (Hrun : run actions empty_store = Normal m)
        (Hdigits : Forall eight_digits (constructions actions empty_store))
        (Hdistinct : NoDup (map id_readings (constructions actions empty_store))) :
  NoDup (map id (tasks m)) /\
  NoDup (map new_id (constructions actions empty_store)) /\
  incl (map id (tasks m)) (map new_id (constructions actions empty_store)) /\
  (forall now taskId,
      map id (tasks (toggleTaskCompletion now taskId m)) = map id (tasks m)) /\
  (forall e1 e2, eight_digits e1 -> eight_digits e2 ->
                 (new_id e1 = new_id e2 <-> id_readings e1 = id_readings e2)).
Proof.
  pose proof (distinct_readings_ids _ Hdigits Hdistinct) as Hmade.
  destruct (run_constructed_ids actions empty_store m [] Hrun) as [Hnodup Hincl];
    [exact Hmade|constructor|intros x []|].
  split; [exact Hnodup|]. split; [exact Hmade|]. split; [exact Hincl|].
  split.
  - intros now taskId. rewrite tasks_toggleTaskCompletion. apply toggle_found_ids.
  - intros e1 e2 H1 H2. split; [apply new_id_readings; assumption|].
    unfold id_readings, new_id. intros H.
    pose proof (f_equal fst H) as Hnow. pose proof (f_equal snd H) as Hrandom.
    cbn [fst snd] in Hnow, Hrandom. rewrite Hnow, Hrandom. reflexivity.
Qed.

Lemma two_day_constructions :
  constructions two_day_actions empty_store = [morning; noon; next_day 0; next_day 1].
Proof. vm_compute. reflexivity. Qed.

Lemma distinct_readings_unique_ids_witness :
  exists m,
    run two_day_actions empty_store = Normal m /\
    map id (tasks m) = [js "mvz4h5057d1c"; js "mvz4h5067d1c"] /\
    NoDup (map id (tasks m)).
Proof.
  eexists. split; [vm_compute; reflexivity|].
  split; [vm_compute; reflexivity|].
  apply (distinct_readings_unique_ids two_day_actions).
  - vm_compute. reflexivity.
  - rewrite two_day_constructions.
    repeat constructor; vm_compute; discriminate.
  - rewrite two_day_constructions.
    repeat (constructor; [cbn; intuition discriminate|]). constructor.
Defined.

(** Without the eight digits readings that differ can give the same id:
    the end of the time is taken for the start of the random number. *)
Example ids_of_two_widths :
  new_id {| new_Date := 0; Date_now := 36; Math_random := js "0.5x" |}
  = new_id {| new_Date := 0; Date_now := 1301; Math_random := js "0.x" |}.
Proof. vm_compute. reflexivity. Qed.

(** C9 as it is written fails: two tasks added within the same millisecond,
    for which the random generator gives the same number, have the same
    id. *)
Lemma same_readings_same_id :
  exists m,
    run twin_actions empty_store = Normal m /\
    reachable m /\
    map id (tasks m) = [js "mvxp1ac64fzyo82mvyr"; js "mvxp1ac64fzyo82mvyr"] /\
    ~ NoDup (map id (tasks m)).
Proof.
  eexists. split; [vm_compute; reflexivity|].
  split.
  - exists twin_actions. split; [|vm_compute; reflexivity].
    repeat constructor; vm_compute; discriminate.
  - split; [vm_compute; reflexivity|].
    intros H. inversion H as [|? ? Hnotin _]. apply Hnotin. left. reflexivity.
Qed.

(** * The examples of the written specification *)

Example scenario_add_toggle_clear :
  addTask morning (set_taskInput (js "  ") empty_store)
  = set_taskInput (js "  ") empty_store /\
  map (fun t => (text t, completed t)) (tasks milk_store) = [(js "buy milk", false)] /\
  map (fun t => (completed t, getCompletionTime t)) (tasks milk_done)
  = [(true, Some 3211)] /\
  tasks (clearCompletedTasks milk_done) = [].
Proof. repeat split; vm_compute; reflexivity. Qed.

Example message_for_the_fastest_task :
  fastestTaskInfo milk_done
  = js "Tarea m" ++ [225%N] ++ js "s r" ++ [225%N] ++ js "pida completada: "
       ++ [34%N] ++ js "buy milk" ++ [34%N] ++ js " en 3s".
Proof. vm_compute. reflexivity. Qed.

(** * More on the duration formatter *)

Lemma Array_join_not_empty (p : jsstring) (rest : list jsstring) (sep : jsstring) :
  p <> [] -> Array_join (p :: rest) sep <> [].
Proof.
  intros Hp. simpl. destruct rest; [exact Hp|].
  destruct p; [congruence|discriminate].
Qed.

Lemma unit_text_shown (v : Z) (letter : string) :
  v <> 0 -> unit_text v letter = [Number_toString 10 v ++ js letter].
Proof.
  intros Hv. unfold unit_text. destruct (Z.eqb_spec v 0); [contradiction|reflexivity].
Qed.

Lemma unit_text_hidden (letter : string) : unit_text 0 letter = [].
Proof. reflexivity. Qed.

Lemma unit_not_empty (v : Z) (c : ascii) : Number_toString 10 v ++ js (String c EmptyString) <> [].
Proof.
  intros H. apply app_eq_nil in H. destruct H as [_ H]. discriminate H.
Qed.

Lemma formatDuration_spec_empty (d h m s : Z) :
  formatDuration_spec d h m s = [] -> d = 0 /\ h = 0 /\ m = 0 /\ s = 0.
Proof.
  unfold formatDuration_spec. intros H.
  destruct (Z.eq_dec d 0) as [->|Hd].
  2:{ rewrite (unit_text_shown d "d" Hd) in H. cbn [app] in H.
      apply Array_join_not_empty in H; [destruct H|apply unit_not_empty]. }
  destruct (Z.eq_dec h 0) as [->|Hh].
  2:{ rewrite unit_text_hidden, (unit_text_shown h "h" Hh) in H. cbn [app] in H.
      apply Array_join_not_empty in H; [destruct H|apply unit_not_empty]. }
  destruct (Z.eq_dec m 0) as [->|Hm].
  2:{ rewrite !unit_text_hidden, (unit_text_shown m "m" Hm) in H. cbn [app] in H.
      apply Array_join_not_empty in H; [destruct H|apply unit_not_empty]. }
  destruct (Z.eq_dec s 0) as [->|Hs].
  2:{ rewrite !unit_text_hidden, (unit_text_shown s "s" Hs) in H. cbn [app] in H.
      apply Array_join_not_empty in H; [destruct H|apply unit_not_empty]. }
  repeat split.
Qed.

(** A negative duration has no unit above zero. *)
Lemma formatDuration_below_zero (ms : Z) : ms < 0 -> formatDuration (Some ms) = [].
Proof.
  intros Hneg. unfold formatDuration.
  destruct (Z.eqb_spec ms 0); [reflexivity|].
  change (1000 * 60 * 60 * 24) with 86400000.
  change (1000 * 60 * 60) with 3600000.
  change (1000 * 60) with 60000.
  assert (forall a b, a < 0 -> 0 < b -> Z.rem a b <= 0) as Hrem.
  { intros a b Ha Hb. pose proof (Z.rem_nonpos a b ltac:(lia) ltac:(lia)). lia. }
  assert (ms / 1000 < 0) as H1 by (apply Z.div_lt_upper_bound; lia).
  assert (ms / 60000 < 0) as H2 by (apply Z.div_lt_upper_bound; lia).
  assert (ms / 3600000 < 0) as H3 by (apply Z.div_lt_upper_bound; lia).
  assert (ms / 86400000 < 0) as H4 by (apply Z.div_lt_upper_bound; lia).
  pose proof (Hrem _ 60 H1 ltac:(lia)).
  pose proof (Hrem _ 60 H2 ltac:(lia)).
  pose proof (Hrem _ 24 H3 ltac:(lia)).
  destruct (Z.ltb_spec 0 (ms / 86400000)); [lia|].
  destruct (Z.ltb_spec 0 (Z.rem (ms / 3600000) 24)); [lia|].
  destruct (Z.ltb_spec 0 (Z.rem (ms / 60000) 60)); [lia|].
  destruct (Z.ltb_spec 0 (Z.rem (ms / 1000) 60)); [lia|].
  reflexivity.
Qed.

(** Under one second, zero and negative durations included, nothing is
    shown. *)
Lemma formatDuration_under_a_second (ms : Z) : ms < 1000 -> formatDuration (Some ms) = [].
Proof.
  intros H. destruct (Z.lt_ge_cases ms 0) as [Hneg|Hpos].
  - apply formatDuration_below_zero. exact Hneg.
  - rewrite formatDuration_unfold by exact Hpos.
    rewrite !Z.div_small by lia. reflexivity.
Qed.

(** X1. The formatter returns the empty string exactly for the durations
    under one second: zero, the negative ones, and those from 1 to 999 ms;
    from one second on something is shown. *)
Theorem formatDuration_empty_iff (ms : Z) :
  formatDuration (Some ms) = [] <-> ms < 1000.
Proof.
  split; [|apply formatDuration_under_a_second].
  intros Hempty. destruct (Z.lt_ge_cases ms 1000) as [Hlt|Hge]; [exact Hlt|exfalso].
  rewrite formatDuration_unfold in Hempty by lia.
  apply formatDuration_spec_empty in Hempty.
  destruct Hempty as (Hd & Hh & Hm & Hs).
  revert Hd Hh Hm Hs. Z.div_mod_to_equations. lia.
Qed.

(** X2. Only whole seconds count: a duration and the same duration cut down
    to the second are shown alike, for every integer. *)
Theorem formatDuration_whole_seconds (ms : Z) :
  formatDuration (Some ms) = formatDuration (Some (1000 * (ms / 1000))).
Proof.
  destruct (Z.lt_ge_cases ms 0) as [Hneg|Hpos].
  - rewrite (formatDuration_below_zero ms Hneg).
    symmetry. apply formatDuration_below_zero.
    assert (ms / 1000 < 0) by (apply Z.div_lt_upper_bound; lia). lia.
  - assert (0 <= ms / 1000) as Hq by (apply Z.div_pos; lia).
    rewrite !formatDuration_unfold by lia.
    assert (forall k, 0 < k -> (1000 * (ms / 1000)) / (1000 * k) = ms / (1000 * k)) as Hk.
    { intros k Hk. rewrite <- !Z.div_div by lia.
      rewrite (Z.mul_comm 1000), Z.div_mul by lia. reflexivity. }
    change 86400000 with (1000 * 86400). change 3600000 with (1000 * 3600).
    change 60000 with (1000 * 60).
    rewrite !Hk by lia.
    replace (1000 * (ms / 1000) / 1000) with (ms / 1000)
      by (rewrite (Z.mul_comm 1000), Z.div_mul; lia).
    reflexivity.
Qed.

(** * What each operation does *)

Lemma trim_start_head (s : jsstring) (c : N) (r : jsstring) :
  trim_start s = c :: r -> is_whitespace c = false.
Proof.
  induction s as [|a s IH]; simpl; [discriminate|].
  destruct (is_whitespace a) eqn:Ha; [exact IH|].
  intros H. injection H as <- _. exact Ha.
Qed.

Lemma trim_start_suffix (s : jsstring) : exists p, s = p ++ trim_start s.
Proof.
  induction s as [|a s [p IH]]; [exists []; reflexivity|].
  simpl. destruct (is_whitespace a).
  - exists (a :: p). simpl. f_equal. exact IH.
  - exists []. reflexivity.
Qed.

(** What [trim] returns has no white space at its ends. *)
Lemma String_trim_no_edge_space (s : jsstring) : no_edge_space (String_trim s).
Proof.
  unfold String_trim. set (u := trim_start s). split.
  - intros c r H.
    apply (f_equal (@rev N)) in H. rewrite rev_involutive in H. simpl in H.
    destruct (trim_start_suffix (rev u)) as [p Hp]. rewrite H in Hp.
    apply (f_equal (@rev N)) in Hp. rewrite rev_involutive in Hp.
    rewrite !rev_app_distr in Hp. simpl in Hp.
    apply (trim_start_head s c _ Hp).
  - intros c r H.
    apply (f_equal (@rev N)) in H. rewrite rev_involutive, rev_app_distr in H.
    simpl in H. apply (trim_start_head _ c _ H).
Qed.

Lemma renderTasks_keeps (m : TaskManager) :
  tasks (renderTasks m) = tasks m /\
  localStorage (renderTasks m) = localStorage m /\
  taskInput (renderTasks m) = taskInput m /\
  currentFilter (renderTasks m) = currentFilter m /\
  fastestTaskInfo (renderTasks m) = fastestTaskInfo m.
Proof. repeat split. Qed.

Lemma renderTasks_rendered (m : TaskManager) : rendered (renderTasks m).
Proof. reflexivity. Qed.

Lemma updateFastestTaskInfo_rendered (m : TaskManager) :
  rendered m -> rendered (updateFastestTaskInfo m).
Proof.
  unfold rendered, updateFastestTaskInfo. destruct (fastestTask (tasks m)); trivial.
Qed.

Lemma updateFastestTaskInfo_keeps (m : TaskManager) :
  currentFilter (updateFastestTaskInfo m) = currentFilter m /\
  taskList (updateFastestTaskInfo m) = taskList m.
Proof.
  unfold updateFastestTaskInfo. destruct (fastestTask (tasks m)); split; reflexivity.
Qed.

(** X3. [addTask] on an input that is not blank puts one task at the end
    of the store and leaves the others as they are.  The new task has the
    trimmed input as its text, which is not empty and has no white space at
    its ends; it is pending, without completion date, created at the
    reading of the clock.  The input field is emptied, local storage is
    written once, with the new list of tasks, and the page shows the new
    store. *)
Theorem addTask_appends (e : Entropy) (m : TaskManager)
        (Htext : String_trim (taskInput m) <> []) :
  tasks (addTask e m)
  = tasks m ++ [ {| id := new_id e; text := String_trim (taskInput m);
                    completed := false; createdAt := new_Date e;
                    completedAt := None |} ] /\
  no_edge_space (String_trim (taskInput m)) /\
  taskInput (addTask e m) = [] /\
  saved (addTask e m) /\
  setItem_calls (localStorage (addTask e m)) = S (setItem_calls (localStorage m)) /\
  rendered (addTask e m).
Proof.
  unfold addTask.
  destruct (jsstring_eqb (String_trim (taskInput m)) []) eqn:Hblank.
  - apply jsstring_eqb_eq in Hblank. contradiction.
  - split; [reflexivity|]. split; [apply String_trim_no_edge_space|].
    repeat split.
Qed.

Lemma addTask_appends_witness :
  map (fun t => (text t, completed t, createdAt t, completedAt t))
      (tasks (addTask noon (set_taskInput (js " call mum  ") milk_store)))
  = [ (js "buy milk", false, 1793529296789, None);
      (js "call mum", false, 1793536496789, None) ] /\
  setItem_calls (localStorage (addTask noon (set_taskInput (js " call mum  ") milk_store)))
  = 2%nat.
Proof.
  pose proof (addTask_appends noon (set_taskInput (js " call mum  ") milk_store)) as H.
  destruct H as (Htasks & _ & _ & _ & Hcalls & _); [vm_compute; discriminate|].
  split.
  - rewrite Htasks. vm_compute. reflexivity.
  - rewrite Hcalls. vm_compute. reflexivity.
Defined.

Lemma toggle_found_first (now : Z) (taskId : jsstring) (ts : list Task) (t : Task) :
  find (fun t => jsstring_eqb (id t) taskId) ts = Some t ->
  exists before after,
    ts = before ++ t :: after /\
    (forall u, In u before -> id u <> taskId) /\
    id t = taskId /\
    toggle_found now taskId ts = before ++ toggled now t :: after.
Proof.
  induction ts as [|u ts IH]; [discriminate|].
  cbn [find toggle_found]. destruct (jsstring_eqb (id u) taskId) eqn:Hid.
  - intros H. injection H as ->. exists [], ts.
    apply jsstring_eqb_eq in Hid. repeat split; trivial. intros v [].
  - intros H. destruct (IH H) as (before & after & -> & Hbefore & Ht & ->).
    exists (u :: before), after. repeat split; trivial.
    intros v [<-|Hv]; [apply jsstring_eqb_neq; exact Hid|apply Hbefore; exact Hv].
Qed.

(** X4. [toggleTaskCompletion] with an id that a task has changes the first
    task of that id and no other: its flag is flipped; a task that was
    pending gets the reading of the clock as completion date, so its
    completion time is that reading less its creation date; a task that was
    completed loses its date.  Local storage is written once, with the new
    list, and the page shows the new store. *)
Theorem toggle_flips_first_match (now : Z) (taskId : jsstring) (m : TaskManager) (t : Task)
        (Hfind : find (fun t => jsstring_eqb (id t) taskId) (tasks m) = Some t) :
  exists before after,
    tasks m = before ++ t :: after /\
    (forall u, In u before -> id u <> taskId) /\
    id t = taskId /\
    tasks (toggleTaskCompletion now taskId m) = before ++ toggled now t :: after /\
    getCompletionTime (toggled now t)
    = (if completed t then None else Some (now - createdAt t)) /\
    saved (toggleTaskCompletion now taskId m) /\
    setItem_calls (localStorage (toggleTaskCompletion now taskId m))
    = S (setItem_calls (localStorage m)) /\
    rendered (toggleTaskCompletion now taskId m).
Proof.
  destruct (toggle_found_first now taskId (tasks m) t Hfind)
    as (before & after & Hsplit & Hbefore & Hid & Htoggle).
  exists before, after.
  unfold toggleTaskCompletion. rewrite Hfind.
  split; [exact Hsplit|]. split; [exact Hbefore|]. split; [exact Hid|].
  split.
  { rewrite (proj1 (tasks_updateFastestTaskInfo _)). exact Htoggle. }
  split.
  { unfold getCompletionTime, toggled. cbn. destruct (completed t); reflexivity. }
  split.
  { unfold saved. rewrite (proj1 (proj2 (tasks_updateFastestTaskInfo _))),
      (proj1 (tasks_updateFastestTaskInfo _)). reflexivity. }
  split.
  { rewrite (proj1 (proj2 (tasks_updateFastestTaskInfo _))). reflexivity. }
  apply updateFastestTaskInfo_rendered, renderTasks_rendered.
Qed.

Lemma toggle_flips_first_match_witness :
  exists before after,
    tasks milk_store = before ++ milk_task :: after /\
    tasks (toggleTaskCompletion 1793529300000 (js "mvxp1ac64fzyo82mvyr") milk_store)
    = before ++ toggled 1793529300000 milk_task :: after /\
    getCompletionTime (toggled 1793529300000 milk_task) = Some 3211.
Proof.
  destruct (toggle_flips_first_match 1793529300000 (js "mvxp1ac64fzyo82mvyr") milk_store
              milk_task)
    as (before & after & Hsplit & _ & _ & Htoggle & Htime & _).
  - vm_compute. reflexivity.
  - exists before, after. split; [exact Hsplit|]. split; [exact Htoggle|].
    rewrite Htime. vm_compute. reflexivity.
Defined.

(** What [filter] keeps stays in the order it had. *)
Lemma filter_keeps_order {A} (p : A -> bool) (l l1 l2 l3 : list A) (a b : A) :
  filter p l = l1 ++ a :: l2 ++ b :: l3 ->
  exists k1 k2 k3, l = k1 ++ a :: k2 ++ b :: k3.
Proof.
  intros H.
  destruct (filter_split p l l1 (l2 ++ b :: l3) a H) as (k1 & r & -> & _ & Hr).
  destruct (filter_split p r l2 l3 b Hr) as (k2 & k3 & -> & _ & _).
  exists k1, k2, k3. reflexivity.
Qed.

Lemma filter_twice {A} (p : A -> bool) (l : list A) : filter p (filter p l) = filter p l.
Proof.
  induction l as [|a l IH]; [reflexivity|].
  simpl. destruct (p a) eqn:Hp; [|exact IH]. simpl. rewrite Hp, IH. reflexivity.
Qed.

Lemma filter_all {A} (p : A -> bool) (l : list A) :
  (forall x, In x l -> p x = true) -> filter p l = l.
Proof.
  induction l as [|a l IH]; [reflexivity|].
  intros H. simpl. rewrite (H a (or_introl eq_refl)).
  f_equal. apply IH. intros x Hx. apply H. right. exact Hx.
Qed.

Lemma tasks_deleteTask (taskId : jsstring) (m : TaskManager) :
  tasks (deleteTask taskId m)
  = filter (fun task => negb (jsstring_eqb (id task) taskId)) (tasks m).
Proof.
  unfold deleteTask. rewrite (proj1 (tasks_updateFastestTaskInfo _)). reflexivity.
Qed.

(** X5. [deleteTask] removes every task of that id, not only the first, and
    keeps the others in their order.  With an id that no task has the
    tasks stay as they are, but local storage is written all the same: each
    call writes once, the tasks that are left.  A second call with the same
    id removes nothing more. *)
Theorem deleteTask_removes_every_match (taskId : jsstring) (m : TaskManager) :
  (forall t, In t (tasks (deleteTask taskId m)) <-> In t (tasks m) /\ id t <> taskId) /\
  (forall a b l1 l2 l3,
      tasks (deleteTask taskId m) = l1 ++ a :: l2 ++ b :: l3 ->
      exists k1 k2 k3, tasks m = k1 ++ a :: k2 ++ b :: k3) /\
  ((forall t, In t (tasks m) -> id t <> taskId) -> tasks (deleteTask taskId m) = tasks m) /\
  tasks (deleteTask taskId (deleteTask taskId m)) = tasks (deleteTask taskId m) /\
  saved (deleteTask taskId m) /\
  setItem_calls (localStorage (deleteTask taskId m)) = S (setItem_calls (localStorage m)) /\
  rendered (deleteTask taskId m).
Proof.
  split.
  { intros t. rewrite tasks_deleteTask, filter_In, negb_true_iff, jsstring_eqb_neq.
    reflexivity. }
  split.
  { intros a b l1 l2 l3. rewrite tasks_deleteTask. apply filter_keeps_order. }
  split.
  { intros Habsent. rewrite tasks_deleteTask. apply filter_all.
    intros t Ht. apply negb_true_iff, jsstring_eqb_neq, Habsent, Ht. }
  split.
  { rewrite !tasks_deleteTask. apply filter_twice. }
  split.
  { unfold saved, deleteTask.
    rewrite (proj1 (proj2 (tasks_updateFastestTaskInfo _))),
      (proj1 (tasks_updateFastestTaskInfo _)). reflexivity. }
  split.
  { unfold deleteTask. rewrite (proj1 (proj2 (tasks_updateFastestTaskInfo _))).
    reflexivity. }
  unfold deleteTask. apply updateFastestTaskInfo_rendered, renderTasks_rendered.
Qed.

Lemma fastestTask_none (ts : list Task) :
  (forall t, In t ts -> getCompletionTime t = None) -> fastestTask ts = None.
Proof.
  intros Hall. rewrite fastestTask_unfold.
  destruct (filter _ ts) as [|x rest] eqn:Hf; [reflexivity|].
  assert (In x (filter (fun t => is_some (getCompletionTime t)) ts)) as Hx
      by (rewrite Hf; left; reflexivity).
  apply filter_In in Hx. destruct Hx as [Hin Ht].
  rewrite (Hall x Hin) in Ht. discriminate.
Qed.

(** X6. [clearCompletedTasks] keeps exactly the pending tasks, in their
    order, and writes local storage once.  It does not call
    [updateFastestTaskInfo]: no task of the store has a completion time any
    more, yet the line about the fastest task stays as it was. *)
Theorem clearCompletedTasks_keeps_pending (m : TaskManager) :
  (forall t, In t (tasks (clearCompletedTasks m)) <-> In t (tasks m) /\ completed t = false) /\
  (forall a b l1 l2 l3,
      tasks (clearCompletedTasks m) = l1 ++ a :: l2 ++ b :: l3 ->
      exists k1 k2 k3, tasks m = k1 ++ a :: k2 ++ b :: k3) /\
  fastestTask (tasks (clearCompletedTasks m)) = None /\
  fastestTaskInfo (clearCompletedTasks m) = fastestTaskInfo m /\
  tasks (clearCompletedTasks (clearCompletedTasks m)) = tasks (clearCompletedTasks m) /\
  saved (clearCompletedTasks m) /\
  setItem_calls (localStorage (clearCompletedTasks m)) = S (setItem_calls (localStorage m)) /\
  rendered (clearCompletedTasks m).
Proof.
  assert (forall t, In t (tasks (clearCompletedTasks m))
                    <-> In t (tasks m) /\ completed t = false) as Hin.
  { intros t. cbn [clearCompletedTasks renderTasks saveTasks set_taskList
                   set_localStorage set_tasks tasks].
    rewrite filter_In, negb_true_iff. reflexivity. }
  split; [exact Hin|].
  split; [intros a b l1 l2 l3; apply filter_keeps_order|].
  split.
  { apply fastestTask_none. intros t Ht. apply Hin in Ht. destruct Ht as [_ Hc].
    unfold getCompletionTime. rewrite Hc. reflexivity. }
  split; [reflexivity|].
  split; [apply filter_twice|].
  repeat split.
Qed.

Example stale_fastest_line :
  tasks (clearCompletedTasks milk_done) = [] /\
  fastestTaskInfo (clearCompletedTasks milk_done) = fastest_line (js "buy milk") (js "3s").
Proof. split; vm_compute; reflexivity. Qed.

Lemma tasksToShow_same (m m' : TaskManager) :
  tasks m' = tasks m -> currentFilter m' = currentFilter m -> tasksToShow m' = tasksToShow m.
Proof.
  unfold tasksToShow. intros -> ->. reflexivity.
Qed.

(** X7. [filterTasks] changes the view and nothing else: the tasks, the
    input field, the line about the fastest task and local storage, with its
    count of writes, stay as they are, and of two filters in a row the last
    one wins.  A filter name other than [completed] and [pending] shows what
    [all] shows. *)
Theorem filterTasks_changes_the_view_only (filter : jsstring) (m : TaskManager) :
  tasks (filterTasks filter m) = tasks m /\
  localStorage (filterTasks filter m) = localStorage m /\
  taskInput (filterTasks filter m) = taskInput m /\
  fastestTaskInfo (filterTasks filter m) = fastestTaskInfo m /\
  currentFilter (filterTasks filter m) = filter /\
  rendered (filterTasks filter m) /\
  (forall earlier, filterTasks filter (filterTasks earlier m) = filterTasks filter m) /\
  (filter <> js "completed" -> filter <> js "pending" ->
   taskList (filterTasks filter m) = taskList (filterTasks (js "all") m) /\
   Permutation (tasksToShow (filterTasks filter m)) (tasks m)).
Proof.
  repeat split.
  - unfold filterTasks, renderTasks, tasksToShow.
    cbn [currentFilter tasks set_currentFilter set_taskList].
    apply jsstring_eqb_neq in H, H0. rewrite H, H0. reflexivity.
  - rewrite tasksToShow_unfold. unfold matches_filter.
    cbn [currentFilter tasks filterTasks set_currentFilter set_taskList renderTasks].
    apply jsstring_eqb_neq in H, H0. rewrite H, H0. rewrite filter_true.
    apply (Array_sort_perm createdAt).
Qed.

Lemma filterTasks_changes_the_view_only_witness :
  taskList (filterTasks (js "done") tie_store) = taskList (filterTasks (js "all") tie_store) /\
  map taskText_textContent (taskList (filterTasks (js "done") tie_store))
  = [js "call mum"; js "buy milk"].
Proof.
  split.
  - apply (filterTasks_changes_the_view_only (js "done") tie_store); discriminate.
  - vm_compute. reflexivity.
Defined.

Lemma filter_none {A} (p : A -> bool) (l : list A) :
  (forall x, In x l -> p x = false) -> filter p l = [].
Proof.
  induction l as [|a l IH]; [reflexivity|].
  intros H. simpl. rewrite (H a (or_introl eq_refl)).
  apply IH. intros x Hx. apply H. right. exact Hx.
Qed.

(** X8. Deleting the task that [addTask] has just added gives back the
    tasks of before, when no older task has the new id; a task that shares
    the id is deleted with it. *)
Theorem deleteTask_undoes_addTask (e : Entropy) (m : TaskManager)
        (Htext : String_trim (taskInput m) <> [])
        (Hfresh : forall t, In t (tasks m) -> id t <> new_id e) :
  tasks (deleteTask (new_id e) (addTask e m)) = tasks m.
Proof.
  rewrite tasks_deleteTask. unfold addTask.
  destruct (jsstring_eqb (String_trim (taskInput m)) []) eqn:Hblank.
  { apply jsstring_eqb_eq in Hblank. contradiction. }
  cbn [tasks renderTasks saveTasks set_taskList set_localStorage set_taskInput set_tasks].
  unfold push. rewrite filter_app. cbn [filter Task_new id].
  rewrite jsstring_eqb_refl. cbn [negb]. rewrite app_nil_r.
  apply filter_all. intros t Ht.
  apply negb_true_iff, jsstring_eqb_neq, Hfresh, Ht.
Qed.

Lemma deleteTask_undoes_addTask_witness :
  tasks (deleteTask (new_id noon) (addTask noon (set_taskInput (js "call mum") milk_store)))
  = tasks (set_taskInput (js "call mum") milk_store).
Proof.
  apply (deleteTask_undoes_addTask noon (set_taskInput (js "call mum") milk_store)).
  - vm_compute. discriminate.
  - intros t [<-|[]]. vm_compute. discriminate.
Defined.

Example deleteTask_removes_the_twin :
  tasks (deleteTask (new_id morning)
           (addTask morning (set_taskInput (js "call mum") milk_store))) = [].
Proof. vm_compute. reflexivity. Qed.

(** * The line about the fastest task, and the list of the page *)

(** The task that the query returns is a task of the list, and no task of
    the list has a smaller completion time. *)
Lemma fastestTask_found (ts : list Task) (best : Task) :
  fastestTask ts = Some best ->
  In best ts /\
  exists d, getCompletionTime best = Some d /\
            forall u d', In u ts -> getCompletionTime u = Some d' -> d <= d'.
Proof.
  rewrite fastestTask_unfold.
  set (timed := fun t => is_some (getCompletionTime t)).
  destruct (filter timed ts) as [|x rest] eqn:Hf; [discriminate|].
  intros Hbest. simpl in Hbest. injection Hbest as Hbest.
  assert (Forall (fun t => getCompletionTime t <> None) (x :: rest)) as Hall.
  { rewrite <- Hf. apply Forall_forall. intros t Ht.
    apply filter_In in Ht. destruct Ht as [_ Ht]. unfold timed in Ht.
    destruct (getCompletionTime t); [discriminate|discriminate Ht]. }
  destruct (reduce_keeps_last_minimum rest x Hall) as (l1 & l2 & Heq & Hb & Ha).
  rewrite Hbest in *.
  assert (In best (filter timed ts)) as Hin by (rewrite Hf, Heq; apply in_elt).
  apply filter_In in Hin. destruct Hin as [Hin Htimed].
  split; [exact Hin|].
  unfold timed in Htimed. destruct (getCompletionTime best) as [d|] eqn:Hd; [|discriminate].
  exists d. split; [reflexivity|].
  intros u d' Hu Hud.
  assert (In u (l1 ++ best :: l2)) as Hul.
  { rewrite <- Heq, <- Hf. apply filter_In. split; [exact Hu|].
    unfold timed. rewrite Hud. reflexivity. }
  apply in_app_or in Hul. destruct Hul as [Hl|[<-|Hl]].
  - specialize (Hb u Hl). unfold time_value in Hb. rewrite Hd, Hud in Hb. exact Hb.
  - rewrite Hd in Hud. injection Hud as <-. lia.
  - specialize (Ha u Hl). unfold time_value in Ha. rewrite Hd, Hud in Ha. lia.
Qed.

Lemma fastestTask_some (ts : list Task) (t : Task) :
  In t ts -> getCompletionTime t <> None -> fastestTask ts <> None.
Proof.
  intros Hin Ht Hnone. rewrite fastestTask_unfold in Hnone.
  assert (In t (filter (fun t => is_some (getCompletionTime t)) ts)) as Hf.
  { apply filter_In. split; [exact Hin|]. destruct (getCompletionTime t); [reflexivity|congruence]. }
  destruct (filter _ ts); [destruct Hf|discriminate].
Qed.

Lemma updateFastestTaskInfo_line (m : TaskManager) :
  fastestTaskInfo (updateFastestTaskInfo m) = line_of (tasks m).
Proof.
  unfold updateFastestTaskInfo, line_of. destruct (fastestTask (tasks m)); reflexivity.
Qed.

Lemma updateFastestTaskInfo_up_to_date (m : TaskManager) :
  line_up_to_date (updateFastestTaskInfo m).
Proof.
  unfold line_up_to_date.
  rewrite updateFastestTaskInfo_line, (proj1 (tasks_updateFastestTaskInfo m)). reflexivity.
Qed.

(** A pending task at the end of the list does not change the query. *)
Lemma fastestTask_pending_last (ts : list Task) (t : Task) :
  completed t = false -> fastestTask (ts ++ [t]) = fastestTask ts.
Proof.
  intros Hpending. rewrite !fastestTask_unfold, filter_app. cbn [filter].
  unfold getCompletionTime at 2. rewrite Hpending. cbn. rewrite app_nil_r. reflexivity.
Qed.

Lemma perform_keeps_line (a : Action) (m m' : TaskManager) :
  keeps_line a -> line_up_to_date m -> perform a m = Normal m' -> line_up_to_date m'.
Proof.
  intros Hpage Hline Hperform.
  destruct a as [value | e | now taskId | taskId | | filter | | env | env];
    cbn [perform keeps_line] in *; try contradiction.
  - injection Hperform as <-. exact Hline.
  - injection Hperform as <-. unfold addTask.
    destruct (jsstring_eqb (String_trim (taskInput m)) []); [exact Hline|].
    unfold line_up_to_date in *.
    cbn [tasks fastestTaskInfo renderTasks saveTasks set_taskList set_localStorage
         set_taskInput set_tasks].
    unfold push, line_of. rewrite fastestTask_pending_last by reflexivity. exact Hline.
  - injection Hperform as <-. unfold toggleTaskCompletion.
    destruct (find _ (tasks m)); [apply updateFastestTaskInfo_up_to_date|exact Hline].
  - injection Hperform as <-. apply updateFastestTaskInfo_up_to_date.
  - injection Hperform as <-. exact Hline.
  - injection Hperform as <-. exact Hline.
  - unfold TaskManager_new in Hperform.
    destruct (loadTasks env _) as [m1| |]; try discriminate.
    cbn [bind] in Hperform. injection Hperform as <-.
    apply updateFastestTaskInfo_up_to_date.
Qed.

(** X9. From the constructor on, the line about the fastest task is the one
    of the current store, as long as the tasks change through [addTask],
    [toggleTaskCompletion], [deleteTask], filters and reloads: none of the
    fastest task when no task has a completion time, else its text and its
    duration.  ([clearCompletedTasks] is the one operation that leaves an
    old line behind.) *)
Theorem line_follows_the_store (env : nat -> Entropy) (storage : Storage)
        (actions : list Action) (m0 m : TaskManager)
        (Hnew : TaskManager_new env storage = Normal m0)
        (Hpage : Forall keeps_line actions)
        (Hrun : run actions m0 = Normal m) :
  fastestTaskInfo m = line_of (tasks m).
Proof.
  assert (line_up_to_date m0) as Hline.
  { unfold TaskManager_new in Hnew.
    destruct (loadTasks env _) as [m1| |]; try discriminate.
    cbn [bind] in Hnew. injection Hnew as <-. apply updateFastestTaskInfo_up_to_date. }
  clear Hnew. revert m0 Hline Hrun.
  induction Hpage as [|a actions Ha Hactions IH]; intros m0 Hline Hrun.
  - injection Hrun as <-. exact Hline.
  - cbn [run] in Hrun. destruct (perform a m0) as [m1| |] eqn:Hperform; try discriminate.
    apply (IH m1); [|exact Hrun]. apply (perform_keeps_line a m0 m1); assumption.
Qed.

Lemma line_follows_the_store_witness :
  exists m,
    run tie_actions (result_of (TaskManager_new (fun _ => morning) (localStorage empty_store)))
    = Normal m /\
    fastestTaskInfo m = line_of (tasks m) /\
    fastestTaskInfo m = fastest_line (js "call mum") (js "5s").
Proof.
  eexists. split; [vm_compute; reflexivity|].
  split; [|vm_compute; reflexivity].
  apply (line_follows_the_store (fun _ => morning) (localStorage empty_store) tie_actions
           (result_of (TaskManager_new (fun _ => morning) (localStorage empty_store)))).
  - vm_compute. reflexivity.
  - repeat constructor.
  - vm_compute. reflexivity.
Defined.

(** X10. After a pending task is completed through [toggleTaskCompletion],
    the line names a task, whose completion time is at most the time that
    the completed task took; when that time is under one second the line
    ends after "en" with no duration. *)
Theorem completing_names_a_fastest_task (now : Z) (taskId : jsstring) (m : TaskManager)
        (t : Task)
        (Hfind : find (fun t => jsstring_eqb (id t) taskId) (tasks m) = Some t)
        (Hpending : completed t = false) :
  exists best d,
    fastestTask (tasks (toggleTaskCompletion now taskId m)) = Some best /\
    getCompletionTime best = Some d /\
    d <= now - createdAt t /\
    fastestTaskInfo (toggleTaskCompletion now taskId m)
    = fastest_line (text best) (formatDuration (Some d)) /\
    (d < 1000 ->
     fastestTaskInfo (toggleTaskCompletion now taskId m) = fastest_line (text best) []).
Proof.
  destruct (toggle_found_first now taskId (tasks m) t Hfind)
    as (before & after & Hsplit & _ & _ & Htoggle).
  assert (fastestTaskInfo (toggleTaskCompletion now taskId m)
          = line_of (tasks (toggleTaskCompletion now taskId m))) as Hline.
  { unfold toggleTaskCompletion at 1. rewrite Hfind.
    rewrite updateFastestTaskInfo_line, tasks_toggleTaskCompletion. reflexivity. }
  rewrite tasks_toggleTaskCompletion, Htoggle in *.
  assert (getCompletionTime (toggled now t) = Some (now - createdAt t)) as Htime.
  { unfold getCompletionTime, toggled. cbn. rewrite Hpending. reflexivity. }
  destruct (fastestTask (before ++ toggled now t :: after)) as [best|] eqn:Hbest.
  2:{ exfalso. apply (fastestTask_some _ (toggled now t)) in Hbest; trivial.
      - apply in_elt.
      - rewrite Htime. discriminate. }
  destruct (fastestTask_found _ best Hbest) as (_ & d & Hd & Hmin).
  exists best, d. split; [reflexivity|]. split; [exact Hd|].
  split; [apply (Hmin (toggled now t)); [apply in_elt|exact Htime]|].
  unfold line_of in Hline. rewrite Hbest, Hd in Hline.
  split; [exact Hline|].
  intros Hshort. rewrite Hline, formatDuration_under_a_second by exact Hshort. reflexivity.
Qed.

Lemma completing_names_a_fastest_task_witness :
  exists best d,
    fastestTask (tasks (toggleTaskCompletion 1793529297000 (js "mvxp1ac64fzyo82mvyr")
                                             milk_store)) = Some best /\
    getCompletionTime best = Some d /\
    d <= 1793529297000 - createdAt milk_task /\
    fastestTaskInfo (toggleTaskCompletion 1793529297000 (js "mvxp1ac64fzyo82mvyr") milk_store)
    = fastest_line (text best) (formatDuration (Some d)) /\
    (d < 1000 ->
     fastestTaskInfo (toggleTaskCompletion 1793529297000 (js "mvxp1ac64fzyo82mvyr")
                                           milk_store)
     = fastest_line (text best) []).
Proof.
  apply (completing_names_a_fastest_task 1793529297000 (js "mvxp1ac64fzyo82mvyr")
           milk_store milk_task).
  - vm_compute. reflexivity.
  - reflexivity.
Defined.

Example line_without_duration :
  fastestTaskInfo (toggleTaskCompletion 1793529297000 (js "mvxp1ac64fzyo82mvyr") milk_store)
  = fastest_line (js "buy milk") [].
Proof. vm_compute. reflexivity. Qed.

(** ** The list of the page *)

Lemma perform_keeps_rendered (a : Action) (m m' : TaskManager) :
  from_page a -> rendered m -> perform a m = Normal m' -> rendered m'.
Proof.
  intros Hpage Hr Hperform.
  destruct a as [value | e | now taskId | taskId | | filter | | env | env];
    cbn [perform from_page] in *; try contradiction.
  - injection Hperform as <-. exact Hr.
  - injection Hperform as <-. unfold addTask.
    destruct (jsstring_eqb (String_trim (taskInput m)) []); [exact Hr|].
    apply renderTasks_rendered.
  - injection Hperform as <-. unfold toggleTaskCompletion.
    destruct (find _ (tasks m)); [|exact Hr].
    apply updateFastestTaskInfo_rendered, renderTasks_rendered.
  - injection Hperform as <-.
    apply updateFastestTaskInfo_rendered, renderTasks_rendered.
  - injection Hperform as <-. apply renderTasks_rendered.
  - injection Hperform as <-. apply renderTasks_rendered.
  - injection Hperform as <-. exact Hr.
  - unfold TaskManager_new in Hperform.
    destruct (loadTasks env _) as [m1| |]; try discriminate.
    cbn [bind] in Hperform. injection Hperform as <-.
    apply updateFastestTaskInfo_rendered, renderTasks_rendered.
Qed.

Lemma run_keeps_rendered (actions : list Action) (m m' : TaskManager) :
  Forall from_page actions -> rendered m -> run actions m = Normal m' -> rendered m'.
Proof.
  intros Hpage. revert m. induction Hpage as [|a actions Ha Hactions IH]; intros m Hr Hrun.
  - injection Hrun as <-. exact Hr.
  - cbn [run] in Hrun. destruct (perform a m) as [m1| |] eqn:Hperform; try discriminate.
    apply (IH m1); [|exact Hrun]. apply (perform_keeps_rendered a m m1); assumption.
Qed.

(** X11. Along every run of the page the list shows the store: its items
    are those of the tasks that match the current filter, newest first.  So
    every item is the item of a task of the store, with that task's flag in
    its checkbox, and the id that its checkbox and its delete button pass
    on is the id of a task: [toggleTaskCompletion] finds it. *)
Theorem page_shows_the_store (actions : list Action) (m : TaskManager)
        (Hrun : run actions empty_store = Normal m)
        (Hpage : Forall from_page actions) :
  taskList m = map TaskItem_of (tasksToShow m) /\
  List.length (taskList m)
  = List.length (filter (matches_filter (currentFilter m)) (tasks m)) /\
  (forall item, In item (taskList m) ->
     exists t, In t (tasks m) /\ matches_filter (currentFilter m) t = true /\
               item = TaskItem_of t /\
               find (fun t => jsstring_eqb (id t) (listeners_taskId item)) (tasks m) <> None).
Proof.
  assert (rendered m) as Hr.
  { apply (run_keeps_rendered actions empty_store m Hpage); [reflexivity|exact Hrun]. }
  split; [exact Hr|]. split.
  - rewrite Hr, length_map. apply Permutation_length.
    rewrite tasksToShow_unfold. apply (Array_sort_perm createdAt).
  - intros item Hitem. rewrite Hr in Hitem. apply in_map_iff in Hitem.
    destruct Hitem as (t & <- & Ht).
    rewrite tasksToShow_unfold in Ht.
    apply (Permutation_in _ (Array_sort_perm createdAt _)) in Ht.
    apply filter_In in Ht. destruct Ht as [Hin Hmatch].
    exists t. repeat split; trivial.
    intros Hnone. apply (find_none _ _ Hnone) in Hin.
    cbn in Hin. rewrite jsstring_eqb_refl in Hin. discriminate.
Qed.

Lemma page_shows_the_store_witness :
  exists m,
    run (tie_actions ++ [FilterTasks (js "completed")]) empty_store = Normal m /\
    taskList m = map TaskItem_of (tasksToShow m) /\
    map taskText_textContent (taskList m) = [js "call mum"; js "buy milk"].
Proof.
  eexists. split; [vm_compute; reflexivity|].
  split; [|vm_compute; reflexivity].
  apply (page_shows_the_store (tie_actions ++ [FilterTasks (js "completed")])).
  - vm_compute. reflexivity.
  - repeat constructor.
Defined.

(** * Local storage along a run *)

Lemma saved_agrees (m : TaskManager) : saved m -> agrees m.
Proof.
  intros Hsaved. right. exists (tasks m). split; [exact Hsaved|].
  clear Hsaved. induction (tasks m) as [|t ts IH]; constructor; [repeat split|exact IH].
Qed.

Lemma agrees_same (m m' : TaskManager) :
  tasks m' = tasks m -> localStorage m' = localStorage m -> agrees m -> agrees m'.
Proof.
  unfold agrees. intros -> ->. trivial.
Qed.

Lemma updateFastestTaskInfo_agrees (m : TaskManager) :
  agrees m -> agrees (updateFastestTaskInfo m).
Proof.
  apply agrees_same; apply tasks_updateFastestTaskInfo.
Qed.

Lemma same_fields_valid (ts us : list Task) :
  Forall2 same_fields ts us -> Forall valid_dates us -> Forall valid_dates ts.
Proof.
  induction 1 as [|t u ts us (_ & _ & Hcreated & Hdone) Hrest IH]; intros Hvalid;
    [constructor|].
  apply Forall_cons_iff in Hvalid. destruct Hvalid as [[Hc Hd] Hus].
  constructor; [|apply IH; exact Hus].
  split; [rewrite <- Hcreated; exact Hc|].
  intros d Hsome. apply Hd. rewrite Hdone. exact Hsome.
Qed.

Lemma same_fields_reload (env : nat -> Entropy) (ts us : list Task) (i : nat) :
  Forall2 same_fields ts us -> Forall2 same_fields us (reload env i ts).
Proof.
  intros H. revert i.
  induction H as [|t u ts us (Htext & Hflag & Hcreated & Hdone) Hrest IH]; intros i;
    constructor; [|apply IH].
  repeat split; cbn; congruence.
Qed.

(** What [loadTasks] does when local storage agrees with the tasks of [m]:
    it returns, with the tasks of [m] up to their ids. *)
Lemma loadTasks_agrees (env : nat -> Entropy) (m m0 : TaskManager) :
  Forall valid_dates (tasks m) -> agrees m -> localStorage m0 = localStorage m ->
  (tasks m0 = [] \/ tasks m0 = tasks m) ->
  exists m', loadTasks env m0 = Normal m' /\
             localStorage m' = localStorage m /\
             currentFilter m' = currentFilter m0 /\
             taskInput m' = taskInput m0 /\
             Forall2 same_fields (tasks m) (tasks m') /\
             agrees m'.
Proof.
  intros Hvalid [[Hnone Hempty]|(ts & Hsome & Hsame)] Hstorage Hstart.
  - exists m0. unfold loadTasks, getItem. rewrite Hstorage, Hnone.
    assert (tasks m0 = []) as H0 by (destruct Hstart; congruence).
    repeat split; trivial.
    + rewrite Hempty, H0. constructor.
    + left. rewrite Hstorage. split; assumption.
  - exists (set_tasks (reload env 0 ts) m0).
    split.
    { apply loadTasks_stored; [rewrite Hstorage; exact Hsome|].
      apply (same_fields_valid ts (tasks m)); assumption. }
    repeat split; trivial.
    + apply same_fields_reload. exact Hsame.
    + right. exists ts. split; [cbn; rewrite Hstorage; exact Hsome|].
      apply reload_same_fields.
Qed.

Lemma toggle_found_Forall (P Q : Task -> Prop) (now : Z) (taskId : jsstring)
      (ts : list Task) :
  (forall t, P t -> Q t) -> (forall t, P t -> Q (toggled now t)) ->
  Forall P ts -> Forall Q (toggle_found now taskId ts).
Proof.
  intros Hkeep Htoggle. induction 1 as [|t ts Ht Hts IH]; [constructor|].
  simpl. destruct (jsstring_eqb (id t) taskId).
  - constructor; [apply (Htoggle t Ht)|]. revert Hts. apply Forall_impl. exact Hkeep.
  - constructor; [apply Hkeep; exact Ht|exact IH].
Qed.

(** A property of the text, the flag and the dates of every task, which
    may depend on the last reading of the clock, along the runs of which
    every action meets [guard]. *)
Section FieldsAlongARun.

Variable P : Z -> Task -> Prop.
Variable guard : Z -> Action -> Prop.

Hypothesis P_fields : forall clock t t', same_fields t t' -> P clock t -> P clock t'.
Hypothesis P_later : forall clock a t, guard clock a -> P clock t -> P (reading clock a) t.
Hypothesis P_new :
  forall clock e text,
    guard clock (AddTask e) -> text <> [] -> no_edge_space text ->
    P (new_Date e) (Task_new e text None None None).
Hypothesis P_toggled :
  forall clock now taskId t,
    guard clock (ToggleTaskCompletion now taskId) -> P clock t -> P now (toggled now t).

Local Abbreviation kept := (fun clock m => store_ok m /\ agrees m /\ Forall (P clock) (tasks m)).

Lemma loaded_fields (clock : Z) (ts us : list Task) :
  Forall2 same_fields ts us -> Forall (P clock) ts -> Forall (P clock) us.
Proof.
  induction 1 as [|t u ts us Hsame Hrest IH]; intros HP; [constructor|].
  apply Forall_cons_iff in HP. destruct HP as [Ht Hts].
  constructor; [apply (P_fields clock t u Hsame Ht)|apply IH; exact Hts].
Qed.

Lemma perform_keeps_fields (clock : Z) (a : Action) (m m' : TaskManager) :
  clock_ok a -> guard clock a -> kept clock m -> perform a m = Normal m' ->
  kept (reading clock a) m'.
Proof.
  intros Hclock Hguard (Hok & Hagrees & HP) Hperform.
  split; [apply (perform_ok a m m' Hclock Hok Hperform)|].
  assert (Forall (P (reading clock a)) (tasks m)) as HP'.
  { revert HP. apply Forall_impl. intros t. apply P_later. exact Hguard. }
  destruct a as [value | e | now taskId | taskId | | filter | | env | env];
    cbn [perform reading] in *.
  - injection Hperform as <-. split; assumption.
  - injection Hperform as <-. unfold addTask.
    destruct (jsstring_eqb (String_trim (taskInput m)) []) eqn:Hblank; [split; assumption|].
    split; [apply saved_agrees; reflexivity|].
    cbn [tasks renderTasks saveTasks set_taskList set_localStorage set_taskInput set_tasks].
    unfold push. apply Forall_app. split; [exact HP'|].
    constructor; [|constructor].
    apply (P_new clock); [exact Hguard| |apply String_trim_no_edge_space].
    apply jsstring_eqb_neq. exact Hblank.
  - injection Hperform as <-. unfold toggleTaskCompletion.
    destruct (find _ (tasks m)); [|split; assumption].
    split; [apply updateFastestTaskInfo_agrees, saved_agrees; reflexivity|].
    rewrite (proj1 (tasks_updateFastestTaskInfo _)).
    cbn [tasks renderTasks saveTasks set_taskList set_localStorage set_tasks].
    apply (toggle_found_Forall (P clock)); [| |exact HP].
    + intros u. apply (P_later clock (ToggleTaskCompletion now taskId)). exact Hguard.
    + intros u. apply (P_toggled clock now taskId). exact Hguard.
  - injection Hperform as <-.
    split; [apply updateFastestTaskInfo_agrees, saved_agrees; reflexivity|].
    unfold deleteTask. rewrite (proj1 (tasks_updateFastestTaskInfo _)).
    apply Forall_filter. exact HP.
  - injection Hperform as <-.
    split; [apply saved_agrees; reflexivity|].
    apply Forall_filter. exact HP.
  - injection Hperform as <-. split; assumption.
  - injection Hperform as <-. split; [apply saved_agrees; reflexivity|exact HP].
  - destruct (loadTasks_agrees env m m (task_ok_valid _ (proj1 Hok)) Hagrees eq_refl
                (or_intror eq_refl)) as (m1 & Hload & _ & _ & _ & Hsame & Hagrees1).
    rewrite Hload in Hperform. injection Hperform as <-.
    split; [exact Hagrees1|]. apply (loaded_fields clock (tasks m)); assumption.
  - unfold TaskManager_new in Hperform.
    destruct (loadTasks_agrees env m
                (Build_TaskManager [] (js "all") [] [] [] (localStorage m))
                (task_ok_valid _ (proj1 Hok)) Hagrees eq_refl (or_introl eq_refl))
      as (m1 & Hload & Hstorage & _ & _ & Hsame & Hagrees1).
    rewrite Hload in Hperform. cbn [bind] in Hperform. injection Hperform as <-.
    split; [apply updateFastestTaskInfo_agrees; exact Hagrees1|].
    rewrite (proj1 (tasks_updateFastestTaskInfo _)).
    apply (loaded_fields clock (tasks m)); assumption.
Qed.

Lemma run_keeps_fields (actions : list Action) (clock : Z) (m m' : TaskManager) :
  Forall clock_ok actions -> along guard clock actions -> kept clock m ->
  run actions m = Normal m' -> kept (last_reading clock actions) m'.
Proof.
  intros Hclock. revert clock m.
  induction Hclock as [|a actions Ha Hactions IH]; intros clock m Halong Hkept Hrun.
  - injection Hrun as <-. exact Hkept.
  - destruct Halong as [Hguard Halong].
    cbn [run] in Hrun. destruct (perform a m) as [m1| |] eqn:Hperform; try discriminate.
    apply (IH (reading clock a) m1); [exact Halong| |exact Hrun].
    apply (perform_keeps_fields clock a m m1); assumption.
Qed.

End FieldsAlongARun.

Lemma along_always (clock : Z) (actions : list Action) :
  along (fun _ _ => True) clock actions.
Proof.
  revert clock. induction actions as [|a actions IH]; intros clock; [exact I|].
  split; [exact I|apply IH].
Qed.

Lemma empty_store_ok : store_ok empty_store /\ agrees empty_store.
Proof.
  split; [split; [constructor|left; reflexivity]|left; split; reflexivity].
Qed.

Lemma reachable_agrees (m : TaskManager) : reachable m -> agrees m.
Proof.
  intros (actions & Hclock & Hrun).
  refine (proj1 (proj2 (run_keeps_fields (fun _ _ => True) (fun _ _ => True)
                          _ _ _ _ actions 0 empty_store m Hclock
                          (along_always 0 actions) _ Hrun))); trivial.
  destruct empty_store_ok as [Hok Hagrees].
  split; [exact Hok|]. split; [exact Hagrees|constructor].
Qed.

(** X12. What a run has done to the tasks is not lost when the page is
    loaded again: on the local storage of every store reached from the
    empty store the constructor returns, with as many tasks, in the same
    order, of the same text, flag and dates; the filter is [all] again, the
    list shows every task, the line about the fastest task is that of the
    loaded tasks, and nothing is written. *)
Theorem reload_restores_the_tasks (m : TaskManager) (env : nat -> Entropy)
        (Hreach : reachable m) :
  exists m',
    TaskManager_new env (localStorage m) = Normal m' /\
    Forall2 same_fields (tasks m) (tasks m') /\
    map id (tasks m')
    = map (fun k => new_id (env k)) (seq 0 (List.length (tasks m))) /\
    currentFilter m' = js "all" /\
    localStorage m' = localStorage m /\
    Permutation (map taskText_textContent (taskList m')) (map text (tasks m)) /\
    fastestTaskInfo m' = line_of (tasks m').
Proof.
  pose proof (reachable_ok m Hreach) as Hok.
  pose proof (reachable_agrees m Hreach) as Hagrees.
  pose proof (task_ok_valid _ (proj1 Hok)) as Hvalid.
  unfold TaskManager_new.
  set (m0 := Build_TaskManager [] (js "all") [] [] [] (localStorage m)).
  assert (exists m1, loadTasks env m0 = Normal m1 /\
                     localStorage m1 = localStorage m /\ currentFilter m1 = js "all" /\
                     Forall2 same_fields (tasks m) (tasks m1) /\
                     map id (tasks m1)
                     = map (fun k => new_id (env k)) (seq 0 (List.length (tasks m))))
    as (m1 & Hload & Hstorage & Hfilter & Hsame & Hids).
  { destruct Hagrees as [[Hnone Hempty]|(ts & Hsome & Hsame)].
    - exists m0. unfold loadTasks, getItem. cbn [localStorage m0]. rewrite Hnone, Hempty.
      repeat split. constructor.
    - exists (set_tasks (reload env 0 ts) m0).
      split; [apply loadTasks_stored; [exact Hsome|]|].
      { apply (same_fields_valid ts (tasks m)); assumption. }
      repeat split.
      + apply same_fields_reload. exact Hsame.
      + cbn [tasks set_tasks]. rewrite reload_ids.
        rewrite (Forall2_length Hsame). reflexivity. }
  rewrite Hload. cbn [bind]. eexists. split; [reflexivity|].
  rewrite (proj1 (tasks_updateFastestTaskInfo _)).
  rewrite (proj1 (proj2 (tasks_updateFastestTaskInfo _))).
  split; [exact Hsame|]. split; [exact Hids|].
  split; [rewrite (proj1 (updateFastestTaskInfo_keeps _)); exact Hfilter|].
  split; [exact Hstorage|].
  split.
  - rewrite (proj2 (updateFastestTaskInfo_keeps _)).
    change (taskList (renderTasks m1)) with (map TaskItem_of (tasksToShow m1)).
    rewrite map_map. cbn [TaskItem_of taskText_textContent].
    rewrite tasksToShow_unfold, Hfilter.
    transitivity (map text (tasks m1)).
    + apply Permutation_map.
      etransitivity; [apply (Array_sort_perm createdAt)|].
      cbn. rewrite filter_true. reflexivity.
    + assert (map text (tasks m1) = map text (tasks m)) as ->; [|reflexivity].
      clear -Hsame. induction Hsame as [|t u ts us (Htext & _) Hrest IH];
        [reflexivity|]. cbn. rewrite Htext, IH. reflexivity.
  - apply updateFastestTaskInfo_line.
Qed.

Lemma reload_restores_the_tasks_witness :
  exists m',
    TaskManager_new next_day (localStorage milk_done) = Normal m' /\
    Forall2 same_fields (tasks milk_done) (tasks m') /\
    map id (tasks m')
    = map (fun k => new_id (next_day k)) (seq 0 (List.length (tasks milk_done))) /\
    currentFilter m' = js "all" /\
    localStorage m' = localStorage milk_done /\
    Permutation (map taskText_textContent (taskList m')) (map text (tasks milk_done)) /\
    fastestTaskInfo m' = line_of (tasks m').
Proof.
  exact (reload_restores_the_tasks milk_done next_day milk_done_reachable).
Defined.

(** ** The texts of the tasks *)

Lemma trim_start_kept (s : jsstring) :
  (forall c r, s = c :: r -> is_whitespace c = false) -> trim_start s = s.
Proof.
  destruct s as [|c r]; [reflexivity|].
  intros H. simpl. rewrite (H c r eq_refl). reflexivity.
Qed.

Lemma String_trim_kept (s : jsstring) : no_edge_space s -> String_trim s = s.
Proof.
  intros [Hfirst Hlast]. unfold String_trim.
  rewrite (trim_start_kept s Hfirst).
  rewrite trim_start_kept; [apply rev_involutive|].
  intros c r H. apply (Hlast c (rev r)).
  rewrite <- (rev_involutive s), H. reflexivity.
Qed.

(** X13. The text of every task of a store reached from the empty store is
    not empty and has no white space at its ends: trimming it again changes
    nothing.  It is the trimmed input of the [addTask] that made the task,
    and it comes back as it was from local storage. *)
Theorem texts_stay_trimmed (m : TaskManager) (Hreach : reachable m) :
  Forall (fun t => text t <> [] /\ String_trim (text t) = text t) (tasks m).
Proof.
  destruct Hreach as (actions & Hclock & Hrun).
  assert (Forall text_ok (tasks m)) as Htexts.
  { refine (proj2 (proj2 (run_keeps_fields (fun _ => text_ok) (fun _ _ => True)
                            _ _ _ _ actions 0 empty_store m Hclock
                            (along_always 0 actions) _ Hrun))).
    - intros _ t t' (Htext & _) [Hfull Hedge]. unfold text_ok. rewrite Htext.
      split; assumption.
    - trivial.
    - intros _ e text _ Hfull Hedge. split; assumption.
    - intros _ now _ t _ Ht. exact Ht.
    - destruct empty_store_ok as [Hok Hagrees].
      split; [exact Hok|]. split; [exact Hagrees|constructor]. }
  revert Htexts. apply Forall_impl. intros t [Hfull Hedge].
  split; [exact Hfull|apply String_trim_kept; exact Hedge].
Qed.

Lemma texts_stay_trimmed_witness :
  Forall (fun t => text t <> [] /\ String_trim (text t) = text t) (tasks milk_done).
Proof.
  exact (texts_stay_trimmed milk_done milk_done_reachable).
Defined.

(** ** The dates of the tasks *)

Lemma dates_in_order_fields (clock : Z) (t t' : Task) :
  same_fields t t' -> dates_in_order clock t -> dates_in_order clock t'.
Proof.
  intros (_ & _ & Hcreated & Hdone) [Hc Hd]. unfold dates_in_order.
  rewrite Hcreated, Hdone. split; assumption.
Qed.

Lemma dates_in_order_later (clock clock' : Z) (t : Task) :
  clock <= clock' -> dates_in_order clock t -> dates_in_order clock' t.
Proof.
  intros Hle [Hc Hd]. split; [lia|]. intros d H. specialize (Hd d H). lia.
Qed.

Lemma dates_in_order_new (e : Entropy) (text : jsstring) :
  dates_in_order (new_Date e) (Task_new e text None None None).
Proof.
  split; [cbn; lia|]. intros d H. discriminate H.
Qed.

Lemma dates_in_order_toggled (clock now : Z) (t : Task) :
  clock <= now -> dates_in_order clock t -> dates_in_order now (toggled now t).
Proof.
  intros Hle [Hc Hd]. split; [cbn; lia|].
  intros d. cbn. destruct (negb (completed t)); [|discriminate].
  intros H. injection H as <-. lia.
Qed.

Lemma after_last_reading_not_before (clock : Z) (a : Action) :
  after_last_reading clock a -> not_before clock a.
Proof.
  unfold after_last_reading, not_before. destruct a; cbn; lia.
Qed.

(** The dates stay in order along a run whose clock does not go back. *)
Lemma run_keeps_dates (guard : Z -> Action -> Prop) (actions : list Action) (clock : Z)
      (m : TaskManager) :
  (forall c a, guard c a -> not_before c a) ->
  Forall clock_ok actions -> along guard clock actions ->
  run actions empty_store = Normal m ->
  store_ok m /\ Forall (dates_in_order (last_reading clock actions)) (tasks m).
Proof.
  intros Hguard Hclock Halong Hrun.
  destruct (run_keeps_fields dates_in_order guard) with
    (actions := actions) (clock := clock) (m := empty_store) (m' := m)
    as (Hok & _ & Hdates); trivial.
  - exact dates_in_order_fields.
  - intros c a t Ha. apply dates_in_order_later. apply (Hguard c a Ha).
  - intros c e text _ _ _. apply dates_in_order_new.
  - intros c now taskId t Ha. apply dates_in_order_toggled.
    apply (Hguard c _ Ha).
  - destruct empty_store_ok as [Hok Hagrees].
    split; [exact Hok|]. split; [exact Hagrees|constructor].
  - split; assumption.
Qed.

(** X14. When the readings of the clock never go back along a run from the
    empty store, every task was created no later than the last reading, a
    completion date is between the creation and the last reading, and no
    completion time is negative. *)
Theorem completion_times_are_not_negative (actions : list Action) (clock : Z)
        (m : TaskManager)
        (Hclock : Forall clock_ok actions)
        (Horder : clock_in_order clock actions)
        (Hrun : run actions empty_store = Normal m) :
  Forall (fun t =>
            createdAt t <= last_reading clock actions /\
            (forall d, completedAt t = Some d ->
                       createdAt t <= d <= last_reading clock actions) /\
            (forall d, getCompletionTime t = Some d -> 0 <= d))
         (tasks m).
Proof.
  destruct (run_keeps_dates not_before actions clock m) as [_ Hdates]; trivial.
  revert Hdates. apply Forall_impl. intros t [Hc Hd].
  split; [exact Hc|]. split; [exact Hd|].
  intros d. unfold getCompletionTime.
  destruct (negb (completed t) || negb (is_some (completedAt t))); [discriminate|].
  destruct (completedAt t) as [done|]; [|discriminate].
  intros H. injection H as <-. specialize (Hd done eq_refl). lia.
Qed.

Lemma completion_times_are_not_negative_witness :
  Forall (fun t =>
            createdAt t <= last_reading 0 tie_actions /\
            (forall d, completedAt t = Some d ->
                       createdAt t <= d <= last_reading 0 tie_actions) /\
            (forall d, getCompletionTime t = Some d -> 0 <= d))
         (tasks tie_store).
Proof.
  apply (completion_times_are_not_negative tie_actions 0 tie_store).
  - repeat constructor; vm_compute; discriminate.
  - repeat split; vm_compute; discriminate.
  - vm_compute. reflexivity.
Defined.

(** A clock that goes back gives a negative completion time, and an empty
    duration. *)
Example clock_set_back :
  map getCompletionTime
      (tasks (toggleTaskCompletion 1793529290000 (js "mvxp1ac64fzyo82mvyr") milk_store))
  = [Some (-6789)] /\
  fastestTaskInfo (toggleTaskCompletion 1793529290000 (js "mvxp1ac64fzyo82mvyr") milk_store)
  = fastest_line (js "buy milk") [].
Proof. vm_compute. split; reflexivity. Qed.

(** ** The order of the list *)

Lemma sort_insert_oldest {A} (key : A -> Z) (a : A) (l : list A) :
  Forall (fun b => key a < key b) l ->
  sort_insert (fun a b => key b - key a) a l = l ++ [a].
Proof.
  induction 1 as [|b l Hb Hl IH]; [reflexivity|].
  simpl. destruct (Z.ltb_spec 0 (key b - key a)); [|lia].
  rewrite IH. reflexivity.
Qed.

(** Sorting a list of increasing keys by decreasing key reverses it. *)
Lemma Array_sort_ascending {A} (key : A -> Z) (l : list A) :
  StronglySorted Z.lt (map key l) ->
  Array_sort (fun a b => key b - key a) l = rev l.
Proof.
  induction l as [|a l IH]; [reflexivity|].
  cbn [map]. intros H. apply StronglySorted_inv in H. destruct H as [Hl Ha].
  change (Array_sort (fun a b => key b - key a) (a :: l))
    with (sort_insert (fun a b => key b - key a) a (Array_sort (fun a b => key b - key a) l)).
  rewrite (IH Hl). cbn [rev].
  apply sort_insert_oldest.
  rewrite Forall_forall in *. intros b Hb. apply Ha.
  apply in_map. apply in_rev. exact Hb.
Qed.

Lemma ascending_filter (p : Task -> bool) (ts : list Task) :
  ascending ts -> ascending (filter p ts).
Proof.
  unfold ascending. induction ts as [|a ts IH]; [trivial|].
  cbn [map filter]. intros H. apply StronglySorted_inv in H. destruct H as [Hts Ha].
  destruct (p a); [|apply IH; exact Hts].
  cbn [map]. constructor; [apply IH; exact Hts|].
  rewrite Forall_forall in *. intros x Hx. apply Ha.
  apply in_map_iff in Hx. destruct Hx as (b & <- & Hb).
  apply in_map. apply filter_In in Hb. apply Hb.
Qed.

Lemma ascending_push (clock : Z) (ts : list Task) (t : Task) :
  ascending ts -> Forall (fun u => createdAt u <= clock) ts -> clock < createdAt t ->
  ascending (ts ++ [t]).
Proof.
  unfold ascending. intros Hts Hbefore Hnew.
  induction ts as [|a ts IH]; cbn [map app]; [repeat constructor|].
  cbn [map] in Hts. apply StronglySorted_inv in Hts. destruct Hts as [Hts Ha].
  apply Forall_cons_iff in Hbefore. destruct Hbefore as [Hac Hbefore].
  constructor; [apply IH; assumption|].
  rewrite map_app. apply Forall_app. split; [exact Ha|].
  constructor; [lia|constructor].
Qed.

Lemma toggle_found_createdAt (now : Z) (taskId : jsstring) (ts : list Task) :
  map createdAt (toggle_found now taskId ts) = map createdAt ts.
Proof.
  induction ts as [|t ts IH]; [reflexivity|].
  simpl. destruct (jsstring_eqb (id t) taskId); simpl; [reflexivity|].
  rewrite IH. reflexivity.
Qed.

Lemma same_fields_createdAt (ts us : list Task) :
  Forall2 same_fields ts us -> map createdAt us = map createdAt ts.
Proof.
  induction 1 as [|t u ts us (_ & _ & Hcreated & _) Hrest IH]; [reflexivity|].
  cbn. rewrite Hcreated, IH. reflexivity.
Qed.

Lemma perform_keeps_ascending (clock : Z) (a : Action) (m m' : TaskManager) :
  after_last_reading clock a -> store_ok m -> agrees m ->
  Forall (dates_in_order clock) (tasks m) -> ascending (tasks m) ->
  perform a m = Normal m' -> ascending (tasks m').
Proof.
  intros Hguard Hok Hagrees Hdates Hasc Hperform.
  destruct a as [value | e | now taskId | taskId | | filter | | env | env];
    cbn [perform after_last_reading] in *.
  - injection Hperform as <-. exact Hasc.
  - injection Hperform as <-. unfold addTask.
    destruct (jsstring_eqb (String_trim (taskInput m)) []); [exact Hasc|].
    cbn [tasks renderTasks saveTasks set_taskList set_localStorage set_taskInput set_tasks].
    apply (ascending_push clock); [exact Hasc| |exact Hguard].
    revert Hdates. apply Forall_impl. intros t [Hc _]. exact Hc.
  - injection Hperform as <-. unfold ascending.
    rewrite tasks_toggleTaskCompletion, toggle_found_createdAt. exact Hasc.
  - injection Hperform as <-. unfold deleteTask.
    rewrite (proj1 (tasks_updateFastestTaskInfo _)).
    apply ascending_filter. exact Hasc.
  - injection Hperform as <-. apply ascending_filter. exact Hasc.
  - injection Hperform as <-. exact Hasc.
  - injection Hperform as <-. exact Hasc.
  - destruct (loadTasks_agrees env m m (task_ok_valid _ (proj1 Hok)) Hagrees eq_refl
                (or_intror eq_refl)) as (m1 & Hload & _ & _ & _ & Hsame & _).
    rewrite Hload in Hperform. injection Hperform as <-.
    unfold ascending. rewrite (same_fields_createdAt _ _ Hsame). exact Hasc.
  - unfold TaskManager_new in Hperform.
    destruct (loadTasks_agrees env m
                (Build_TaskManager [] (js "all") [] [] [] (localStorage m))
                (task_ok_valid _ (proj1 Hok)) Hagrees eq_refl (or_introl eq_refl))
      as (m1 & Hload & _ & _ & _ & Hsame & _).
    rewrite Hload in Hperform. cbn [bind] in Hperform. injection Hperform as <-.
    unfold ascending. rewrite (proj1 (tasks_updateFastestTaskInfo _)).
    cbn [tasks renderTasks set_taskList].
    rewrite (same_fields_createdAt _ _ Hsame). exact Hasc.
Qed.

Lemma run_keeps_ascending (actions : list Action) (clock : Z) (m m' : TaskManager) :
  Forall clock_ok actions -> along after_last_reading clock actions ->
  store_ok m -> agrees m -> Forall (dates_in_order clock) (tasks m) ->
  ascending (tasks m) ->
  run actions m = Normal m' -> ascending (tasks m').
Proof.
  intros Hclock. revert clock m.
  induction Hclock as [|a actions Ha Hactions IH];
    intros clock m Halong Hok Hagrees Hdates Hasc Hrun.
  - injection Hrun as <-. exact Hasc.
  - destruct Halong as [Hguard Halong].
    cbn [run] in Hrun. destruct (perform a m) as [m1| |] eqn:Hperform; try discriminate.
    destruct (perform_keeps_fields dates_in_order after_last_reading) with
      (clock := clock) (a := a) (m := m) (m' := m1) as (Hok1 & Hagrees1 & Hdates1); trivial.
    + exact dates_in_order_fields.
    + intros c b t Hb. apply dates_in_order_later.
      apply (after_last_reading_not_before c b Hb).
    + intros c e text _ _ _. apply dates_in_order_new.
    + intros c now taskId t Hb. apply dates_in_order_toggled. exact Hb.
    + repeat split; trivial; apply Hok.
    + apply (IH (reading clock a) m1); trivial.
      apply (perform_keeps_ascending clock a m m1); assumption.
Qed.

(** X15. When the clock moves on before every [addTask] and never goes
    back, the tasks of the store are in the order of their creation, and the
    page lists the tasks that match the filter in the reverse of the order
    they have in the store: the last one added comes first. *)
Theorem newest_task_comes_first (actions : list Action) (clock : Z) (m : TaskManager)
        (Hclock : Forall clock_ok actions)
        (Horder : along after_last_reading clock actions)
        (Hrun : run actions empty_store = Normal m) :
  StronglySorted Z.lt (map createdAt (tasks m)) /\
  tasksToShow m = rev (filter (matches_filter (currentFilter m)) (tasks m)).
Proof.
  assert (ascending (tasks m)) as Hasc.
  { destruct empty_store_ok as [Hok Hagrees].
    apply (run_keeps_ascending actions clock empty_store m); trivial; constructor. }
  split; [exact Hasc|].
  rewrite tasksToShow_unfold.
  apply (Array_sort_ascending createdAt). apply ascending_filter. exact Hasc.
Qed.

Lemma newest_task_comes_first_witness :
  StronglySorted Z.lt (map createdAt (tasks tie_store)) /\
  tasksToShow tie_store = rev (filter (matches_filter (currentFilter tie_store))
                                      (tasks tie_store)).
Proof.
  apply (newest_task_comes_first tie_actions 0 tie_store).
  - repeat constructor; vm_compute; discriminate.
  - vm_compute. repeat split; discriminate.
  - vm_compute. reflexivity.
Defined.

(** Two tasks of the same creation time keep the order of the store. *)
Example twins_keep_the_order_of_the_store :
  map text (tasksToShow (result_of (run twin_actions empty_store)))
  = [js "buy milk"; js "call mum"].
Proof. vm_compute. reflexivity. Qed.

(** ** A snapshot that the program did not write *)

Lemma load_records_null (env : nat -> Entropy) (ts : list Task) (rest : list JSON)
      (i : nat) :
  Forall valid_dates ts ->
  load_records env i (map Task_toJSON ts ++ JNull :: rest) = Throw TypeError.
Proof.
  intros H. revert i. induction H as [|t ts Ht Hts IH]; intros i; [reflexivity|].
  cbn [map app load_records].
  rewrite load_record_Task_toJSON by exact Ht. cbn [bind].
  rewrite IH. reflexivity.
Qed.

(** X16. [loadTasks] reads the properties of every record of the snapshot
    without a test: a [null] among the records, after any number of records
    that load, makes it throw a TypeError, which ends the constructor. *)
Theorem null_record_throws (env : nat -> Entropy) (m : TaskManager) (ts : list Task)
        (rest : list JSON)
        (Hvalid : Forall valid_dates ts)
        (Hrest : forallb number_free rest = true)
        (Hstored : item_tasks (localStorage m) = Some (null_snapshot ts rest)) :
  loadTasks env m = Throw TypeError /\
  TaskManager_new env (localStorage m) = Throw TypeError.
Proof.
  assert (forall m0, localStorage m0 = localStorage m ->
                     loadTasks env m0 = Throw TypeError) as Hload.
  { intros m0 Hstorage. unfold loadTasks, getItem. rewrite Hstorage, Hstored.
    unfold null_snapshot.
    destruct (stringify_array_not_empty (map Task_toJSON ts ++ JNull :: rest)) as [r Hr].
    rewrite Hr. rewrite <- Hr.
    rewrite JSON_parse_stringify.
    - rewrite load_records_null by exact Hvalid. reflexivity.
    - cbn [number_free]. rewrite forallb_app. cbn [forallb number_free].
      rewrite Hrest, andb_true_r.
      apply (tasks_number_free ts). }
  split; [apply Hload; reflexivity|].
  unfold TaskManager_new. rewrite Hload; reflexivity.
Qed.

Lemma null_record_throws_witness :
  loadTasks next_day null_store = Throw TypeError /\
  TaskManager_new next_day (localStorage null_store) = Throw TypeError.
Proof.
  exact (null_record_throws next_day null_store (tasks milk_done) [JBool true]
           (task_ok_valid _ (proj1 (reachable_ok _ milk_done_reachable)))
           eq_refl eq_refl).
Defined.

Example null_snapshot_text : null_snapshot [] [] = js "[null]".
Proof. reflexivity. Qed.
